(** * Vermicular vs. standard Grover: circuit construction and multi-stage search

    A shallow embedding of [db_vs.py] (class [QuantumDatabaseDemo]).

    - A Braket [Circuit] is the ordered list of the instructions appended to
      it; [circuit.h(q)], [circuit.x(q)] and [circuit.cz(c, t)] append one
      instruction each, and [len(circuit.instructions)] is the list length.
    - Python [int]s are [Z]; [range(n)] is empty for [n <= 0].
    - Python [str]s are [string]s, iterated character by character.
    - Python [float]s are IEEE-754 binary64 values, modelled by the Standard
      Library's [spec_float] with [prec = 53] and [emax = 1024]; every
      arithmetic operation rounds to nearest, ties to even.
    - The execution backend ([self.device]) is a parameter: an arbitrary
      function of the calls made so far, the submitted circuit and the shot
      count, which answers with samples or raises an exception.  Every
      call is recorded in a log.
    - Exceptions and the mutable attributes of [self] are threaded through a
      state-and-error monad.  Printing, timing, plotting and file output are
      not modelled. *)

From Stdlib Require Import String Ascii ZArith List Bool Lia Permutation.
From Stdlib Require Import QArith Qpower Floats.SpecFloat.
From Stdlib Require Import Reals Lra.
Import ListNotations.
Local Open Scope string_scope.
Local Open Scope list_scope.
Local Open Scope Z_scope.

(** ** Circuits *)

Inductive Instruction : Type :=
| Hgate (q : nat)
| Xgate (q : nat)
| CZgate (control target : nat).

Module Circuit.
Definition t : Type := list Instruction.

(** [Circuit()] *)
Definition empty : t := [].

(** [circuit.h(q)], [circuit.x(q)], [circuit.cz(c, q)] *)
Definition h (q : nat) (circuit : t) : t := circuit ++ [Hgate q].
Definition x (q : nat) (circuit : t) : t := circuit ++ [Xgate q].
Definition cz (c q : nat) (circuit : t) : t := circuit ++ [CZgate c q].

(** [len(circuit.instructions)] *)
Definition depth (circuit : t) : Z := Z.of_nat (List.length circuit).
End Circuit.

Notation "c |> f" := (f c) (at level 45, left associativity, only parsing).

(** ** Python iteration helpers *)

(** [enumerate(l)] *)
Fixpoint enumerate_from {A : Type} (i : nat) (l : list A) : list (nat * A) :=
  match l with
  | [] => []
  | a :: l' => (i, a) :: enumerate_from (S i) l'
  end.

Definition enumerate {A : Type} (l : list A) : list (nat * A) :=
  enumerate_from 0 l.

(** [range(n)] *)
Definition range (n : Z) : list Z := map Z.of_nat (seq 0 (Z.to_nat n)).

(** ** Oracle and the two circuit builders *)

(** The loop [for i, bit in enumerate(target): if bit == '0': circuit.x(i)]. *)
Definition flip_zero_bits (circuit : Circuit.t) (target : string) : Circuit.t :=
  fold_left
    (fun circuit '(i, bit) =>
       if Ascii.eqb bit "0" then circuit |> Circuit.x i else circuit)
    (enumerate (list_ascii_of_string target))
    circuit.

Definition _apply_oracle (circuit : Circuit.t) (target : string) : Circuit.t :=
  (* Apply X gates to qubits that should be |0> *)
  let circuit := flip_zero_bits circuit target in
  (* Multi-controlled Z *)
  let circuit := circuit |> Circuit.cz 0 1 in
  (* Undo X gates *)
  flip_zero_bits circuit target.

Definition create_standard_grover (target : string) (iterations : Z) : Circuit.t :=
  let circuit := Circuit.empty in
  (* Initial superposition *)
  let circuit := circuit |> Circuit.h 0 |> Circuit.h 1 in
  fold_left
    (fun circuit (_ : Z) =>
       (* Oracle for target *)
       let circuit := _apply_oracle circuit target in
       (* Diffusion operator *)
       circuit |> Circuit.h 0 |> Circuit.h 1
               |> Circuit.x 0 |> Circuit.x 1
               |> Circuit.cz 0 1
               |> Circuit.x 0 |> Circuit.x 1
               |> Circuit.h 0 |> Circuit.h 1)
    (range iterations)
    circuit.

Definition create_vermicular (target : string) (iterations : Z) : Circuit.t :=
  let circuit := Circuit.empty in
  (* Initial superposition *)
  let circuit := circuit |> Circuit.h 0 |> Circuit.h 1 in
  (* Pre-oracle DD sequence *)
  let circuit := circuit |> Circuit.x 0 |> Circuit.x 0
                         |> Circuit.x 1 |> Circuit.x 1 in
  let circuit :=
    fold_left
      (fun circuit (i : Z) =>
         (* Oracle *)
         let circuit := _apply_oracle circuit target in
         (* Diffusion *)
         let circuit :=
           circuit |> Circuit.h 0 |> Circuit.h 1
                   |> Circuit.x 0 |> Circuit.x 1
                   |> Circuit.cz 0 1
                   |> Circuit.x 0 |> Circuit.x 1
                   |> Circuit.h 0 |> Circuit.h 1 in
         (* Inter-iteration DD (if multiple iterations) *)
         if (1 <? iterations) && (i <? iterations - 1)
         then circuit |> Circuit.x 0 |> Circuit.x 0
                      |> Circuit.x 1 |> Circuit.x 1
         else circuit)
      (range iterations)
      circuit in
  (* Post-diffusion DD *)
  circuit |> Circuit.x 0 |> Circuit.x 0 |> Circuit.x 1 |> Circuit.x 1.

(** ** Vocabulary of the specification, for stating the circuit properties *)

Module Spec.
(** The fixed search space has two units, numbered 0 and 1. *)
Definition units : list nat := [0%nat; 1%nat].

(** State-mix on every unit. *)
Definition superposition : Circuit.t := map Hgate units.

(** A decoupling pulse on unit [q]: a bit-flip immediately followed by the
    same bit-flip. *)
Definition decoupling_pulse (q : nat) : Circuit.t := [Xgate q; Xgate q].

(** A decoupling pulse on every unit. *)
Definition pulses : Circuit.t := flat_map decoupling_pulse units.

(** Positions of the pattern whose bit is ['0'], in position order. *)
Definition zero_positions (target : string) : list nat :=
  filter
    (fun i => match String.get i target with
              | Some bit => Ascii.eqb bit "0"
              | None => false
              end)
    (seq 0 (String.length target)).

Definition bit_flips (target : string) : Circuit.t :=
  map Xgate (zero_positions target).

(** Whether an instruction is a bit-flip. *)
Definition is_flip (i : Instruction) : bool :=
  match i with Xgate _ => true | _ => false end.

(** The units an instruction acts on. *)
Definition acts_on (i : Instruction) : list nat :=
  match i with
  | Hgate q | Xgate q => [q]
  | CZgate c q => [c; q]
  end.

Definition oracle (target : string) : Circuit.t :=
  bit_flips target ++ [CZgate 0 1] ++ bit_flips target.

(** State-mix all, bit-flip all, conditional phase, bit-flip all,
    state-mix all. *)
Definition diffusion : Circuit.t :=
  map Hgate units ++ map Xgate units ++ [CZgate 0 1]
    ++ map Xgate units ++ map Hgate units.

(** One Grover iteration: {oracle; diffusion}. *)
Definition iteration (target : string) : Circuit.t :=
  oracle target ++ diffusion.

(** [blocks] laid out in order with [sep] strictly between consecutive
    blocks: none before the first, none after the last. *)
Fixpoint interleave (sep : Circuit.t) (blocks : list Circuit.t) : Circuit.t :=
  match blocks with
  | [] => []
  | [b] => b
  | b :: rest => b ++ sep ++ interleave sep rest
  end.

Definition baseline (target : string) (iterations : nat) : Circuit.t :=
  superposition ++ concat (repeat (iteration target) iterations).

Definition augmented (target : string) (iterations : nat) : Circuit.t :=
  superposition ++ pulses
    ++ interleave pulses (repeat (iteration target) iterations)
    ++ pulses.

(** The circuit a stage builds for [target] when the depth accumulated so
    far is [accumulated]. *)
Definition stage_circuit (algorithm_type target : string) (accumulated : Z)
  : Circuit.t :=
  if String.eqb algorithm_type "standard"
  then create_standard_grover target (if accumulated <? 2 then 1 else 2)
  else create_vermicular target 1.

(** Deleting the decoupling pulses: scanning left to right, every bit-flip
    immediately followed by the same bit-flip is removed as a pair. *)
Fixpoint strip_pulses (c : Circuit.t) : Circuit.t :=
  match c with
  | [] => []
  | Xgate q :: tl =>
      match tl with
      | Xgate q' :: rest =>
          if Nat.eqb q q' then strip_pulses rest
          else Xgate q :: strip_pulses tl
      | _ => Xgate q :: strip_pulses tl
      end
  | i :: tl => i :: strip_pulses tl
  end.
End Spec.

(** ** Python floats *)

Module PyFloat.
Definition prec : Z := 53.
Definition emax : Z := 1024.

Definition t : Type := spec_float.

(** A [spec_float] is a binary64 value when its mantissa is canonical and
    its exponent in range. *)
Definition valid (a : t) : bool := valid_binary prec emax a.

Definition zero : t := S754_zero false.
Definition one : t := S754_finite false 4503599627370496 (-52).
(** [float('inf')] *)
Definition inf : t := S754_infinity false.

Definition mul : t -> t -> t := SFmul prec emax.
Definition div : t -> t -> t := SFdiv prec emax.
Definition eqb : t -> t -> bool := SFeqb.
Definition ltb : t -> t -> bool := SFltb.
Definition leb : t -> t -> bool := SFleb.

(** [float(z)]: the integer rounded to the nearest binary64 value. *)
Definition of_int (z : Z) : t := binary_normalize prec emax z 0 false.

(** The integer [z] as the unrounded datum [z * 2^0]. *)
Definition raw_int (z : Z) : t :=
  match z with
  | Z0 => S754_zero false
  | Zpos m => S754_finite false m 0
  | Zneg m => S754_finite true m 0
  end.

(** The exact rational value of a finite float; 0 for the others. *)
Definition to_Q (a : t) : Q :=
  match a with
  | S754_finite s m e =>
      (if s then inject_Z (Zneg m) else inject_Z (Zpos m)) * (2 # 1) ^ e
  | _ => 0
  end.

(** [0 <= a <= 1], as Python evaluates it. *)
Definition in_unit_interval (a : t) : bool := leb zero a && leb a one.

(** A success rate: a binary64 value in [0, 1]. *)
Definition is_rate (a : t) : bool := valid a && in_unit_interval a.
End PyFloat.

(** ** Exceptions, mutable state and the monad *)

(** The exceptions of the program's own operations, and an exception
    raised inside the backend call, kept by the name of its class (a
    [ValueError], say, on a request the backend does not accept). *)
Inductive Exception : Type :=
| ZeroDivisionError
| IndexError
| KeyError
| BackendError (class_name : string).

(** One row of [result.measurements]: the measured bit of every qubit. *)
Definition Measurement : Type := list bool.

(** A request to the backend: [device.run(circuit, shots=shots)]. *)
Definition Call : Type := (Circuit.t * Z)%type.

(** An entry of [self.results]: [{'stages': ..., 'total': ...}]. *)
Record RunResult : Type := {
  stages : list PyFloat.t;
  total : PyFloat.t
}.

(** The answer of the backend to a call: the rows of
    [result.measurements], or the class name of the exception raised. *)
Definition Answer : Type := (string + list Measurement)%type.

(** The immutable attributes of [self]. [device history circuit shots] is
    what becomes of [device.run(circuit, shots).result().measurements]
    when the calls in [history] were made before. *)
Record QuantumDatabaseDemo : Type := {
  device : list Call -> Circuit.t -> Z -> Answer;
  shots_per_test : Z;
  targets : list (string * string)
}.

(** What changes while the program runs: the backend's call log and
    [self.results]. *)
Record World : Type := {
  calls : list Call;
  results : list (string * RunResult)
}.

Definition M (A : Type) : Type := World -> (Exception + A) * World.

Definition ret {A : Type} (a : A) : M A := fun w => (inr a, w).

Definition raise {A : Type} (e : Exception) : M A := fun w => (inl e, w).

Definition bind {A B : Type} (m : M A) (k : A -> M B) : M B :=
  fun w =>
    match m w with
    | (inr a, w') => k a w'
    | (inl e, w') => (inl e, w')
    end.

Notation "x <- m ;; k" := (bind m (fun x => k))
  (at level 61, m at next level, right associativity).
Notation "' pat <- m ;; k" := (bind m (fun x => match x with pat => k end))
  (at level 61, pat pattern, m at next level, right associativity).

(** A [for] loop whose body updates the loop-carried variables [s]. *)
Fixpoint for_each {A S : Type} (l : list A) (body : S -> A -> M S) (s : S)
  : M S :=
  match l with
  | [] => ret s
  | a :: l' => s' <- body s a ;; for_each l' body s'
  end.

(** [d[key]] and [d[key] = v] on a dict kept in insertion order. *)
Fixpoint dict_get {V : Type} (d : list (string * V)) (key : string)
  : option V :=
  match d with
  | [] => None
  | (k, v) :: d' => if String.eqb k key then Some v else dict_get d' key
  end.

Fixpoint dict_set {V : Type} (d : list (string * V)) (key : string) (v : V)
  : list (string * V) :=
  match d with
  | [] => [(key, v)]
  | (k, v') :: d' =>
      if String.eqb k key then (k, v) :: d' else (k, v') :: dict_set d' key v
  end.

(** [l[i]] *)
Definition list_get {A : Type} (l : list A) (i : nat) : M A :=
  match nth_error l i with
  | Some a => ret a
  | None => raise IndexError
  end.

(** [a / b] on Python [int]s.  CPython divides the two integers exactly
    and rounds the quotient once, to the nearest float; [SFdiv] does the
    same on the mantissas [a] and [b] with exponent 0.  A quotient too
    large for a float is not modelled. *)
Definition int_truediv (a b : Z) : M PyFloat.t :=
  if b =? 0 then raise ZeroDivisionError
  else ret (PyFloat.div (PyFloat.raw_int a) (PyFloat.raw_int b)).

(** [a / b] on floats. *)
Definition float_truediv (a b : PyFloat.t) : M PyFloat.t :=
  if PyFloat.eqb b PyFloat.zero then raise ZeroDivisionError
  else ret (PyFloat.div a b).

(** [np.prod(l)] *)
Definition np_prod (l : list PyFloat.t) : PyFloat.t :=
  fold_left PyFloat.mul l PyFloat.one.

(** ** The search stages *)

(** [self.device.run(circuit, shots=shots).result().measurements] *)
Definition device_run (self : QuantumDatabaseDemo) (circuit : Circuit.t)
  (shots : Z) : M (list Measurement) :=
  fun w =>
    (match device self (calls w) circuit shots with
     | inl class_name => inl (BackendError class_name)
     | inr measurements => inr measurements
     end,
     {| calls := calls w ++ [(circuit, shots)]; results := results w |}).

(** [''.join(str(int(bit)) for bit in measurement)] *)
Definition measured_string (measurement : Measurement) : string :=
  string_of_list_ascii
    (map (fun bit : bool => if bit then "1"%char else "0"%char) measurement).

Definition measure_success_rate (self : QuantumDatabaseDemo)
  (circuit : Circuit.t) (target : string) : M PyFloat.t :=
  measurements <- device_run self circuit (shots_per_test self) ;;
  (* Count successful finds *)
  let success_count :=
    fold_left
      (fun success_count measurement =>
         if String.eqb (measured_string measurement) target
         then success_count + 1 else success_count)
      measurements 0 in
  int_truediv success_count (Z.of_nat (length measurements)).

(** The body of the loop of [run_multi_stage_search]; the loop carries
    [stage_results] and [cumulative_depth]. *)
Definition search_stage (self : QuantumDatabaseDemo) (algorithm_type : string)
  (carried : list PyFloat.t * Z) (entry : string * string)
  : M (list PyFloat.t * Z) :=
  let '(stage_results, cumulative_depth) := carried in
  let '(name, target) := entry in
  (* Create circuit based on type *)
  let circuit :=
    if String.eqb algorithm_type "standard" then
      let iterations := if cumulative_depth <? 2 then 1 else 2 in
      create_standard_grover target iterations
    else
      create_vermicular target 1 in
  (* Measure performance *)
  success_rate <- measure_success_rate self circuit target ;;
  ret (stage_results ++ [success_rate],
       cumulative_depth + Circuit.depth circuit).

Definition store_results (algorithm_type : string) (r : RunResult) : M unit :=
  fun w =>
    (inr tt,
     {| calls := calls w; results := dict_set (results w) algorithm_type r |}).

Definition run_multi_stage_search (self : QuantumDatabaseDemo)
  (algorithm_type : string) : M (list PyFloat.t * PyFloat.t) :=
  let stage_results := [] in
  let cumulative_depth := 0 in
  '(stage_results, cumulative_depth) <-
    for_each (targets self) (search_stage self algorithm_type)
      (stage_results, cumulative_depth) ;;
  (* Calculate total success *)
  let total_success := np_prod stage_results in
  (* Store results *)
  _ <- store_results algorithm_type
         {| stages := stage_results; total := total_success |} ;;
  ret (stage_results, total_success).

(** ** The final comparison *)

(** [self.results[key]] *)
Definition get_results (key : string) : M RunResult :=
  fun w =>
    match dict_get (results w) key with
    | Some r => (inr r, w)
    | None => (inl KeyError, w)
    end.

(** [a / b if b > 0 else float('inf')] *)
Definition ratio (a b : PyFloat.t) : M PyFloat.t :=
  if PyFloat.ltb PyFloat.zero b then float_truediv a b else ret PyFloat.inf.

(** The numbers [display_final_comparison] computes and prints: the
    advantage of every stage, then the overall improvement. *)
Definition display_final_comparison (self : QuantumDatabaseDemo)
  : M (list PyFloat.t * PyFloat.t) :=
  standard <- get_results "standard" ;;
  vermicular <- get_results "vermicular" ;;
  (* Stage-by-stage comparison *)
  advantages <-
    for_each (enumerate (targets self))
      (fun advantages '(i, _) =>
         std_rate <- list_get (stages standard) i ;;
         ver_rate <- list_get (stages vermicular) i ;;
         advantage <- ratio ver_rate std_rate ;;
         ret (advantages ++ [advantage]))
      [] ;;
  (* Total comparison *)
  improvement <- ratio (total vermicular) (total standard) ;;
  ret (advantages, improvement).

(** [__init__]: the initial contents of [self.results]. *)
Definition initial_results : list (string * RunResult) :=
  [("standard", {| stages := []; total := PyFloat.zero |});
   ("vermicular", {| stages := []; total := PyFloat.zero |})].

Definition initial_world : World :=
  {| calls := []; results := initial_results |}.

(** ** Vocabulary for stating the properties of a pass *)

(** The samples whose bit-string equals the target pattern. *)
Definition matching (measurements : list Measurement) (target : string)
  : list Measurement :=
  filter (fun m => String.eqb (measured_string m) target) measurements.

(** The rate [measure_success_rate] reports for non-empty [measurements]:
    the float quotient of the two counts. *)
Definition sample_rate (measurements : list Measurement) (target : string)
  : PyFloat.t :=
  PyFloat.div
    (PyFloat.raw_int (Z.of_nat (length (matching measurements target))))
    (PyFloat.raw_int (Z.of_nat (length measurements))).

(** The backend answered with at least one sample. *)
Definition returns_samples (answer : Answer) : Prop :=
  exists (m : Measurement) (ms : list Measurement), answer = inr (m :: ms).

(** What [measure_success_rate] makes of the backend's answer: the
    exception the backend raised, a division by zero when the answer holds
    no sample, the rate of the samples otherwise. *)
Definition answer_rate (answer : Answer) (target : string)
  : Exception + PyFloat.t :=
  match answer with
  | inl class_name => inl (BackendError class_name)
  | inr [] => inl ZeroDivisionError
  | inr (m :: ms) => inr (sample_rate (m :: ms) target)
  end.

(** Summed operation count of the circuits submitted by [pass]. *)
Definition accumulated_depth (pass : list Call) : Z :=
  fold_right (fun call acc => Circuit.depth (fst call) + acc) 0 pass.

(** The computation fails in world [w] without having called the backend
    or changed anything else. *)
Definition fails_untouched {A : Type} (m : M A) (w : World) : Prop :=
  exists e : Exception, m w = (inl e, w).

(** ** The idealized, noiseless backend

    The textbook action of the three gates on the amplitudes of a register.
    A basis state is a bit mask: bit [q] of the mask is the value of qubit
    [q].  An amplitude is a complex number, kept as its real and imaginary
    parts. *)

Module Ideal.
Local Open Scope R_scope.

Definition C : Type := (R * R)%type.

Definition Cone : C := (1, 0).
Definition Czero : C := (0, 0).
Definition Cadd (a b : C) : C := (fst a + fst b, snd a + snd b).
Definition Copp (a : C) : C := (- fst a, - snd a).
Definition Cmul (a b : C) : C :=
  (fst a * fst b - snd a * snd b, fst a * snd b + snd a * fst b).
Definition Cscale (r : R) (a : C) : C := (r * fst a, r * snd a).
Definition Cnorm2 (a : C) : R := fst a * fst a + snd a * snd a.

Definition State : Type := N -> C.

Definition bit (b : N) (q : nat) : bool := N.testbit b (N.of_nat q).

Definition flip (b : N) (q : nat) : N := N.lxor b (N.shiftl 1 (N.of_nat q)).

(** The mask of the qubits a list of bit-flips toggles. *)
Fixpoint flip_mask (qs : list nat) : N :=
  match qs with
  | [] => 0%N
  | q :: qs' => N.lxor (flip_mask qs') (N.shiftl 1 (N.of_nat q))
  end.

Definition apply (g : Instruction) (psi : State) : State :=
  fun b =>
    match g with
    | Xgate q => psi (flip b q)
    | CZgate c q => if bit b c && bit b q then Copp (psi b) else psi b
    | Hgate q =>
        Cscale (/ sqrt 2)
          (if bit b q
           then Cadd (psi (flip b q)) (Copp (psi b))
           else Cadd (psi b) (psi (flip b q)))
    end.

Definition run (circuit : Circuit.t) (psi : State) : State :=
  fold_left (fun psi g => apply g psi) circuit psi.

(** All qubits in state 0. *)
Definition ket0 : State := fun b => if N.eqb b 0 then Cone else Czero.

(** Probability of measuring the basis state [b]. *)
Definition probability (psi : State) (b : N) : R := Cnorm2 (psi b).

(** The outcome of an ideal execution of [circuit] on a fresh register. *)
Definition outcome_probability (circuit : Circuit.t) (b : N) : R :=
  probability (run circuit ket0) b.

(** The basis state a bit-string stands for: character [i] is qubit [i]. *)
Fixpoint basis_from (q : nat) (bits : list ascii) : option N :=
  match bits with
  | [] => Some 0%N
  | c :: bits' =>
      match basis_from (S q) bits' with
      | None => None
      | Some b =>
          if Ascii.eqb c "1" then Some (N.setbit b (N.of_nat q))
          else if Ascii.eqb c "0" then Some b
          else None
      end
  end.

(** The success rate ideal sampling converges to: the probability that the
    measured string is [target]. *)
Definition success_probability (circuit : Circuit.t) (target : string) : R :=
  match basis_from 0 (list_ascii_of_string target) with
  | Some b => outcome_probability circuit b
  | None => 0
  end.

(** The two-qubit state with amplitudes [a0], [a1], [a2], [a3] on the basis
    states 0 to 3. *)
Definition table (a0 a1 a2 a3 : C) : State :=
  fun b =>
    match b with
    | 0%N => a0
    | 1%N => a1
    | 2%N => a2
    | 3%N => a3
    | _ => Czero
    end.

Definition Chalf (a : C) : C := Cscale (/ 2) a.

(** Two states with the same amplitudes. *)
Definition state_eq (psi phi : State) : Prop := forall b, psi b = phi b.

(** Two states that differ by a global phase. *)
Definition eq_up_to_phase (psi phi : State) : Prop :=
  exists c : C, Cnorm2 c = 1 /\ forall b, psi b = Cmul c (phi b).
End Ideal.

(** C6, as the specification states it: a stage whose target pattern has
    the wrong length, or whose shot count is not positive, fails before
    the backend is called. *)
Definition rejects_bad_configuration (self : QuantumDatabaseDemo)
  (algorithm_type : string) (carried : list PyFloat.t * Z)
  (entry : string * string) (w : World) : Prop :=
  String.length (snd entry) <> length Spec.units \/ shots_per_test self <= 0 ->
  fails_untouched (search_stage self algorithm_type carried entry) w.

(** A demo whose first target has three bits, on a backend that returns
    one sample per call. *)
Definition demo_long_pattern : QuantumDatabaseDemo :=
  {| device := fun _ _ _ => inr [[false; false; false]];
     shots_per_test := 1000;
     targets := [("Alpha", "000"); ("Beta", "11"); ("Gamma", "10")] |}.

(** A demo that requests zero shots, on a backend that raises a
    [ValueError] when asked for no shots and returns one sample per call
    otherwise. *)
Definition demo_zero_shots : QuantumDatabaseDemo :=
  {| device := fun _ _ shots =>
       if shots <=? 0 then inl "ValueError" else inr [[false; false]];
     shots_per_test := 0;
     targets := [("Alpha", "00"); ("Beta", "11"); ("Gamma", "10")] |}.

(** ** Vocabulary for stating the properties of rounding *)

(** The exponent of the binary64 value nearest below a number with [x]
    binary digits before the point. *)
Abbreviation fexp64 := (fexp PyFloat.prec PyFloat.emax).

(** Whether bits were lost: by a right shift, or at a location. *)
Definition inexact (mrs : shr_record) : bool := shr_r mrs || shr_s mrs.

Definition loc_inexact (l : location) : bool :=
  match l with loc_Exact => false | loc_Inexact _ => true end.

(** The exact product of rational numbers. *)
Definition Qprod (l : list Q) : Q := fold_right Qmult 1%Q l.

(** What the comparison reports for an Augmented value [augmented] and a
    Baseline value [baseline]: their float quotient, or the sentinel
    [float('inf')] when the Baseline value is not above zero. *)
Definition reported_ratio (augmented baseline : PyFloat.t) : PyFloat.t :=
  if PyFloat.ltb PyFloat.zero baseline
  then PyFloat.div augmented baseline
  else PyFloat.inf.

(** C4, as the specification states it: the total is the exact product of
    the stage rates. *)
Definition total_is_exact_product (stage_results : list PyFloat.t)
  (total_success : PyFloat.t) : Prop :=
  (PyFloat.to_Q total_success == Qprod (map PyFloat.to_Q stage_results))%Q.

(** C5, as the specification states it: the estimator returns exactly the
    fraction of matching samples. *)
Definition returns_exact_fraction (self : QuantumDatabaseDemo)
  (circuit : Circuit.t) (target : string) (w : World) : Prop :=
  exists (measurements : list Measurement) (rate : PyFloat.t),
    device self (calls w) circuit (shots_per_test self) = inr measurements
    /\ fst (measure_success_rate self circuit target w) = inr rate
    /\ (PyFloat.to_Q rate
        == Z.of_nat (length (matching measurements target))
           # Pos.of_nat (length measurements))%Q.

(** ** Concrete demos and values used in examples *)

(** [0.1], the float Python computes for [1 / 10]. *)
Definition tenth : PyFloat.t := S754_finite false 7205759403792794 (-56).

(** [0.6], the float Python computes for [6 / 10]. *)
Definition six_tenths : PyFloat.t :=
  S754_finite false 5404319552844595 (-53).

(** The demo of the source, on a backend that returns three samples per
    call: ["00"], ["11"] and ["10"]. *)
Definition demo_three_samples : QuantumDatabaseDemo :=
  {| device := fun _ _ _ =>
       inr [[false; false]; [true; true]; [true; false]];
     shots_per_test := 3;
     targets := [("Alpha", "00"); ("Beta", "11"); ("Gamma", "10")] |}.

(** The demo of the source, on a backend that returns ten samples per
    call, of which one is ["00"], one ["11"] and one ["10"]: every stage
    finds its target once in ten shots. *)
Definition demo_one_in_ten : QuantumDatabaseDemo :=
  {| device := fun _ _ _ =>
       inr ([[false; false]; [true; true]; [true; false]]
              ++ repeat [false; true] 7);
     shots_per_test := 10;
     targets := [("Alpha", "00"); ("Beta", "11"); ("Gamma", "10")] |}.

(** A world in which both passes have stored their results: the Baseline
    pass lost its first stage, the Augmented pass scored 0.6, 1.0, 1.0. *)
Definition world_after_both_passes : World :=
  {| calls := [];
     results :=
       [("standard",
         {| stages := [PyFloat.zero; PyFloat.one; PyFloat.one];
            total := PyFloat.zero |});
        ("vermicular",
         {| stages := [six_tenths; PyFloat.one; PyFloat.one];
            total := six_tenths |})] |}.


(** * The rest of the program

    The parts of [db_vs.py] around the passes: the bars that are printed,
    the cumulative curves of the plot, the factor that is saved, the
    platform table and the complete demo.  Of printing, plotting and file
    output only the values that are computed for them are kept. *)

(** ** Bars, cumulative curves, saved factor *)

(** A Python [str] that may hold characters beyond Latin-1: the list of its
    code points. *)
Definition UnicodeString : Type := list N.

(** The full block (U+2588) and the light shade (U+2591). *)
Definition full_block : N := 9608.
Definition light_shade : N := 9617.

(** [c * n] for a one-character string [c]: empty when [n <= 0]. *)
Definition str_repeat (c : N) (n : Z) : UnicodeString := repeat c (Z.to_nat n).

(** What [int(x)] raises on an infinity and on a NaN. *)
Inductive ConversionError : Type :=
| OverflowError
| ValueError.

(** [int(x)] on a float: truncation toward zero. *)
Definition float_to_int (a : PyFloat.t) : ConversionError + Z :=
  match a with
  | S754_zero _ => inr 0
  | S754_finite s m e =>
      let magnitude :=
        if 0 <=? e then Zpos m * 2 ^ e else Zpos m / 2 ^ (- e) in
      inr (if s then - magnitude else magnitude)
  | S754_infinity _ => inl OverflowError
  | S754_nan => inl ValueError
  end.

(** [full * filled + shade * (bar_length - filled)] with
    [filled = int(bar_length * rate)]. *)
Definition visual_bar (bar_length : Z) (rate : PyFloat.t)
  : ConversionError + UnicodeString :=
  match float_to_int (PyFloat.mul (PyFloat.of_int bar_length) rate) with
  | inl e => inl e
  | inr filled =>
      inr (str_repeat full_block filled
             ++ str_repeat light_shade (bar_length - filled))
  end.

(** The two bars [_print_visual_bars] prints. *)
Definition _print_visual_bars (standard vermicular : PyFloat.t)
  : ConversionError + UnicodeString * UnicodeString :=
  let bar_length := 40 in
  match visual_bar bar_length standard with
  | inl e => inl e
  | inr std_bar =>
      match visual_bar bar_length vermicular with
      | inl e => inl e
      | inr ver_bar => inr (std_bar, ver_bar)
      end
  end.

(** [l[-1]] *)
Definition list_last {A : Type} (l : list A) : M A :=
  list_get l (length l - 1).

(** The cumulative success series [create_comparison_plot] draws:
    [std_cumulative] and [ver_cumulative]. *)
Definition cumulative_success (std_stages ver_stages : list PyFloat.t)
  : M (list PyFloat.t * list PyFloat.t) :=
  std_first <- list_get std_stages 0 ;;
  ver_first <- list_get ver_stages 0 ;;
  let std_cumulative := [std_first] in
  let ver_cumulative := [ver_first] in
  for_each (seq 1 (length std_stages - 1))
    (fun '(std_cumulative, ver_cumulative) i =>
       std_last <- list_last std_cumulative ;;
       std_rate <- list_get std_stages i ;;
       let std_cumulative :=
         std_cumulative ++ [PyFloat.mul std_last std_rate] in
       ver_last <- list_last ver_cumulative ;;
       ver_rate <- list_get ver_stages i ;;
       let ver_cumulative :=
         ver_cumulative ++ [PyFloat.mul ver_last ver_rate] in
       ret (std_cumulative, ver_cumulative))
    (std_cumulative, ver_cumulative).

(** The series of [create_comparison_plot], read from [self.results]. *)
Definition create_comparison_plot : M (list PyFloat.t * list PyFloat.t) :=
  standard <- get_results "standard" ;;
  vermicular <- get_results "vermicular" ;;
  cumulative_success (stages standard) (stages vermicular).

(** The ['improvement_factor'] entry [save_results] writes:
    [ver / std if std > 0 else None]. *)
Definition save_results : M (option PyFloat.t) :=
  standard <- get_results "standard" ;;
  if PyFloat.ltb PyFloat.zero (total standard)
  then vermicular <- get_results "vermicular" ;;
       standard <- get_results "standard" ;;
       factor <- float_truediv (total vermicular) (total standard) ;;
       ret (Some factor)
  else ret None.

(** ** Platform selection and the complete demo *)

(** A Python number: an [int] or a [float]. *)
Inductive Number : Type :=
| PyInt (n : Z)
| PyFloatNumber (x : PyFloat.t).

(** What [setup_device] stores in [self]; [device_arn] is [None] for the
    local simulator. *)
Record DeviceSetup : Type := {
  device_arn : option string;
  device_name : string;
  cost_per_shot : Number;
  platform_shots : Z
}.

(** [0.00035] *)
Definition hardware_cost_per_shot : PyFloat.t :=
  S754_finite false 6456360425798343 (-64).

(** [setup_device]: [None] when the platform is none of the three, in
    which case no attribute is set. *)
Definition setup_device (platform : string) : option DeviceSetup :=
  if String.eqb platform "simulator" then
    Some {| device_arn := None;
            device_name := "AWS Braket Simulator";
            cost_per_shot := PyInt 0;
            platform_shots := 1000 |}
  else if String.eqb platform "iqm" then
    Some {| device_arn :=
              Some "arn:aws:braket:eu-north-1::device/qpu/iqm/Garnet";
            device_name := "IQM Garnet";
            cost_per_shot := PyFloatNumber hardware_cost_per_shot;
            platform_shots := 200 |}
  else if String.eqb platform "rigetti" then
    Some {| device_arn :=
              Some "arn:aws:braket:us-west-1::device/qpu/rigetti/Ankaa-3";
            device_name := "Rigetti Ankaa-3";
            cost_per_shot := PyFloatNumber hardware_cost_per_shot;
            platform_shots := 200 |}
  else None.

(** [__init__]: the demo object for a platform, on a backend that behaves
    as [backend].  [None] stands for the object that [setup_device] leaves
    without device and shot count, which no method can use. *)
Definition __init__ (platform : string)
  (backend : list Call -> Circuit.t -> Z -> Answer)
  : option QuantumDatabaseDemo :=
  match setup_device platform with
  | Some setup =>
      Some {| device := backend;
              shots_per_test := platform_shots setup;
              targets := [("Alpha", "00"); ("Beta", "11"); ("Gamma", "10")] |}
  | None => None
  end.

(** [platform_map.get(choice, 'simulator')] in [main]. *)
Definition choose_platform (choice : string) : string :=
  match dict_get [("1", "simulator"); ("2", "iqm"); ("3", "rigetti")] choice
  with
  | Some platform => platform
  | None => "simulator"
  end.

(** [c.lower()] on an ASCII character. *)
Definition ascii_lower (c : ascii) : ascii :=
  let n := nat_of_ascii c in
  if (65 <=? n)%nat && (n <=? 90)%nat then ascii_of_nat (n + 32) else c.

(** [s.lower()] on an ASCII string. *)
Fixpoint lower (s : string) : string :=
  match s with
  | EmptyString => EmptyString
  | String c s' => String (ascii_lower c) (lower s')
  end.

(** The visual summary that ends [display_final_comparison]: the bars of
    the two stored totals. *)
Definition visual_summary
  : M (ConversionError + UnicodeString * UnicodeString) :=
  standard <- get_results "standard" ;;
  vermicular <- get_results "vermicular" ;;
  ret (_print_visual_bars (total standard) (total vermicular)).

(** What a complete demo has computed when it returns. *)
Record DemoReport : Type := {
  comparison : list PyFloat.t * PyFloat.t;
  bars : UnicodeString * UnicodeString;
  curves : list PyFloat.t * list PyFloat.t;
  improvement_factor : option PyFloat.t
}.

(** [run_complete_demo] for [self.platform = platform]; [confirm] is what
    the user answers if asked.  [inr None] is the cancelled demo, [inl] a
    failed [int()] in the visual summary.  Drawing and writing the plot
    and the JSON file are left out. *)
Definition run_complete_demo (self : QuantumDatabaseDemo)
  (platform confirm : string) : M (ConversionError + option DemoReport) :=
  (* Cost warning for real hardware *)
  if negb (String.eqb platform "simulator")
     && negb (String.eqb (lower confirm) "yes")
  then ret (inr None)
  else
    (* Run standard Grover *)
    _ <- run_multi_stage_search self "standard" ;;
    (* Run VERMICULAR *)
    _ <- run_multi_stage_search self "vermicular" ;;
    (* Final comparison *)
    comparison <- display_final_comparison self ;;
    summary <- visual_summary ;;
    match summary with
    | inl e => ret (inl e)
    | inr bars =>
        (* Create visualization *)
        curves <- create_comparison_plot ;;
        (* Save results *)
        factor <- save_results ;;
        ret (inr (Some {| comparison := comparison;
                          bars := bars;
                          curves := curves;
                          improvement_factor := factor |}))
    end.

(** ** Vocabulary for stating the properties of the rest of the program *)

(** The circuit that stage [k] of a pass submits for [target]: the first
    Baseline stage iterates once and the later ones twice, every Augmented
    stage once. *)
Definition scheduled_circuit (algorithm_type : string) (k : nat)
  (target : string) : Circuit.t :=
  if String.eqb algorithm_type "standard"
  then create_standard_grover target (match k with O => 1 | S _ => 2 end)
  else create_vermicular target 1.

(** Whether a pattern consists of the characters ['0'] and ['1'] only. *)
Definition is_bit_string (target : string) : bool :=
  forallb (fun c => Ascii.eqb c "0" || Ascii.eqb c "1")
    (list_ascii_of_string target).

(** The running products [x, x * l[0], (x * l[0]) * l[1], ...] without
    their first entry. *)
Fixpoint running_products (x : PyFloat.t) (l : list PyFloat.t)
  : list PyFloat.t :=
  match l with
  | [] => []
  | r :: l' => PyFloat.mul x r :: running_products (PyFloat.mul x r) l'
  end.

(** The bits a measured string spells, when it is a bit-string. *)
Fixpoint bits_of_string (s : string) : option (list bool) :=
  match s with
  | EmptyString => Some []
  | String c s' =>
      match bits_of_string s' with
      | None => None
      | Some bits =>
          if Ascii.eqb c "1" then Some (true :: bits)
          else if Ascii.eqb c "0" then Some (false :: bits)
          else None
      end
  end.

(** The answers [confirm.lower() == 'yes'] accepts. *)
Definition yes_spellings : list string :=
  ["yes"; "yeS"; "yEs"; "yES"; "Yes"; "YeS"; "YEs"; "YES"].

(** A bar of [bar_length] cells: full blocks first, then light shade. *)
Definition is_bar (bar_length : Z) (bar : UnicodeString) : Prop :=
  exists filled : Z,
    0 <= filled <= bar_length
    /\ bar = str_repeat full_block filled
               ++ str_repeat light_shade (bar_length - filled).
(** * Properties of the circuit builders *)

Section CircuitFacts.

Example oracle_00 :
  _apply_oracle Circuit.empty "00"
  = [Xgate 0; Xgate 1; CZgate 0 1; Xgate 0; Xgate 1].
Proof. reflexivity. Qed.

Example oracle_10 :
  _apply_oracle Circuit.empty "10" = [Xgate 1; CZgate 0 1; Xgate 1].
Proof. reflexivity. Qed.

Example standard_depth_00 :
  Circuit.depth (create_standard_grover "00" 1) = 16.
Proof. reflexivity. Qed.

Example vermicular_depth_11_2 :
  Circuit.depth (create_vermicular "11" 2) = 34.
Proof. reflexivity. Qed.

(** *** The oracle in closed form *)

Lemma zero_positions_cons (a : ascii) (s : string) :
  Spec.zero_positions (String a s)
  = (if Ascii.eqb a "0" then [0%nat] else [])
      ++ map S (Spec.zero_positions s).
Proof.
  unfold Spec.zero_positions. cbn [String.length].
  rewrite <- cons_seq, <- seq_shift. cbn [filter].
  change (String.get 0 (String a s)) with (Some a).
  assert (E : forall l,
             filter (fun i => match String.get i (String a s) with
                              | Some bit => Ascii.eqb bit "0"
                              | None => false
                              end) (map S l)
             = map S (filter (fun i => match String.get i s with
                                       | Some bit => Ascii.eqb bit "0"
                                       | None => false
                                       end) l)).
  { induction l as [|i l IH]; [reflexivity|].
    cbn [map filter].
    change (String.get (S i) (String a s)) with (String.get i s).
    rewrite IH.
    destruct (String.get i s) as [bit|]; [destruct (Ascii.eqb bit "0")|];
      reflexivity. }
  rewrite E. destruct (Ascii.eqb a "0"); reflexivity.
Qed.

Lemma flip_loop_from (s : string) :
  forall (i : nat) (circuit : Circuit.t),
    fold_left
      (fun circuit '(i, bit) =>
         if Ascii.eqb bit "0" then circuit |> Circuit.x i else circuit)
      (enumerate_from i (list_ascii_of_string s)) circuit
    = circuit ++ map Xgate (map (Nat.add i) (Spec.zero_positions s)).
Proof.
  induction s as [|a s IH]; intros i circuit.
  - cbn. now rewrite app_nil_r.
  - cbn [list_ascii_of_string enumerate_from fold_left].
    rewrite IH, zero_positions_cons, !map_app, !map_map.
    assert (E : map (fun p => Xgate (S i + p)) (Spec.zero_positions s)
                = map (fun p => Xgate (i + S p)) (Spec.zero_positions s)).
    { apply map_ext. intros p. f_equal. lia. }
    rewrite E.
    destruct (Ascii.eqb a "0"); cbn [map app]; unfold Circuit.x.
    + rewrite Nat.add_0_r, <- app_assoc. reflexivity.
    + reflexivity.
Qed.

Lemma flip_zero_bits_app (circuit : Circuit.t) (target : string) :
  flip_zero_bits circuit target = circuit ++ Spec.bit_flips target.
Proof.
  unfold flip_zero_bits, enumerate, Spec.bit_flips.
  rewrite flip_loop_from. do 2 f_equal.
  rewrite <- (map_id (Spec.zero_positions target)) at 2.
  apply map_ext. reflexivity.
Qed.

Lemma apply_oracle_app (circuit : Circuit.t) (target : string) :
  _apply_oracle circuit target = circuit ++ Spec.oracle target.
Proof.
  unfold _apply_oracle, Spec.oracle, Circuit.cz.
  rewrite !flip_zero_bits_app, <- !app_assoc. reflexivity.
Qed.

(** *** The builders in closed form *)

Lemma grover_step (circuit : Circuit.t) (target : string) :
  _apply_oracle circuit target
    |> Circuit.h 0 |> Circuit.h 1 |> Circuit.x 0 |> Circuit.x 1
    |> Circuit.cz 0 1
    |> Circuit.x 0 |> Circuit.x 1 |> Circuit.h 0 |> Circuit.h 1
  = circuit ++ Spec.iteration target.
Proof.
  unfold Circuit.h, Circuit.x, Circuit.cz, Spec.iteration.
  rewrite apply_oracle_app, <- !app_assoc. reflexivity.
Qed.

Lemma dd_step (circuit : Circuit.t) :
  circuit |> Circuit.x 0 |> Circuit.x 0 |> Circuit.x 1 |> Circuit.x 1
  = circuit ++ Spec.pulses.
Proof. unfold Circuit.x. rewrite <- !app_assoc. reflexivity. Qed.

Lemma length_range (n : Z) : length (range n) = Z.to_nat n.
Proof. unfold range. now rewrite length_map, length_seq. Qed.

Lemma create_standard_grover_closed (target : string) (iterations : Z) :
  create_standard_grover target iterations
  = Spec.baseline target (Z.to_nat iterations).
Proof.
  unfold create_standard_grover, Spec.baseline.
  rewrite <- length_range.
  change (Circuit.empty |> Circuit.h 0 |> Circuit.h 1)
    with Spec.superposition.
  generalize Spec.superposition as circuit.
  induction (range iterations) as [|i l IH]; intros circuit.
  - cbn. now rewrite app_nil_r.
  - cbn [fold_left length repeat concat].
    rewrite grover_step, IH, <- app_assoc. reflexivity.
Qed.

Lemma vermicular_loop (target : string) (iterations : Z)
      (body : Circuit.t -> Z -> Circuit.t) :
  (forall circuit i,
      body circuit i
      = circuit ++ Spec.iteration target
          ++ (if (1 <? iterations) && (i <? iterations - 1)
              then Spec.pulses else [])) ->
  forall (len start : nat) (circuit : Circuit.t),
    (start + len)%nat = Z.to_nat iterations ->
    fold_left body (map Z.of_nat (seq start len)) circuit
    = circuit
        ++ Spec.interleave Spec.pulses (repeat (Spec.iteration target) len).
Proof.
  intros Hbody.
  induction len as [|len IH]; intros start circuit Hlen.
  - cbn. now rewrite app_nil_r.
  - cbn [seq map fold_left]. rewrite Hbody, IH by lia.
    destruct len as [|len'].
    + replace ((1 <? iterations) && (Z.of_nat start <? iterations - 1))
        with false
        by (symmetry; apply andb_false_iff; right; apply Z.ltb_ge; lia).
      cbn. now rewrite !app_nil_r.
    + replace ((1 <? iterations) && (Z.of_nat start <? iterations - 1))
        with true
        by (symmetry; apply andb_true_iff; split; apply Z.ltb_lt; lia).
      cbn [repeat Spec.interleave]. rewrite <- !app_assoc. reflexivity.
Qed.

Lemma create_vermicular_closed (target : string) (iterations : Z) :
  create_vermicular target iterations
  = Spec.augmented target (Z.to_nat iterations).
Proof.
  unfold create_vermicular, Spec.augmented, range. cbv zeta.
  rewrite dd_step.
  change (Circuit.empty |> Circuit.h 0 |> Circuit.h 1)
    with Spec.superposition.
  rewrite (vermicular_loop target iterations).
  - rewrite dd_step, <- !app_assoc. reflexivity.
  - intros circuit i. rewrite grover_step.
    destruct ((1 <? iterations) && (i <? iterations - 1)).
    + rewrite dd_step, <- app_assoc. reflexivity.
    + now rewrite app_nil_r.
  - reflexivity.
Qed.

(** *** The first and the last block of an interleaving *)

Lemma interleave_head (sep block : Circuit.t) (n : nat) :
  exists rest,
    Spec.interleave sep (repeat block (S n)) = block ++ rest.
Proof.
  destruct n as [|n].
  - exists []. cbn. now rewrite app_nil_r.
  - exists (sep ++ Spec.interleave sep (repeat block (S n))). reflexivity.
Qed.

Lemma interleave_last (sep block : Circuit.t) (n : nat) :
  exists front,
    Spec.interleave sep (repeat block (S n)) = front ++ block.
Proof.
  induction n as [|n [front IH]].
  - exists []. reflexivity.
  - exists (block ++ sep ++ front).
    change (Spec.interleave sep (repeat block (S (S n))))
      with (block ++ sep ++ Spec.interleave sep (repeat block (S n))).
    rewrite IH, <- !app_assoc. reflexivity.
Qed.

(** *** Depth of the two circuits *)

Lemma length_interleave (sep block : Circuit.t) (n : nat) :
  length (Spec.interleave sep (repeat block (S n)))
  = (S n * length block + n * length sep)%nat.
Proof.
  induction n as [|n IH].
  - cbn. lia.
  - change (repeat block (S (S n))) with (block :: repeat block (S n)).
    change (Spec.interleave sep (block :: repeat block (S n)))
      with (block ++ sep ++ Spec.interleave sep (repeat block (S n))).
    rewrite !length_app, IH. lia.
Qed.

Lemma length_concat_repeat (block : Circuit.t) (n : nat) :
  length (concat (repeat block n)) = (n * length block)%nat.
Proof.
  induction n as [|n IH]; [reflexivity|].
  cbn [repeat concat]. rewrite length_app, IH. lia.
Qed.

(** *** Deleting the decoupling pulses *)

Lemma strip_pulses_pair (q q' : nat) (rest : Circuit.t) :
  Spec.strip_pulses (Xgate q :: Xgate q' :: rest)
  = if Nat.eqb q q' then Spec.strip_pulses rest
    else Xgate q :: Spec.strip_pulses (Xgate q' :: rest).
Proof. reflexivity. Qed.

Lemma strip_pulses_single (q : nat) (g : Instruction) (rest : Circuit.t) :
  Spec.is_flip g = false ->
  Spec.strip_pulses (Xgate q :: g :: rest)
  = Xgate q :: Spec.strip_pulses (g :: rest).
Proof. destruct g; cbn; congruence. Qed.

Lemma strip_pulses_keep (g : Instruction) (rest : Circuit.t) :
  Spec.is_flip g = false ->
  Spec.strip_pulses (g :: rest) = g :: Spec.strip_pulses rest.
Proof. destruct g; cbn; congruence. Qed.

Lemma strip_pulses_app_bounded (n : nat) :
  forall (l : Circuit.t) (i : Instruction) (rest : Circuit.t),
    (length l <= n)%nat ->
    Spec.is_flip i = false ->
    Spec.strip_pulses (l ++ i :: rest)
    = Spec.strip_pulses l ++ i :: Spec.strip_pulses rest.
Proof.
  induction n as [|n IH]; intros l i rest Hlen Hi.
  - destruct l; [|cbn in Hlen; lia].
    cbn [app]. now rewrite strip_pulses_keep.
  - destruct l as [|g l]; [cbn [app]; now rewrite strip_pulses_keep|].
    cbn [length] in Hlen.
    destruct (Spec.is_flip g) eqn:Hg.
    + destruct g as [|q|]; try discriminate.
      destruct l as [|g' l'].
      * cbn [app].
        rewrite strip_pulses_single, strip_pulses_keep by assumption.
        reflexivity.
      * cbn [length] in Hlen.
        destruct (Spec.is_flip g') eqn:Hg'.
        -- destruct g' as [|q'|]; try discriminate.
           cbn [app]. rewrite !strip_pulses_pair.
           destruct (Nat.eqb q q').
           ++ apply IH; [lia | assumption].
           ++ change (Xgate q' :: l' ++ i :: rest)
                with ((Xgate q' :: l') ++ i :: rest).
              rewrite IH by (assumption || cbn [length]; lia).
              reflexivity.
        -- cbn [app]. rewrite !strip_pulses_single by assumption.
           change (g' :: l' ++ i :: rest) with ((g' :: l') ++ i :: rest).
           rewrite IH by (assumption || cbn [length]; lia).
           reflexivity.
    + cbn [app]. rewrite !strip_pulses_keep by assumption.
      rewrite IH by (assumption || lia). reflexivity.
Qed.

Lemma strip_pulses_app (l : Circuit.t) (i : Instruction) (rest : Circuit.t) :
  Spec.is_flip i = false ->
  Spec.strip_pulses (l ++ i :: rest)
  = Spec.strip_pulses l ++ i :: Spec.strip_pulses rest.
Proof. apply (strip_pulses_app_bounded (length l)). lia. Qed.

Lemma strip_pulses_distinct_flips (l : list nat) :
  NoDup l -> Spec.strip_pulses (map Xgate l) = map Xgate l.
Proof.
  induction 1 as [|a l Hnotin Hnodup IH]; [reflexivity|].
  destruct l as [|b l']; [reflexivity|].
  cbn [map Spec.strip_pulses].
  destruct (Nat.eqb_spec a b) as [->|_].
  - exfalso. apply Hnotin. now left.
  - f_equal. exact IH.
Qed.

Lemma NoDup_zero_positions (target : string) :
  NoDup (Spec.zero_positions target).
Proof. apply NoDup_filter, seq_NoDup. Qed.

Lemma strip_pulses_bit_flips (target : string) :
  Spec.strip_pulses (Spec.bit_flips target) = Spec.bit_flips target.
Proof. apply strip_pulses_distinct_flips, NoDup_zero_positions. Qed.

Lemma strip_pulses_iteration (target : string) (rest : Circuit.t) :
  Spec.strip_pulses (Spec.iteration target ++ rest)
  = Spec.iteration target ++ Spec.strip_pulses rest.
Proof.
  unfold Spec.iteration, Spec.oracle, Spec.diffusion, Spec.units.
  cbn [map]. rewrite <- !app_assoc. cbn [app].
  rewrite strip_pulses_app by reflexivity.
  rewrite strip_pulses_app by reflexivity.
  rewrite strip_pulses_bit_flips. reflexivity.
Qed.

Lemma strip_pulses_pulses (rest : Circuit.t) :
  Spec.strip_pulses (Spec.pulses ++ rest) = Spec.strip_pulses rest.
Proof. reflexivity. Qed.

Lemma strip_pulses_interleave (target : string) (n : nat) :
  Spec.strip_pulses
    (Spec.interleave Spec.pulses (repeat (Spec.iteration target) n)
       ++ Spec.pulses)
  = concat (repeat (Spec.iteration target) n).
Proof.
  destruct n as [|n]; [reflexivity|].
  induction n as [|n IH].
  - cbn [repeat Spec.interleave concat].
    rewrite strip_pulses_iteration. reflexivity.
  - change (repeat (Spec.iteration target) (S (S n)))
      with (Spec.iteration target :: repeat (Spec.iteration target) (S n)).
    change (Spec.interleave Spec.pulses
              (Spec.iteration target :: repeat (Spec.iteration target) (S n)))
      with (Spec.iteration target ++ Spec.pulses
              ++ Spec.interleave Spec.pulses
                   (repeat (Spec.iteration target) (S n))).
    rewrite <- !app_assoc, strip_pulses_iteration, strip_pulses_pulses, IH.
    reflexivity.
Qed.

Lemma strip_pulses_augmented (target : string) (n : nat) :
  Spec.strip_pulses (Spec.augmented target n) = Spec.baseline target n.
Proof.
  unfold Spec.augmented, Spec.baseline, Spec.superposition, Spec.units.
  cbn [map app Spec.strip_pulses].
  rewrite strip_pulses_pulses, strip_pulses_interleave. reflexivity.
Qed.

End CircuitFacts.

(** * Properties of the ideal gate semantics *)

Section IdealFacts.
Import Ideal.

Lemma flip_flip (b : N) (q : nat) : flip (flip b q) q = b.
Proof.
  unfold flip.
  now rewrite N.lxor_assoc, N.lxor_nilpotent, N.lxor_0_r.
Qed.

Lemma Copp_involutive (a : C) : Copp (Copp a) = a.
Proof. destruct a as [re im]. unfold Copp. cbn. f_equal; lra. Qed.

Lemma Cmul_one (a : C) : Cmul Cone a = a.
Proof. destruct a as [re im]. unfold Cmul, Cone. cbn. f_equal; lra. Qed.

Lemma state_eq_refl (psi : State) : state_eq psi psi.
Proof. intros b. reflexivity. Qed.

Lemma state_eq_trans (psi phi chi : State) :
  state_eq psi phi -> state_eq phi chi -> state_eq psi chi.
Proof. intros H1 H2 b. now rewrite H1. Qed.

Lemma state_eq_up_to_phase (psi phi : State) :
  state_eq psi phi -> eq_up_to_phase psi phi.
Proof.
  intros Heq. exists Cone. split.
  - unfold Cnorm2, Cone. cbn. lra.
  - intros b. now rewrite Cmul_one.
Qed.

Lemma apply_ext (g : Instruction) (psi phi : State) :
  state_eq psi phi -> state_eq (apply g psi) (apply g phi).
Proof.
  intros Heq b. destruct g; cbn; now rewrite ?Heq.
Qed.

Lemma run_ext (circuit : Circuit.t) :
  forall psi phi : State,
    state_eq psi phi -> state_eq (run circuit psi) (run circuit phi).
Proof.
  induction circuit as [|g circuit IH]; intros psi phi Heq.
  - exact Heq.
  - cbn. apply IH, apply_ext, Heq.
Qed.

Lemma run_app (c1 c2 : Circuit.t) (psi : State) :
  run (c1 ++ c2) psi = run c2 (run c1 psi).
Proof. apply fold_left_app. Qed.

Lemma run_cons (g : Instruction) (circuit : Circuit.t) (psi : State) :
  run (g :: circuit) psi = run circuit (apply g psi).
Proof. reflexivity. Qed.

(** A decoupling pulse leaves every amplitude where it was. *)
Lemma pulse_identity (q : nat) (psi : State) :
  state_eq (run (Spec.decoupling_pulse q) psi) psi.
Proof. intros b. cbn. now rewrite flip_flip. Qed.

Lemma run_strip_pulses_bounded (n : nat) :
  forall (circuit : Circuit.t) (psi : State),
    (length circuit <= n)%nat ->
    state_eq (run (Spec.strip_pulses circuit) psi) (run circuit psi).
Proof.
  induction n as [|n IH]; intros circuit psi Hlen.
  - destruct circuit; [apply state_eq_refl | cbn in Hlen; lia].
  - destruct circuit as [|g tl]; [apply state_eq_refl|].
    cbn [length] in Hlen.
    destruct (Spec.is_flip g) eqn:Hg.
    + destruct g as [|q|]; try discriminate.
      destruct tl as [|g' rest]; [apply state_eq_refl|].
      cbn [length] in Hlen.
      destruct (Spec.is_flip g') eqn:Hg'.
      * destruct g' as [|q'|]; try discriminate.
        rewrite strip_pulses_pair.
        destruct (Nat.eqb_spec q q') as [<-|_].
        -- apply state_eq_trans with (run rest psi); [apply IH; lia|].
           rewrite !run_cons. apply run_ext.
           intros b. cbn. now rewrite flip_flip.
        -- apply (IH (Xgate q' :: rest) (apply (Xgate q) psi)).
           cbn [length]. lia.
      * rewrite strip_pulses_single by assumption.
        apply (IH (g' :: rest) (apply (Xgate q) psi)). cbn [length]. lia.
    + rewrite strip_pulses_keep by assumption.
      apply (IH tl (apply g psi)). lia.
Qed.

Lemma run_strip_pulses (circuit : Circuit.t) (psi : State) :
  state_eq (run (Spec.strip_pulses circuit) psi) (run circuit psi).
Proof. apply (run_strip_pulses_bounded (length circuit)). lia. Qed.

Lemma run_flips (qs : list nat) :
  forall (psi : State) (b : N),
    run (map Xgate qs) psi b = psi (N.lxor b (flip_mask qs)).
Proof.
  induction qs as [|q qs IH]; intros psi b.
  - cbn. now rewrite N.lxor_0_r.
  - cbn [map flip_mask]. rewrite run_cons, IH. cbn. unfold flip.
    now rewrite N.lxor_assoc.
Qed.

Lemma flips_cancel (qs : list nat) (psi : State) :
  state_eq (run (map Xgate qs ++ map Xgate qs) psi) psi.
Proof.
  intros b. rewrite run_app, !run_flips.
  now rewrite N.lxor_assoc, N.lxor_nilpotent, N.lxor_0_r.
Qed.

Lemma cz_cancel (c q : nat) (psi : State) :
  state_eq (run [CZgate c q; CZgate c q] psi) psi.
Proof.
  intros b. cbn. destruct (bit b c && bit b q); [apply Copp_involutive|].
  reflexivity.
Qed.

(** The oracle negates the amplitudes of the marked basis states and
    leaves the others alone. *)
Lemma oracle_action (target : string) (psi : State) (b : N) :
  run (Spec.oracle target) psi b
  = let b' := N.lxor b (flip_mask (Spec.zero_positions target)) in
    if bit b' 0 && bit b' 1 then Copp (psi b) else psi b.
Proof.
  unfold Spec.oracle, Spec.bit_flips.
  rewrite !run_app, run_flips.
  change (run [CZgate 0 1] ?phi) with (apply (CZgate 0 1) phi).
  cbn [apply]. rewrite run_flips.
  rewrite N.lxor_assoc, N.lxor_nilpotent, N.lxor_0_r. reflexivity.
Qed.

Lemma oracle_twice (target : string) (psi : State) :
  state_eq (run (Spec.oracle target ++ Spec.oracle target) psi) psi.
Proof.
  intros b. rewrite run_app, !oracle_action. cbv zeta.
  destruct (bit _ 0 && bit _ 1); [apply Copp_involutive | reflexivity].
Qed.

(** Both builders lead the ideal backend to the same outcome
    distribution. *)
Lemma vermicular_same_outcome (target : string) (iterations : Z) (b : N) :
  outcome_probability (create_vermicular target iterations) b
  = outcome_probability (create_standard_grover target iterations) b.
Proof.
  unfold outcome_probability, probability.
  rewrite create_vermicular_closed, create_standard_grover_closed.
  rewrite <- strip_pulses_augmented. now rewrite run_strip_pulses.
Qed.

End IdealFacts.

(** * The ideal backend on the two-qubit register *)

Section TwoQubitFacts.
Import Ideal.
Local Open Scope R_scope.

Lemma inv_sqrt2_sqr : (/ sqrt 2 * / sqrt 2 = / 2)%R.
Proof.
  rewrite <- Rinv_mult, sqrt_sqrt by lra. reflexivity.
Qed.

Ltac by_basis b :=
  destruct b as [|[[?|?|]|[?|?|]|]]; cbn.

Lemma Cscale_zero (r : R) : Cscale r (Cadd Czero Czero) = Czero.
Proof. unfold Cscale, Cadd, Czero. cbn. f_equal; ring. Qed.

Lemma Cscale_zero_opp (r : R) : Cscale r (Cadd Czero (Copp Czero)) = Czero.
Proof. unfold Cscale, Cadd, Copp, Czero. cbn. f_equal; ring. Qed.

Lemma ket0_table : state_eq ket0 (table Cone Czero Czero Czero).
Proof. intros b. by_basis b; reflexivity. Qed.

Lemma x0_table (a0 a1 a2 a3 : C) :
  state_eq (apply (Xgate 0) (table a0 a1 a2 a3)) (table a1 a0 a3 a2).
Proof. intros b. by_basis b; reflexivity. Qed.

Lemma x1_table (a0 a1 a2 a3 : C) :
  state_eq (apply (Xgate 1) (table a0 a1 a2 a3)) (table a2 a3 a0 a1).
Proof. intros b. by_basis b; reflexivity. Qed.

Lemma cz_table (a0 a1 a2 a3 : C) :
  state_eq (apply (CZgate 0 1) (table a0 a1 a2 a3))
    (table a0 a1 a2 (Copp a3)).
Proof.
  intros b. by_basis b; try reflexivity.
  unfold Copp, Czero. cbn. f_equal; ring.
Qed.

Lemma h0_table (a0 a1 a2 a3 : C) :
  state_eq (apply (Hgate 0) (table a0 a1 a2 a3))
    (table (Cscale (/ sqrt 2) (Cadd a0 a1))
           (Cscale (/ sqrt 2) (Cadd a0 (Copp a1)))
           (Cscale (/ sqrt 2) (Cadd a2 a3))
           (Cscale (/ sqrt 2) (Cadd a2 (Copp a3)))).
Proof.
  intros b. by_basis b;
    try reflexivity; try apply Cscale_zero; try apply Cscale_zero_opp.
Qed.
Lemma h1_table (a0 a1 a2 a3 : C) :
  state_eq (apply (Hgate 1) (table a0 a1 a2 a3))
    (table (Cscale (/ sqrt 2) (Cadd a0 a2))
           (Cscale (/ sqrt 2) (Cadd a1 a3))
           (Cscale (/ sqrt 2) (Cadd a0 (Copp a2)))
           (Cscale (/ sqrt 2) (Cadd a1 (Copp a3)))).
Proof.
  intros b. by_basis b;
    try reflexivity; try apply Cscale_zero; try apply Cscale_zero_opp.
Qed.

Lemma table_ext (a0 a1 a2 a3 b0 b1 b2 b3 : C) :
  a0 = b0 -> a1 = b1 -> a2 = b2 -> a3 = b3 ->
  state_eq (table a0 a1 a2 a3) (table b0 b1 b2 b3).
Proof. intros -> -> -> -> b. reflexivity. Qed.

Ltac by_parts :=
  unfold Chalf, Cscale, Cadd, Copp; cbn [fst snd];
  rewrite <- inv_sqrt2_sqr; f_equal; ring.

(** State-mix on both units. *)
Lemma hh_table (a0 a1 a2 a3 : C) :
  state_eq (apply (Hgate 1) (apply (Hgate 0) (table a0 a1 a2 a3)))
    (table (Chalf (Cadd (Cadd a0 a1) (Cadd a2 a3)))
           (Chalf (Cadd (Cadd a0 (Copp a1)) (Cadd a2 (Copp a3))))
           (Chalf (Cadd (Cadd a0 a1) (Copp (Cadd a2 a3))))
           (Chalf (Cadd (Cadd a0 (Copp a1)) (Copp (Cadd a2 (Copp a3)))))).
Proof.
  eapply state_eq_trans; [apply apply_ext, h0_table|].
  eapply state_eq_trans; [apply h1_table|].
  destruct a0, a1, a2, a3. apply table_ext; by_parts.
Qed.

Lemma run_from (circuit : Circuit.t) (psi phi chi : State) :
  state_eq psi phi ->
  state_eq (run circuit phi) chi ->
  state_eq (run circuit psi) chi.
Proof.
  intros H1 H2. eapply state_eq_trans; [apply run_ext, H1 | exact H2].
Qed.

Lemma run_gate (g : Instruction) (rest : Circuit.t) (psi phi chi : State) :
  state_eq (apply g psi) phi ->
  state_eq (run rest phi) chi ->
  state_eq (run (g :: rest) psi) chi.
Proof. intros H1 H2. exact (run_from rest _ _ _ H1 H2). Qed.

Lemma run_gates (g1 g2 : Instruction) (rest : Circuit.t)
      (psi phi chi : State) :
  state_eq (apply g2 (apply g1 psi)) phi ->
  state_eq (run rest phi) chi ->
  state_eq (run (g1 :: g2 :: rest) psi) chi.
Proof. intros H1 H2. exact (run_from rest _ _ _ H1 H2). Qed.

Ltac constant_amplitudes :=
  apply table_ext;
  unfold Chalf, Cscale, Cadd, Copp, Cone, Czero; cbn [fst snd];
  f_equal; field.

Ltac gate_step :=
  first [ eapply run_gates; [apply hh_table|]
        | eapply run_gate;
          [first [apply cz_table | apply x0_table | apply x1_table]|] ].

Ltac run_on_table :=
  eapply run_from; [apply ket0_table|];
  repeat gate_step;
  constant_amplitudes.

Lemma grover_00_state :
  state_eq (run (create_standard_grover "00" 1) ket0)
    (table (Copp Cone) Czero Czero Czero).
Proof.
  change (create_standard_grover "00" 1) with
    [Hgate 0; Hgate 1;
     Xgate 0; Xgate 1; CZgate 0 1; Xgate 0; Xgate 1;
     Hgate 0; Hgate 1; Xgate 0; Xgate 1; CZgate 0 1; Xgate 0; Xgate 1;
     Hgate 0; Hgate 1].
  run_on_table.
Qed.

Lemma grover_11_state :
  state_eq (run (create_standard_grover "11" 1) ket0)
    (table Czero Czero Czero (Copp Cone)).
Proof.
  change (create_standard_grover "11" 1) with
    [Hgate 0; Hgate 1;
     CZgate 0 1;
     Hgate 0; Hgate 1; Xgate 0; Xgate 1; CZgate 0 1; Xgate 0; Xgate 1;
     Hgate 0; Hgate 1].
  run_on_table.
Qed.

Lemma grover_10_state :
  state_eq (run (create_standard_grover "10" 1) ket0)
    (table Czero (Copp Cone) Czero Czero).
Proof.
  change (create_standard_grover "10" 1) with
    [Hgate 0; Hgate 1;
     Xgate 1; CZgate 0 1; Xgate 1;
     Hgate 0; Hgate 1; Xgate 0; Xgate 1; CZgate 0 1; Xgate 0; Xgate 1;
     Hgate 0; Hgate 1].
  run_on_table.
Qed.

(** On the ideal backend one Grover iteration finds each target of the
    catalog with certainty, with either strategy. *)
Lemma ideal_search_finds_target (name target : string) :
  In (name, target) [("Alpha", "00"); ("Beta", "11"); ("Gamma", "10")] ->
  success_probability (create_standard_grover target 1) target = 1
  /\ success_probability (create_vermicular target 1) target = 1.
Proof.
  intros Hin.
  assert (Hstandard :
            success_probability (create_standard_grover target 1) target
            = 1).
  { cbn [In] in Hin.
    destruct Hin as [[= <- <-]|[[= <- <-]|[[= <- <-]|[]]]];
      unfold success_probability, outcome_probability, probability;
      cbn [list_ascii_of_string basis_from Ascii.eqb Bool.eqb];
      [rewrite grover_00_state | rewrite grover_11_state
       | rewrite grover_10_state];
      unfold table, Cnorm2, Copp, Cone; cbn; ring. }
  split; [exact Hstandard|].
  rewrite <- Hstandard. unfold success_probability.
  destruct (basis_from 0 (list_ascii_of_string target));
    [apply vermicular_same_outcome | reflexivity].
Qed.

End TwoQubitFacts.
(** * Properties of a pass over the catalog *)

Section PassFacts.
Variable self : QuantumDatabaseDemo.
Variable algorithm_type : string.

Lemma count_loop (target : string) (measurements : list Measurement) :
  forall count : Z,
    fold_left
      (fun success_count measurement =>
         if String.eqb (measured_string measurement) target
         then success_count + 1 else success_count)
      measurements count
    = count + Z.of_nat (length (matching measurements target)).
Proof.
  induction measurements as [|m ms IH]; intros count.
  - cbn. lia.
  - cbn [fold_left matching filter]. rewrite IH. fold (matching ms target).
    destruct (String.eqb (measured_string m) target); cbn [length]; lia.
Qed.

Lemma measure_success_rate_run (circuit : Circuit.t) (target : string)
      (w : World) :
  measure_success_rate self circuit target w
  = (answer_rate (device self (calls w) circuit (shots_per_test self))
       target,
     {| calls := calls w ++ [(circuit, shots_per_test self)];
        results := results w |}).
Proof.
  unfold measure_success_rate, bind, device_run, int_truediv, answer_rate,
    sample_rate.
  destruct (device self (calls w) circuit (shots_per_test self))
    as [class_name|[|m ms]]; [reflexivity | reflexivity |].
  rewrite count_loop. cbn [Z.add].
  replace (Z.of_nat (length (m :: ms)) =? 0) with false
    by (symmetry; apply Z.eqb_neq; cbn [length]; lia).
  reflexivity.
Qed.

Lemma search_stage_run (carried : list PyFloat.t * Z)
      (name target : string) (w : World) :
  let circuit := Spec.stage_circuit algorithm_type target (snd carried) in
  search_stage self algorithm_type carried (name, target) w
  = (match answer_rate
             (device self (calls w) circuit (shots_per_test self)) target
     with
     | inl e => inl e
     | inr success_rate =>
         inr (fst carried ++ [success_rate],
              snd carried + Circuit.depth circuit)
     end,
     {| calls := calls w ++ [(circuit, shots_per_test self)];
        results := results w |}).
Proof.
  destruct carried as [stage_results cumulative_depth].
  cbv zeta. cbn [fst snd].
  unfold search_stage, Spec.stage_circuit.
  set (circuit := if String.eqb algorithm_type "standard" then _ else _).
  unfold bind. rewrite measure_success_rate_run.
  destruct (answer_rate _ target); reflexivity.
Qed.

Lemma for_each_cons {A S : Type} (a : A) (l : list A) (body : S -> A -> M S)
      (s : S) (w : World) :
  for_each (a :: l) body s w
  = match body s a w with
    | (inr s', w') => for_each l body s' w'
    | (inl e, w') => (inl e, w')
    end.
Proof. reflexivity. Qed.

Lemma for_each_search_stage (catalog : list (string * string)) :
  forall (carried : list PyFloat.t * Z) (w : World),
  exists pass : list Call,
    calls (snd (for_each catalog (search_stage self algorithm_type)
                  carried w))
    = calls w ++ pass
    /\ results (snd (for_each catalog (search_stage self algorithm_type)
                       carried w))
       = results w
    /\ forall (k : nat) (circuit : Circuit.t) (shots : Z),
        nth_error pass k = Some (circuit, shots) ->
        exists name target,
          nth_error catalog k = Some (name, target)
          /\ shots = shots_per_test self
          /\ circuit
             = Spec.stage_circuit algorithm_type target
                 (snd carried + accumulated_depth (firstn k pass)).
Proof.
  induction catalog as [|[name target] catalog IH]; intros carried w.
  - exists []. cbn. rewrite app_nil_r. repeat split.
    intros [|k] ? ? Hk; discriminate.
  - rewrite for_each_cons, search_stage_run. cbv zeta.
    set (circuit := Spec.stage_circuit algorithm_type target (snd carried)).
    set (w1 := {| calls := calls w ++ [(circuit, shots_per_test self)];
                  results := results w |}).
    assert (Hfirst :
              forall (k : nat) (c : Circuit.t) (shots : Z)
                     (rest : list Call),
                nth_error ((circuit, shots_per_test self) :: rest) k
                = Some (c, shots) ->
                k = 0%nat ->
                exists name0 target0,
                  nth_error ((name, target) :: catalog) k
                  = Some (name0, target0)
                  /\ shots = shots_per_test self
                  /\ c = Spec.stage_circuit algorithm_type target0
                           (snd carried
                            + accumulated_depth
                                (firstn k
                                   ((circuit, shots_per_test self) :: rest)))).
    { intros k c shots rest Hk ->. cbn in Hk. inversion Hk; subst.
      exists name, target. cbn. rewrite Z.add_0_r. repeat split. }
    assert (Hstop :
              exists pass : list Call,
                calls w1 = calls w ++ pass
                /\ results w1 = results w
                /\ forall (k : nat) (c : Circuit.t) (shots : Z),
                    nth_error pass k = Some (c, shots) ->
                    exists name0 target0,
                      nth_error ((name, target) :: catalog) k
                      = Some (name0, target0)
                      /\ shots = shots_per_test self
                      /\ c = Spec.stage_circuit algorithm_type target0
                               (snd carried
                                + accumulated_depth (firstn k pass))).
    { exists [(circuit, shots_per_test self)]. repeat split.
      intros [|[|k]] c shots Hk; try discriminate.
      now apply (Hfirst 0%nat c shots []). }
    destruct (answer_rate
                (device self (calls w) circuit (shots_per_test self))
                target) as [e|success_rate]; [exact Hstop|].
    destruct (IH (fst carried ++ [success_rate],
                  snd carried + Circuit.depth circuit) w1)
      as (pass & Hcalls & Hresults & Hpass).
    exists ((circuit, shots_per_test self) :: pass). repeat split.
    + rewrite Hcalls. subst w1. cbn [calls].
      rewrite <- app_assoc. reflexivity.
    + rewrite Hresults. reflexivity.
    + intros [|k] c shots Hk; [now apply (Hfirst 0%nat c shots pass)|].
      cbn [nth_error] in Hk.
      destruct (Hpass k c shots Hk) as (name0 & target0 & Hnth & Hs & Hc).
      exists name0, target0. repeat split; [exact Hnth | exact Hs |].
      rewrite Hc. cbn [snd firstn accumulated_depth fold_right fst].
      f_equal. unfold accumulated_depth. lia.
Qed.

End PassFacts.

Lemma for_each_search_stage_length (self : QuantumDatabaseDemo)
      (algorithm_type : string) (catalog : list (string * string)) :
  forall (carried : list PyFloat.t * Z) (w : World)
         (final : list PyFloat.t * Z),
    fst (for_each catalog (search_stage self algorithm_type) carried w)
    = inr final ->
    length (calls (snd (for_each catalog (search_stage self algorithm_type)
                          carried w)))
    = (length (calls w) + length catalog)%nat
    /\ length (fst final) = (length (fst carried) + length catalog)%nat.
Proof.
  induction catalog as [|[name target] catalog IH]; intros carried w final.
  - cbn. intros [= <-]. lia.
  - rewrite for_each_cons, search_stage_run. cbv zeta.
    destruct (answer_rate _ target) as [e|success_rate]; [discriminate|].
    intros Hfinal. destruct (IH _ _ _ Hfinal) as [Hcalls Hstages].
    rewrite Hcalls, Hstages. cbn [calls fst length].
    rewrite !length_app. cbn [length]. lia.
Qed.

(** How far a pass gets: its first stage always calls the backend, a
    stage whose call returned samples is followed by the next stage, and a
    pass fails exactly at a call that raised or returned no sample. *)
Lemma for_each_search_stage_progress (self : QuantumDatabaseDemo)
      (algorithm_type : string) (catalog : list (string * string)) :
  forall (carried : list PyFloat.t * Z) (w : World) (pass : list Call),
    calls (snd (for_each catalog (search_stage self algorithm_type)
                  carried w))
    = calls w ++ pass ->
    (catalog <> [] -> pass <> [])
    /\ (forall (k : nat) (circuit : Circuit.t) (shots : Z),
           nth_error pass k = Some (circuit, shots) ->
           returns_samples
             (device self (calls w ++ firstn k pass) circuit shots) ->
           (S k < length catalog)%nat ->
           nth_error pass (S k) <> None)
    /\ (forall e : Exception,
           fst (for_each catalog (search_stage self algorithm_type)
                  carried w) = inl e ->
           exists (k : nat) (circuit : Circuit.t) (name target : string),
             nth_error pass k = Some (circuit, shots_per_test self)
             /\ length pass = S k
             /\ nth_error catalog k = Some (name, target)
             /\ answer_rate
                  (device self (calls w ++ firstn k pass) circuit
                     (shots_per_test self)) target
                = inl e)
    /\ (forall (k : nat) (circuit : Circuit.t) (shots : Z)
               (name target : string) (e : Exception),
           nth_error pass k = Some (circuit, shots) ->
           nth_error catalog k = Some (name, target) ->
           answer_rate
             (device self (calls w ++ firstn k pass) circuit shots) target
           = inl e ->
           fst (for_each catalog (search_stage self algorithm_type)
                  carried w) = inl e
           /\ length pass = S k).
Proof.
  induction catalog as [|[name target] catalog IH]; intros carried w pass.
  - cbn [for_each ret snd fst]. intros Hcalls.
    assert (Hnil : pass = []).
    { apply (app_inv_head (calls w)). now rewrite app_nil_r. }
    subst pass. split; [congruence|]. split; [|split].
    + intros k circuit shots Hk. now destruct k.
    + intros e. discriminate.
    + intros k circuit shots name target e Hk. now destruct k.
  - rewrite for_each_cons, search_stage_run. cbv zeta.
    set (circuit := Spec.stage_circuit algorithm_type target (snd carried)).
    set (w1 := {| calls := calls w ++ [(circuit, shots_per_test self)];
                  results := results w |}).
    destruct (answer_rate
                (device self (calls w) circuit (shots_per_test self))
                target) as [e|success_rate] eqn:Hanswer.
    + cbn [snd fst]. subst w1. cbn [calls]. intros Hcalls.
      apply app_inv_head in Hcalls. subst pass.
      split; [discriminate|]. split; [|split].
      * intros [|k] c shots Hk Hreturns Hlt.
        -- exfalso. cbn in Hk. injection Hk as <- <-.
           cbn [firstn] in Hreturns. rewrite app_nil_r in Hreturns.
           destruct Hreturns as (m & ms & Hdevice).
           rewrite Hdevice in Hanswer. discriminate Hanswer.
        -- now destruct k.
      * intros e' [= <-]. exists 0%nat, circuit, name, target.
        cbn [nth_error firstn length]. rewrite app_nil_r.
        now repeat split.
      * intros [|k] c shots name0 target0 e' Hk Hnth; [|now destruct k].
        cbn in Hk, Hnth. injection Hk as <- <-. injection Hnth as <- <-.
        cbn [firstn]. rewrite app_nil_r, Hanswer. intros [= <-].
        now split.
    + intros Hcalls.
      destruct (for_each_search_stage self algorithm_type catalog
                  (fst carried ++ [success_rate],
                   snd carried + Circuit.depth circuit) w1)
        as (rest & Hrest & _).
      assert (Hpass : pass = (circuit, shots_per_test self) :: rest).
      { apply (app_inv_head (calls w)). rewrite <- Hcalls, Hrest.
        subst w1. cbn [calls]. now rewrite <- app_assoc. }
      subst pass.
      destruct (IH _ _ _ Hrest) as (Hfirst & Hnext & Hfail & Hstop).
      assert (Hhistory :
                forall k : nat,
                  calls w ++ firstn (S k) ((circuit, shots_per_test self)
                                           :: rest)
                  = calls w1 ++ firstn k rest).
      { intros k. subst w1. cbn [calls firstn].
        now rewrite <- app_assoc. }
      split; [discriminate|]. split; [|split].
      * intros [|k] c shots Hk Hreturns Hlt.
        -- cbn [nth_error]. cbn [length] in Hlt.
           destruct rest as [|call rest]; [|discriminate].
           exfalso. apply Hfirst; [|reflexivity].
           intros ->. cbn [length] in Hlt. lia.
        -- cbn [nth_error] in Hk |- *. rewrite Hhistory in Hreturns.
           apply (Hnext k c shots Hk Hreturns).
           cbn [length] in Hlt. lia.
      * intros e He. destruct (Hfail e He)
          as (k & c & name0 & target0 & Hk & Hlen & Hnth & Hrate).
        exists (S k), c, name0, target0. rewrite Hhistory.
        cbn [nth_error length]. repeat split; try assumption.
        now rewrite Hlen.
      * intros [|k] c shots name0 target0 e Hk Hnth Hrate.
        -- exfalso. cbn in Hk, Hnth.
           injection Hk as <- <-. injection Hnth as <- <-.
           cbn [firstn] in Hrate. rewrite app_nil_r in Hrate.
           rewrite Hanswer in Hrate. discriminate Hrate.
        -- cbn [nth_error] in Hk, Hnth. rewrite Hhistory in Hrate.
           destruct (Hstop k c shots name0 target0 e Hk Hnth Hrate)
             as [He Hlen].
           split; [exact He|]. cbn [length]. now rewrite Hlen.
Qed.
(** * Properties of binary64 rounding *)

Section FloatFacts.

(** *** Number of binary digits *)

Lemma digits2_pos_bounds (p : positive) :
  2 ^ (Zpos (digits2_pos p) - 1) <= Zpos p < 2 ^ Zpos (digits2_pos p).
Proof.
  induction p as [p IH|p IH|]; cbn [digits2_pos].
  - rewrite Pos2Z.inj_succ.
    replace (Z.succ (Zpos (digits2_pos p)) - 1)
      with (Z.succ (Zpos (digits2_pos p) - 1)) by lia.
    rewrite !Z.pow_succ_r by lia. lia.
  - rewrite Pos2Z.inj_succ.
    replace (Z.succ (Zpos (digits2_pos p)) - 1)
      with (Z.succ (Zpos (digits2_pos p) - 1)) by lia.
    rewrite !Z.pow_succ_r by lia. lia.
  - cbn. lia.
Qed.

Lemma Zdigits2_nonneg (m : Z) : 0 <= Zdigits2 m.
Proof. destruct m; cbn; lia. Qed.

Lemma Zdigits2_bounds (m : Z) :
  0 < m -> 2 ^ (Zdigits2 m - 1) <= m < 2 ^ Zdigits2 m.
Proof.
  destruct m as [|p|p]; try lia. intros _. apply digits2_pos_bounds.
Qed.

Lemma Zdigits2_le (m j : Z) : 0 <= j -> 0 <= m < 2 ^ j -> Zdigits2 m <= j.
Proof.
  intros Hj [Hm Hlt].
  destruct (Z.eq_dec m 0) as [->|Hnz]; [exact Hj|].
  destruct (Zdigits2_bounds m ltac:(lia)) as [Hlo _].
  destruct (Z.le_gt_cases (Zdigits2 m) j) as [Hle|Hgt]; [exact Hle|].
  exfalso.
  assert (2 ^ j <= 2 ^ (Zdigits2 m - 1)) by (apply Z.pow_le_mono_r; lia).
  lia.
Qed.

Lemma Zdigits2_ge (m j : Z) : 0 <= j -> 2 ^ j <= m -> j + 1 <= Zdigits2 m.
Proof.
  intros Hj Hle.
  assert (Hpos : 0 < 2 ^ j) by (apply Z.pow_pos_nonneg; lia).
  destruct (Zdigits2_bounds m ltac:(lia)) as [_ Hhi].
  destruct (Z.le_gt_cases (j + 1) (Zdigits2 m)) as [H|Hgt]; [exact H|].
  exfalso.
  assert (2 ^ Zdigits2 m <= 2 ^ j)
    by (apply Z.pow_le_mono_r; pose proof (Zdigits2_nonneg m); lia).
  lia.
Qed.

Lemma Zdigits2_mono (m n : Z) : 0 <= m <= n -> Zdigits2 m <= Zdigits2 n.
Proof.
  intros [Hm Hmn].
  destruct (Z.eq_dec n 0) as [->|Hnz].
  - replace m with 0 by lia. lia.
  - apply Zdigits2_le; [apply Zdigits2_nonneg|].
    destruct (Zdigits2_bounds n ltac:(lia)). lia.
Qed.

Lemma Zdigits2_shift (m k : Z) :
  0 < m -> 0 <= k -> k < Zdigits2 m ->
  Zdigits2 (m / 2 ^ k) = Zdigits2 m - k.
Proof.
  intros Hm Hk Hlt.
  destruct (Zdigits2_bounds m Hm) as [Hlo Hhi].
  assert (Hpk : 0 < 2 ^ k) by (apply Z.pow_pos_nonneg; lia).
  assert (Hlo' : 2 ^ (Zdigits2 m - k - 1) <= m / 2 ^ k).
  { apply Z.div_le_lower_bound; [exact Hpk|].
    rewrite <- Z.pow_add_r by lia.
    replace (k + (Zdigits2 m - k - 1)) with (Zdigits2 m - 1) by lia.
    exact Hlo. }
  assert (Hhi' : m / 2 ^ k < 2 ^ (Zdigits2 m - k)).
  { apply Z.div_lt_upper_bound; [exact Hpk|].
    rewrite <- Z.pow_add_r by lia.
    replace (k + (Zdigits2 m - k)) with (Zdigits2 m) by lia.
    exact Hhi. }
  apply Z.le_antisymm.
  - apply Zdigits2_le; [lia|]. split; [|exact Hhi'].
    apply Z.div_pos; lia.
  - pose proof (Zdigits2_ge (m / 2 ^ k) (Zdigits2 m - k - 1)
                  ltac:(lia) Hlo'). lia.
Qed.

Lemma Zdigits2_shift_zero (m k : Z) :
  0 <= m -> 0 <= k -> Zdigits2 m <= k -> m / 2 ^ k = 0.
Proof.
  intros Hm Hk Hle.
  destruct (Z.eq_dec m 0) as [->|Hnz]; [apply Z.div_0_l; 
    pose proof (Z.pow_pos_nonneg 2 k); lia|].
  destruct (Zdigits2_bounds m ltac:(lia)) as [_ Hhi].
  apply Z.div_small. split; [lia|].
  assert (2 ^ Zdigits2 m <= 2 ^ k)
    by (apply Z.pow_le_mono_r; pose proof (Zdigits2_nonneg m); lia).
  lia.
Qed.

(** *** Shifting a mantissa right *)

Lemma loc_of_shr_record_inexact (mrs : shr_record) :
  loc_inexact (loc_of_shr_record mrs) = inexact mrs.
Proof. destruct mrs as [m [|] [|]]; reflexivity. Qed.

Lemma shr_record_of_loc_spec (m : Z) (l : location) :
  shr_m (shr_record_of_loc m l) = m
  /\ inexact (shr_record_of_loc m l) = loc_inexact l.
Proof. destruct l as [|[| |]]; split; reflexivity. Qed.

Lemma shr_1_spec (mrs : shr_record) :
  0 <= shr_m mrs ->
  shr_m (shr_1 mrs) = shr_m mrs / 2
  /\ inexact (shr_1 mrs) = Z.odd (shr_m mrs) || inexact mrs.
Proof.
  destruct mrs as [m r s]. unfold inexact. cbn [shr_m shr_r shr_s].
  intros Hm. rewrite <- Z.div2_div.
  destruct m as [|[p|p|]|]; try lia; cbn; split; try reflexivity;
    destruct r, s; reflexivity.
Qed.

Lemma iter_pos_nat {A : Type} (f : A -> A) (p : positive) :
  forall a : A, SpecFloat.iter_pos f p a = Nat.iter (Pos.to_nat p) f a.
Proof.
  induction p as [p IH|p IH|]; intros a; cbn [SpecFloat.iter_pos].
  - rewrite !IH, Pos2Nat.inj_xI.
    replace (S (2 * Pos.to_nat p)) with (Pos.to_nat p + S (Pos.to_nat p))%nat
      by lia.
    rewrite Nat.iter_add, Nat.iter_succ_r. reflexivity.
  - rewrite !IH, Pos2Nat.inj_xO.
    replace (2 * Pos.to_nat p)%nat with (Pos.to_nat p + Pos.to_nat p)%nat
      by lia.
    now rewrite Nat.iter_add.
  - reflexivity.
Qed.

Lemma shr_iter_spec (k : nat) (mrs : shr_record) :
  0 <= shr_m mrs ->
  shr_m (Nat.iter k shr_1 mrs) = shr_m mrs / 2 ^ Z.of_nat k
  /\ (inexact (Nat.iter k shr_1 mrs) = false
      <-> inexact mrs = false /\ shr_m mrs mod 2 ^ Z.of_nat k = 0).
Proof.
  intros Hm. induction k as [|k [IHm IHi]].
  - cbn. rewrite Z.div_1_r, Z.mod_1_r.
    tauto.
  - rewrite Nat.iter_succ.
    assert (Hpk : 0 < 2 ^ Z.of_nat k) by (apply Z.pow_pos_nonneg; lia).
    assert (Hnonneg : 0 <= shr_m (Nat.iter k shr_1 mrs)).
    { rewrite IHm. apply Z.div_pos; lia. }
    destruct (shr_1_spec _ Hnonneg) as [Hm1 Hi1].
    rewrite Nat2Z.inj_succ, Z.pow_succ_r by lia.
    split.
    + rewrite Hm1, IHm, Z.div_div by lia.
      f_equal. lia.
    + rewrite Hi1, orb_false_iff, IHi, IHm.
      rewrite (Z.mul_comm 2), Z.rem_mul_r by lia.
      rewrite <- Z.negb_even, negb_false_iff, Zmod_even.
      pose proof (Z.mod_pos_bound (shr_m mrs) (2 ^ Z.of_nat k) Hpk).
      destruct (Z.even (shr_m mrs / 2 ^ Z.of_nat k)).
      * split; [intros (_ & Hin & Hmod) | intros (Hin & Hmod)];
          repeat split; trivial; lia.
      * split; [intros (Habs & _); discriminate | intros (_ & Hsum); nia].
Qed.

Lemma shr_spec (mrs : shr_record) (e k : Z) :
  0 <= shr_m mrs -> 0 <= k ->
  snd (shr mrs e k) = e + k
  /\ shr_m (fst (shr mrs e k)) = shr_m mrs / 2 ^ k
  /\ (inexact (fst (shr mrs e k)) = false
      <-> inexact mrs = false /\ shr_m mrs mod 2 ^ k = 0).
Proof.
  intros Hm Hk. destruct k as [|p|p]; try lia.
  - cbn [shr fst snd]. rewrite Z.pow_0_r, Z.div_1_r, Z.mod_1_r, Z.add_0_r.
    tauto.
  - cbn [shr fst snd]. rewrite iter_pos_nat.
    destruct (shr_iter_spec (Pos.to_nat p) mrs Hm) as [H1 H2].
    rewrite positive_nat_Z in H1, H2. tauto.
Qed.

(** *** One normalisation step below a representable bound *)

Lemma fexp64_eq (x : Z) : fexp64 x = Z.max (x - 53) (-1074).
Proof. reflexivity. Qed.

Lemma shr_fexp_step (m e mb eb : Z) (l : location) :
  0 <= m ->
  e <= fexp64 (Zdigits2 m + e) ->
  0 < mb ->
  fexp64 (Zdigits2 mb + eb) = eb ->
  e <= eb ->
  m + (if loc_inexact l then 1 else 0) <= mb * 2 ^ (eb - e) ->
  let mrs := fst (shr_fexp PyFloat.prec PyFloat.emax m e l) in
  let e' := snd (shr_fexp PyFloat.prec PyFloat.emax m e l) in
  0 <= shr_m mrs
  /\ e <= e' <= eb
  /\ fexp64 (Zdigits2 (shr_m mrs) + e') = e'
  /\ shr_m mrs + (if inexact mrs then 1 else 0) <= mb * 2 ^ (eb - e').
Proof.
  intros Hm Hpre Hmb Hcanon Hle Hbound. cbv zeta. unfold shr_fexp.
  set (k := fexp64 (Zdigits2 m + e) - e).
  assert (Hk : 0 <= k) by (unfold k; lia).
  destruct (shr_record_of_loc_spec m l) as [Hm0 Hi0].
  destruct (shr_spec (shr_record_of_loc m l) e k) as (He' & Hm1 & Hi1);
    [lia | exact Hk |].
  rewrite Hm0 in Hm1. rewrite Hm0, Hi0 in Hi1.
  rewrite He', Hm1.
  assert (Hpk : 0 < 2 ^ k) by (apply Z.pow_pos_nonneg; lia).
  assert (He'eb : e + k <= eb).
  { destruct (Z.eq_dec m 0) as [->|Hnz].
    - unfold k in *. cbn [Zdigits2] in *. rewrite !fexp64_eq in *. lia.
    - destruct (Zdigits2_bounds mb Hmb) as [_ Hhi].
      assert (Hpe : 0 < 2 ^ (eb - e)) by (apply Z.pow_pos_nonneg; lia).
      assert (Hlt : m < 2 ^ (Zdigits2 mb + (eb - e))).
      { rewrite Z.pow_add_r by (pose proof (Zdigits2_nonneg mb); lia).
        destruct (loc_inexact l); nia. }
      pose proof (Zdigits2_le m (Zdigits2 mb + (eb - e))
                    ltac:(pose proof (Zdigits2_nonneg mb); lia)
                    ltac:(lia)).
      unfold k. rewrite !fexp64_eq in *. lia. }
  split; [apply Z.div_pos; lia|].
  split; [lia|].
  split.
  - destruct (Z.lt_ge_cases k (Zdigits2 m)) as [Hlt|Hge].
    + rewrite Zdigits2_shift by (try lia;
        destruct m; cbn in Hlt; lia).
      unfold k. rewrite !fexp64_eq in *. lia.
    + rewrite Zdigits2_shift_zero by lia.
      unfold k in *. cbn [Zdigits2]. rewrite !fexp64_eq in *. lia.
  - replace (eb - e) with ((eb - (e + k)) + k) in Hbound by lia.
    rewrite Z.pow_add_r in Hbound by lia.
    set (Mb := mb * 2 ^ (eb - (e + k))) in *.
    assert (HMb : m + (if loc_inexact l then 1 else 0) <= Mb * 2 ^ k)
      by (unfold Mb; lia).
    pose proof (Z.div_mod m (2 ^ k) ltac:(lia)) as Hdm.
    pose proof (Z.mod_pos_bound m (2 ^ k) Hpk) as Hmod.
    destruct (inexact (fst (shr (shr_record_of_loc m l) e k))) eqn:Hin.
    + assert (Hcases : loc_inexact l = true \/ m mod 2 ^ k <> 0).
      { destruct (loc_inexact l); [now left|]. right. intros Hz.
        destruct Hi1 as [_ Hback].
        specialize (Hback (conj eq_refl Hz)). discriminate Hback. }
      destruct Hcases as [Hl|Hr]; [rewrite Hl in HMb|];
        destruct (loc_inexact l); nia.
    + destruct Hi1 as [Hi1 _]. destruct (Hi1 eq_refl) as [Hl Hr].
      rewrite Hl in HMb. nia.
Qed.

(** *** Rounding never crosses a representable bound *)

Lemma round_nearest_even_spec (m : Z) (l : location) :
  m <= round_nearest_even m l
  <= m + (if loc_inexact l then 1 else 0).
Proof. destruct l as [|[| |]]; cbn; destruct (Z.even m); lia. Qed.

Lemma bounded_spec (mb : positive) (eb : Z) :
  SpecFloat.bounded PyFloat.prec PyFloat.emax mb eb = true ->
  fexp64 (Zdigits2 (Zpos mb) + eb) = eb /\ eb <= 971.
Proof.
  unfold SpecFloat.bounded, canonical_mantissa. rewrite andb_true_iff.
  intros [Hc He]. apply Z.eqb_eq in Hc. apply Z.leb_le in He.
  split; [exact Hc | exact He].
Qed.

Lemma leb_finite (m1 m2 : positive) (e1 e2 : Z) :
  e1 <= e2 ->
  Zpos m1 <= Zpos m2 * 2 ^ (e2 - e1) ->
  PyFloat.leb (S754_finite false m1 e1) (S754_finite false m2 e2) = true.
Proof.
  intros He Hm. unfold PyFloat.leb, SFleb, SFcompare.
  destruct (Z.compare_spec e1 e2) as [Heq|Hlt|Hgt]; [|reflexivity|lia].
  subst e2. rewrite Z.sub_diag, Z.pow_0_r, Z.mul_1_r in Hm.
  change (Pos.compare_cont Eq m1 m2) with (Pos.compare m1 m2).
  destruct (Pos.compare_spec m1 m2) as [?|?|Habs]; try reflexivity.
  lia.
Qed.

Lemma binary_round_aux_below (m e : Z) (l : location) (mb : positive)
      (eb : Z) :
  0 <= m ->
  e <= fexp64 (Zdigits2 m + e) ->
  SpecFloat.bounded PyFloat.prec PyFloat.emax mb eb = true ->
  e <= eb ->
  m + (if loc_inexact l then 1 else 0) <= Zpos mb * 2 ^ (eb - e) ->
  let r := binary_round_aux PyFloat.prec PyFloat.emax false m e l in
  PyFloat.valid r = true
  /\ PyFloat.leb PyFloat.zero r = true
  /\ PyFloat.leb r (S754_finite false mb eb) = true.
Proof.
  intros Hm Hpre Hb Hle Hbound.
  destruct (bounded_spec mb eb Hb) as [Hcanon Hemax].
  cbv zeta. unfold binary_round_aux.
  pose proof (shr_fexp_step m e (Zpos mb) eb l Hm Hpre ltac:(lia)
                Hcanon Hle Hbound) as Hstep1.
  cbv zeta in Hstep1.
  destruct (shr_fexp PyFloat.prec PyFloat.emax m e l) as [mrs1 e1].
  cbn [fst snd] in Hstep1.
  destruct Hstep1 as (Hm1 & He1 & Hc1 & Hb1).
  set (mr := round_nearest_even (shr_m mrs1) (loc_of_shr_record mrs1)).
  assert (Hmr : shr_m mrs1 <= mr
                <= shr_m mrs1 + (if inexact mrs1 then 1 else 0)).
  { unfold mr. rewrite <- loc_of_shr_record_inexact.
    apply round_nearest_even_spec. }
  assert (Hpre2 : e1 <= fexp64 (Zdigits2 mr + e1)).
  { pose proof (Zdigits2_mono (shr_m mrs1) mr ltac:(lia)).
    rewrite !fexp64_eq in *. lia. }
  pose proof (shr_fexp_step mr e1 (Zpos mb) eb loc_Exact ltac:(lia) Hpre2
                ltac:(lia) Hcanon ltac:(lia)) as Hstep2.
  cbv zeta in Hstep2. cbn [loc_inexact] in Hstep2.
  destruct (shr_fexp PyFloat.prec PyFloat.emax mr e1 loc_Exact)
    as [mrs2 e2].
  cbn [fst snd] in Hstep2.
  destruct Hstep2 as (Hm2 & He2 & Hc2 & Hb2); [lia|].
  destruct (shr_m mrs2) as [|p|p] eqn:Hp; [| |lia].
  - repeat split; reflexivity.
  - replace (e2 <=? PyFloat.emax - PyFloat.prec) with true
      by (symmetry; apply Z.leb_le; unfold PyFloat.emax, PyFloat.prec; lia).
    repeat split.
    + unfold PyFloat.valid, valid_binary, SpecFloat.bounded, canonical_mantissa.
      apply andb_true_iff. split.
      * apply Z.eqb_eq. exact Hc2.
      * apply Z.leb_le. unfold PyFloat.emax, PyFloat.prec. lia.
    + apply leb_finite; [lia|].
      destruct (inexact mrs2); lia.
Qed.

(** *** Success rates stay success rates *)

Lemma leb_finite_inv (m1 m2 : positive) (e1 e2 : Z) :
  PyFloat.leb (S754_finite false m1 e1) (S754_finite false m2 e2) = true ->
  e1 < e2 \/ (e1 = e2 /\ Zpos m1 <= Zpos m2).
Proof.
  unfold PyFloat.leb, SFleb, SFcompare.
  change (Pos.compare_cont Eq m1 m2) with (Pos.compare m1 m2).
  destruct (Z.compare_spec e1 e2) as [Heq|Hlt|Hgt];
    [|now left|discriminate].
  destruct (Pos.compare_spec m1 m2); try discriminate; intros _; right;
    split; trivial; lia.
Qed.

Lemma is_rate_cases (a : PyFloat.t) :
  PyFloat.is_rate a = true ->
  (exists s, a = S754_zero s)
  \/ (exists m e,
         a = S754_finite false m e
         /\ SpecFloat.bounded PyFloat.prec PyFloat.emax m e = true
         /\ e <= -52
         /\ Zpos m <= 2 ^ (- e)).
Proof.
  unfold PyFloat.is_rate, PyFloat.in_unit_interval.
  rewrite !andb_true_iff. intros (Hvalid & Hzero & Hone).
  destruct a as [s|s| |s m e].
  - left. now exists s.
  - destruct s; discriminate.
  - discriminate.
  - destruct s; [discriminate|]. right. exists m, e.
    change (SpecFloat.bounded PyFloat.prec PyFloat.emax m e = true) in Hvalid.
    split; [reflexivity|]. split; [exact Hvalid|].
    destruct (bounded_spec m e Hvalid) as [Hcanon _].
    destruct (Zdigits2_bounds (Zpos m) ltac:(lia)) as [_ Hhi].
    apply leb_finite_inv in Hone.
    destruct Hone as [Hlt|[-> Hm]].
    + split; [lia|].
      assert (Hd : Zdigits2 (Zpos m) <= 53)
        by (rewrite fexp64_eq in Hcanon; lia).
      assert (2 ^ Zdigits2 (Zpos m) <= 2 ^ (- e))
        by (apply Z.pow_le_mono_r; lia).
      lia.
    + split; [lia|]. exact Hm.
Qed.

Lemma is_rate_zero (s : bool) : PyFloat.is_rate (S754_zero s) = true.
Proof. destruct s; reflexivity. Qed.

Lemma leb_zero_l (s : bool) (a : PyFloat.t) :
  PyFloat.leb PyFloat.zero a = true -> PyFloat.leb (S754_zero s) a = true.
Proof. destruct a as [?|[|]| |[|] ? ?]; cbn; congruence. Qed.

Lemma mul_rate (a b : PyFloat.t) :
  PyFloat.is_rate a = true ->
  PyFloat.is_rate b = true ->
  PyFloat.is_rate (PyFloat.mul a b) = true
  /\ PyFloat.leb (PyFloat.mul a b) a = true.
Proof.
  intros Ha Hb.
  destruct (is_rate_cases a Ha) as [[sa ->]|(ma & ea & -> & Hba & Hea & Hma)];
    destruct (is_rate_cases b Hb)
      as [[sb ->]|(mb & eb & -> & Hbb & Heb & Hmb)].
  - destruct sa, sb; split; reflexivity.
  - destruct sa; split; reflexivity.
  - destruct sb; split; reflexivity.
  - unfold PyFloat.mul, SFmul. cbn [xorb].
    destruct (bounded_spec ma ea Hba) as [Hca _].
    assert (Hpa : 0 < 2 ^ (- ea)) by (apply Z.pow_pos_nonneg; lia).
    assert (Hpb : 0 < 2 ^ (- eb)) by (apply Z.pow_pos_nonneg; lia).
    assert (Hpre : ea + eb
                   <= fexp64 (Zdigits2 (Zpos (ma * mb)) + (ea + eb))).
    { pose proof (Zdigits2_mono (Zpos ma) (Zpos (ma * mb)) ltac:(nia)).
      rewrite !fexp64_eq in *. lia. }
    destruct (binary_round_aux_below (Zpos (ma * mb)) (ea + eb) loc_Exact
                ma ea ltac:(lia) Hpre Hba ltac:(lia))
      as (Hvalid & Hzero & Hle).
    { cbn [loc_inexact]. replace (ea - (ea + eb)) with (- eb) by lia.
      rewrite Pos2Z.inj_mul. nia. }
    destruct (binary_round_aux_below (Zpos (ma * mb)) (ea + eb) loc_Exact
                4503599627370496 (-52) ltac:(lia) Hpre eq_refl ltac:(lia))
      as (_ & _ & Hone).
    { cbn [loc_inexact].
      replace (-52 - (ea + eb)) with ((- ea - 52) + (- eb)) by lia.
      rewrite Z.pow_add_r by lia.
      assert (Hsplit : 2 ^ (- ea) = 2 ^ 52 * 2 ^ (- ea - 52)).
      { rewrite <- Z.pow_add_r by lia. f_equal. lia. }
      change (Zpos 4503599627370496) with (2 ^ 52).
      rewrite Pos2Z.inj_mul. nia. }
    split; [|exact Hle].
    unfold PyFloat.is_rate, PyFloat.in_unit_interval.
    rewrite Hvalid, Hzero. exact Hone.
Qed.

Lemma loc_inexact_new_location (n r : Z) :
  loc_inexact (new_location n r) = negb (r =? 0).
Proof.
  unfold new_location, new_location_even, new_location_odd.
  destruct (Z.even n), (r =? 0); reflexivity.
Qed.

Lemma div_rate (k n : Z) :
  0 <= k <= n -> 0 < n ->
  PyFloat.is_rate (PyFloat.div (PyFloat.raw_int k) (PyFloat.raw_int n))
  = true.
Proof.
  intros [Hk Hkn] Hn.
  destruct n as [|pn|pn]; try lia.
  destruct k as [|pk|pk]; try lia; [reflexivity|].
  unfold PyFloat.div, PyFloat.raw_int, SFdiv, SFdiv_core_binary.
  cbn [xorb].
  set (d1 := Zdigits2 (Zpos pk)). set (d2 := Zdigits2 (Zpos pn)).
  assert (Hd : 1 <= d1 <= d2).
  { split; [unfold d1; cbn; lia|].
    apply Zdigits2_mono. lia. }
  destruct (Zdigits2_bounds (Zpos pk) ltac:(lia)) as [Hklo _].
  destruct (Zdigits2_bounds (Zpos pn) ltac:(lia)) as [_ Hnhi].
  fold d1 in Hklo. fold d2 in Hnhi.
  rewrite !Z.add_0_r, Z.sub_diag, Z.sub_0_l.
  set (e' := Z.min (fexp PyFloat.prec PyFloat.emax (d1 - d2)) 0).
  assert (He' : e' = Z.max (d1 - d2 - 53) (-1074))
    by (unfold e'; rewrite fexp64_eq; lia).
  destruct (- e') as [|s|s] eqn:Hs; try lia.
  rewrite Z.shiftl_mul_pow2 by lia.
  pose proof (Z_div_mod (Zpos pk * 2 ^ Zpos s) (Zpos pn) ltac:(lia))
    as Hdiv.
  destruct (Z.div_eucl (Zpos pk * 2 ^ Zpos s) (Zpos pn)) as [q r].
  destruct Hdiv as [Hqr Hr].
  assert (Hps : 0 < 2 ^ Zpos s) by (apply Z.pow_pos_nonneg; lia).
  assert (Hq : 0 <= q) by nia.
  assert (Hpre : e' <= fexp64 (Zdigits2 q + e')).
  { destruct (Z.eq_dec e' (-1074)) as [->|Hne];
      [rewrite fexp64_eq; lia|].
    assert (Hsval : Zpos s = 53 + d2 - d1) by lia.
    assert (H52 : 2 ^ 52 <= q).
    { assert (Hlow : 2 ^ (52 + d2) <= Zpos pk * 2 ^ Zpos s).
      { replace (52 + d2) with ((d1 - 1) + Zpos s) by lia.
        rewrite Z.pow_add_r by lia. nia. }
      rewrite Z.pow_add_r in Hlow by lia.
      assert (Hp52 : 0 < 2 ^ 52) by reflexivity.
      nia. }
    pose proof (Zdigits2_ge q 52 ltac:(lia) H52).
    rewrite fexp64_eq. lia. }
  destruct (binary_round_aux_below q e' (new_location (Zpos pn) r)
              4503599627370496 (-52) Hq Hpre eq_refl ltac:(lia))
    as (Hvalid & Hzero & Hone).
  { rewrite loc_inexact_new_location.
    replace (-52 - e') with ((Zpos s - 52)) by lia.
    assert (Hsplit : 2 ^ Zpos s = 2 ^ 52 * 2 ^ (Zpos s - 52)).
    { rewrite <- Z.pow_add_r by lia. f_equal. lia. }
    change (Zpos 4503599627370496) with (2 ^ 52).
    rewrite <- Hsplit.
    destruct (Z.eqb_spec r 0) as [->|Hnz]; cbn [negb]; nia. }
  unfold PyFloat.is_rate, PyFloat.in_unit_interval.
  rewrite Hvalid, Hzero. exact Hone.
Qed.

(** A count divided by itself is exactly [1.0]; zero divided by a count is
    exactly [0.0]. *)
Lemma div_self (n : Z) :
  0 < n -> PyFloat.div (PyFloat.raw_int n) (PyFloat.raw_int n) = PyFloat.one.
Proof.
  intros Hn. destruct n as [|pn|pn]; try lia.
  unfold PyFloat.div, PyFloat.raw_int, SFdiv, SFdiv_core_binary.
  cbn [xorb]. rewrite !Z.add_0_r, !Z.sub_diag.
  change (Z.min (fexp PyFloat.prec PyFloat.emax 0) 0) with (-53).
  change (0 - -53) with 53. cbv iota.
  rewrite Z.shiftl_mul_pow2 by lia.
  assert (Hdiv : Z.div_eucl (Zpos pn * 2 ^ 53) (Zpos pn) = (2 ^ 53, 0)).
  { pose proof (Z.div_mul (2 ^ 53) (Zpos pn) ltac:(lia)) as Hq.
    pose proof (Z.mod_mul (2 ^ 53) (Zpos pn) ltac:(lia)) as Hr.
    rewrite (Z.mul_comm (2 ^ 53)) in Hq, Hr.
    unfold Z.div, Z.modulo in Hq, Hr.
    destruct (Z.div_eucl (Zpos pn * 2 ^ 53) (Zpos pn)) as [q r].
    now subst. }
  rewrite Hdiv.
  assert (Hloc : new_location (Zpos pn) 0 = loc_Exact).
  { unfold new_location, new_location_even, new_location_odd.
    destruct (Z.even (Zpos pn)); reflexivity. }
  rewrite Hloc. reflexivity.
Qed.

Lemma div_zero (n : Z) :
  0 < n -> PyFloat.div (PyFloat.raw_int 0) (PyFloat.raw_int n) = PyFloat.zero.
Proof. intros Hn. destruct n; try lia. reflexivity. Qed.

Lemma is_rate_one : PyFloat.is_rate PyFloat.one = true.
Proof. reflexivity. Qed.

Lemma np_prod_from (rates : list PyFloat.t) :
  Forall (fun r => PyFloat.is_rate r = true) rates ->
  forall init : PyFloat.t,
    PyFloat.is_rate init = true ->
    PyFloat.is_rate (fold_left PyFloat.mul rates init) = true.
Proof.
  induction 1 as [|r rates Hr _ IH]; intros init Hinit; [exact Hinit|].
  cbn [fold_left]. apply IH. now apply mul_rate.
Qed.

Lemma np_prod_rate (rates : list PyFloat.t) :
  Forall (fun r => PyFloat.is_rate r = true) rates ->
  PyFloat.is_rate (np_prod rates) = true.
Proof. intros H. apply np_prod_from; [exact H | apply is_rate_one]. Qed.

End FloatFacts.

(** * Properties of the final comparison *)

Section ComparisonFacts.

Lemma positive_is_nonzero (b : PyFloat.t) :
  PyFloat.ltb PyFloat.zero b = true -> PyFloat.eqb b PyFloat.zero = false.
Proof. destruct b as [s|[|]| |[|] m e]; cbn; congruence. Qed.

(** The guard keeps the division away from a zero divisor. *)
Lemma ratio_run (a b : PyFloat.t) (w : World) :
  ratio a b w = (inr (reported_ratio a b), w).
Proof.
  unfold ratio, reported_ratio, float_truediv.
  destruct (PyFloat.ltb PyFloat.zero b) eqn:Hpos; [|reflexivity].
  now rewrite positive_is_nonzero.
Qed.

Lemma reported_ratio_zero (a : PyFloat.t) (s : bool) :
  reported_ratio a (S754_zero s) = PyFloat.inf.
Proof. reflexivity. Qed.

Lemma list_get_run {A : Type} (l : list A) (i : nat) (a : A) (w : World) :
  nth_error l i = Some a -> list_get l i w = (inr a, w).
Proof. unfold list_get. now intros ->. Qed.

Lemma comparison_loop (standard vermicular : RunResult)
      (catalog : list (string * string)) :
  forall (i : nat) (advantages : list PyFloat.t) (w : World),
    (i + length catalog)%nat = length (stages standard) ->
    (i + length catalog)%nat = length (stages vermicular) ->
    exists more : list PyFloat.t,
      for_each (enumerate_from i catalog)
        (fun advantages '(i, _) =>
           std_rate <- list_get (stages standard) i ;;
           ver_rate <- list_get (stages vermicular) i ;;
           advantage <- ratio ver_rate std_rate ;;
           ret (advantages ++ [advantage]))
        advantages w
      = (inr (advantages ++ more), w)
      /\ length more = length catalog
      /\ forall (j : nat) (std_rate ver_rate : PyFloat.t),
          nth_error (stages standard) (i + j) = Some std_rate ->
          nth_error (stages vermicular) (i + j) = Some ver_rate ->
          (j < length catalog)%nat ->
          nth_error more j = Some (reported_ratio ver_rate std_rate).
Proof.
  induction catalog as [|entry catalog IH]; intros i advantages w Hs Hv.
  - exists []. cbn. rewrite app_nil_r. repeat split. intros; lia.
  - cbn [length] in Hs, Hv.
    destruct (nth_error (stages standard) i) as [std_rate|] eqn:Hstd;
      [|apply nth_error_None in Hstd; lia].
    destruct (nth_error (stages vermicular) i) as [ver_rate|] eqn:Hver;
      [|apply nth_error_None in Hver; lia].
    destruct (IH (S i) (advantages ++ [reported_ratio ver_rate std_rate]) w)
      as (more & Hrun & Hlen & Hnth); [lia | lia |].
    exists (reported_ratio ver_rate std_rate :: more).
    split; [|split].
    + cbn [enumerate_from]. rewrite for_each_cons. destruct entry as [? ?].
      unfold bind at 1.
      rewrite (list_get_run _ _ _ _ Hstd).
      unfold bind at 1.
      rewrite (list_get_run _ _ _ _ Hver).
      unfold bind at 1. rewrite ratio_run. unfold ret at 1.
      rewrite Hrun, <- app_assoc. reflexivity.
    + cbn [length]. now rewrite Hlen.
    + intros [|j] s v Hsj Hvj Hj.
      * rewrite Nat.add_0_r in Hsj, Hvj.
        rewrite Hstd in Hsj. rewrite Hver in Hvj.
        injection Hsj as <-. injection Hvj as <-. reflexivity.
      * cbn [nth_error]. cbn [length] in Hj.
        apply Hnth; [| |lia].
        -- now replace (S i + j)%nat with (i + S j)%nat by lia.
        -- now replace (S i + j)%nat with (i + S j)%nat by lia.
Qed.

End ComparisonFacts.

(** * Properties of the measured rates *)

Section RateFacts.
Variable self : QuantumDatabaseDemo.
Variable algorithm_type : string.

Lemma length_matching (measurements : list Measurement) (target : string) :
  (length (matching measurements target) <= length measurements)%nat.
Proof. apply filter_length_le. Qed.

Lemma sample_rate_is_rate (measurements : list Measurement)
      (target : string) :
  measurements <> [] ->
  PyFloat.is_rate (sample_rate measurements target) = true.
Proof.
  intros Hne. unfold sample_rate. apply div_rate.
  - pose proof (length_matching measurements target). lia.
  - destruct measurements; [congruence | cbn [length]; lia].
Qed.

Lemma for_each_search_stage_rates (catalog : list (string * string)) :
  forall (carried final : list PyFloat.t * Z) (w : World),
    fst (for_each catalog (search_stage self algorithm_type) carried w)
    = inr final ->
    Forall (fun r => PyFloat.is_rate r = true) (fst carried) ->
    Forall (fun r => PyFloat.is_rate r = true) (fst final).
Proof.
  induction catalog as [|[name target] catalog IH];
    intros carried final w.
  - cbn. now intros [= <-].
  - rewrite for_each_cons, search_stage_run. cbv zeta.
    destruct (device self (calls w) _ (shots_per_test self))
      as [class_name|[|m ms]] eqn:Hdevice; cbn [answer_rate];
      try discriminate.
    intros Hfinal Hcarried. apply (IH _ _ _ Hfinal). cbn [fst].
    apply Forall_app. split; [exact Hcarried|].
    constructor; [|constructor].
    apply sample_rate_is_rate. discriminate.
Qed.

Lemma run_multi_stage_search_returns (w : World)
      (stage_results : list PyFloat.t) (total_success : PyFloat.t) :
  fst (run_multi_stage_search self algorithm_type w)
  = inr (stage_results, total_success) ->
  total_success = np_prod stage_results
  /\ Forall (fun r => PyFloat.is_rate r = true) stage_results
  /\ length stage_results = length (targets self)
  /\ dict_get (results (snd (run_multi_stage_search self algorithm_type w)))
       algorithm_type
     = Some {| stages := stage_results; total := total_success |}.
Proof.
  unfold run_multi_stage_search, bind, store_results.
  destruct (for_each (targets self) (search_stage self algorithm_type)
              ([], 0) w) as [[e|[results0 depth]] w1] eqn:Hloop;
    [discriminate|].
  cbn [fst snd ret]. intros [= <- <-].
  pose proof (for_each_search_stage_rates (targets self) ([], 0)
                (results0, depth) w) as Hrates.
  pose proof (for_each_search_stage_length self algorithm_type
                (targets self) ([], 0) w (results0, depth)) as Hlen.
  rewrite Hloop in Hrates, Hlen. cbn [fst snd] in Hrates, Hlen.
  repeat split.
  - apply Hrates; [reflexivity | constructor].
  - destruct (Hlen eq_refl) as [_ Hl]. cbn [length] in Hl. lia.
  - cbn [results]. clear.
    induction (results w1) as [|[k v] d IH]; cbn [dict_set dict_get].
    + now rewrite String.eqb_refl.
    + destruct (String.eqb k algorithm_type) eqn:Hk;
        cbn [dict_get]; rewrite Hk; [reflexivity | exact IH].
Qed.

End RateFacts.
(** * The specification's claims about the circuit builders *)

(** C2. For every target pattern and every [iterations >= 1], the Augmented
    circuit is the Baseline circuit (initial superposition, then
    [iterations] blocks {oracle; diffusion}) with a decoupling pulse on
    every unit (a) right after the superposition and before the first
    oracle, (b) strictly between consecutive iterations, and (c) once after
    the final diffusion block; nothing else differs. *)
Theorem augmented_circuit_structure (target : string) (iterations : Z) :
  1 <= iterations ->
  Spec.pulses = [Xgate 0; Xgate 0; Xgate 1; Xgate 1]
  /\ Spec.iteration target = _apply_oracle Circuit.empty target ++ Spec.diffusion
  /\ create_standard_grover target iterations
     = Spec.superposition
         ++ concat (repeat (Spec.iteration target) (Z.to_nat iterations))
  /\ create_vermicular target iterations
     = Spec.superposition ++ Spec.pulses
         ++ Spec.interleave Spec.pulses
              (repeat (Spec.iteration target) (Z.to_nat iterations))
         ++ Spec.pulses
  /\ (exists rest,
         create_vermicular target iterations
         = Spec.superposition ++ Spec.pulses
             ++ _apply_oracle Circuit.empty target ++ rest)
  /\ (exists front,
         create_vermicular target iterations
         = front ++ Spec.diffusion ++ Spec.pulses).
Proof.
  intros Hit.
  assert (Horacle : _apply_oracle Circuit.empty target = Spec.oracle target)
    by apply apply_oracle_app.
  rewrite create_standard_grover_closed, create_vermicular_closed, Horacle.
  unfold Spec.baseline, Spec.augmented.
  destruct (Z.to_nat iterations) as [|n] eqn:Hn; [lia|].
  repeat split.
  - destruct (interleave_head Spec.pulses (Spec.iteration target) n)
      as [rest ->].
    exists (Spec.diffusion ++ rest ++ Spec.pulses).
    unfold Spec.iteration. rewrite <- !app_assoc. reflexivity.
  - destruct (interleave_last Spec.pulses (Spec.iteration target) n)
      as [front ->].
    exists (Spec.superposition ++ Spec.pulses ++ front ++ Spec.oracle target).
    unfold Spec.iteration. rewrite <- !app_assoc. reflexivity.
Qed.

Lemma augmented_circuit_structure_witness :
  1 <= 2
  /\ create_vermicular "10" 2
     = Spec.superposition ++ Spec.pulses
         ++ Spec.interleave Spec.pulses
              (repeat (Spec.iteration "10") (Z.to_nat 2))
         ++ Spec.pulses.
Proof.
  split; [lia|].
  apply (augmented_circuit_structure "10" 2). lia.
Defined.

(** C3. For every target pattern of the circuit's width, the oracle appends
    a bit-flip on each unit whose pattern bit is ['0'], then one
    conditional-phase primitive across all units, then the same bit-flips
    again in position order; the appended sequence depends on the pattern
    only, so two calls with the same pattern produce identical sequences. *)
Theorem oracle_sequence (target : string) (circuit circuit' : Circuit.t) :
  String.length target = length Spec.units ->
  (forall i : nat,
      In i (Spec.zero_positions target)
      <-> String.get i target = Some "0"%char)
  /\ Spec.acts_on (CZgate 0 1) = seq 0 (String.length target)
  /\ _apply_oracle circuit target
     = circuit ++ map Xgate (Spec.zero_positions target)
         ++ [CZgate 0 1]
         ++ map Xgate (Spec.zero_positions target)
  /\ (exists ops,
         _apply_oracle circuit target = circuit ++ ops
         /\ _apply_oracle circuit' target = circuit' ++ ops).
Proof.
  intros Hwidth. repeat split.
  - unfold Spec.zero_positions. rewrite filter_In.
    intros [_ Hbit].
    destruct (String.get i target) as [bit|]; [|discriminate].
    apply Ascii.eqb_eq in Hbit. now subst.
  - intros Hget. unfold Spec.zero_positions. rewrite filter_In, in_seq.
    split.
    + split; [lia|]. cbn.
      destruct (Nat.ltb_spec i (String.length target)) as [Hlt|Hge];
        [exact Hlt|].
      assert (Hnone : String.get i target = None).
      { clear -Hge. revert i Hge.
        induction target as [|a s IH]; intros i Hge; [now destruct i|].
        destruct i as [|i]; [cbn in Hge; lia|].
        cbn. apply IH. cbn in Hge. lia. }
      congruence.
    + rewrite Hget. apply Ascii.eqb_refl.
  - rewrite Hwidth. reflexivity.
  - apply apply_oracle_app.
  - exists (Spec.oracle target). split; apply apply_oracle_app.
Qed.

Lemma oracle_sequence_witness :
  String.length "10" = length Spec.units
  /\ _apply_oracle Circuit.empty "10"
     = Circuit.empty ++ map Xgate (Spec.zero_positions "10")
         ++ [CZgate 0 1]
         ++ map Xgate (Spec.zero_positions "10").
Proof.
  split; [reflexivity|].
  apply (oracle_sequence "10" Circuit.empty Circuit.empty). reflexivity.
Defined.

(** C8. For every target pattern (in particular every pattern of the fixed
    width) and every starting state, applying the oracle's operation
    sequence twice in succession restores the state, hence restores it up
    to global phase: the two runs of bit-flips that meet cancel, and so do
    the two conditional-phase primitives. *)
Theorem oracle_self_inverse (target : string) (psi : Ideal.State) :
  Ideal.state_eq
    (Ideal.run (_apply_oracle (_apply_oracle Circuit.empty target) target) psi)
    psi
  /\ Ideal.eq_up_to_phase
       (Ideal.run (_apply_oracle (_apply_oracle Circuit.empty target) target)
          psi)
       psi
  /\ Ideal.state_eq
       (Ideal.run (Spec.bit_flips target ++ Spec.bit_flips target) psi) psi
  /\ Ideal.state_eq (Ideal.run [CZgate 0 1; CZgate 0 1] psi) psi.
Proof.
  assert (Htwice :
            Ideal.state_eq
              (Ideal.run
                 (_apply_oracle (_apply_oracle Circuit.empty target) target)
                 psi) psi).
  { rewrite !apply_oracle_app. cbn [Circuit.empty app]. apply oracle_twice. }
  repeat split.
  - exact Htwice.
  - apply state_eq_up_to_phase, Htwice.
  - apply flips_cancel.
  - apply cz_cancel.
Qed.

(** C9. For every target pattern and every iteration count, deleting the
    decoupling-pulse pairs from the Augmented circuit gives the Baseline
    circuit operation for operation, and on the ideal backend the two
    circuits have the same outcome distribution, so the same success
    probability for every pattern. *)
Theorem pulses_are_removable (target : string) (iterations : Z) :
  Spec.strip_pulses (create_vermicular target iterations)
  = create_standard_grover target iterations
  /\ (forall b : N,
         Ideal.outcome_probability (create_vermicular target iterations) b
         = Ideal.outcome_probability
             (create_standard_grover target iterations) b)
  /\ (forall pattern : string,
         Ideal.success_probability (create_vermicular target iterations)
           pattern
         = Ideal.success_probability
             (create_standard_grover target iterations) pattern).
Proof.
  assert (Hstrip :
            Spec.strip_pulses (create_vermicular target iterations)
            = create_standard_grover target iterations).
  { rewrite create_vermicular_closed, create_standard_grover_closed.
    apply strip_pulses_augmented. }
  assert (Hprob :
            forall b : N,
              Ideal.outcome_probability (create_vermicular target iterations) b
              = Ideal.outcome_probability
                  (create_standard_grover target iterations) b).
  { intros b. apply vermicular_same_outcome. }
  repeat split; [exact Hstrip | exact Hprob |].
  intros pattern. unfold Ideal.success_probability.
  destruct (Ideal.basis_from 0 (list_ascii_of_string pattern));
    [apply Hprob | reflexivity].
Qed.

(** C10. For every target pattern and every [iterations >= 1], the
    Augmented circuit is exactly [4 * (iterations + 1)] operations deeper
    than the Baseline circuit: one block of 4 bit-flips before the first
    oracle, one after the final diffusion, and one between each of the
    [iterations - 1] pairs of consecutive iterations. *)
Theorem augmented_depth_overhead (target : string) (iterations : Z) :
  1 <= iterations ->
  Circuit.depth Spec.pulses = 4
  /\ Circuit.depth (create_vermicular target iterations)
     = Circuit.depth (create_standard_grover target iterations)
       + 4 * (iterations + 1).
Proof.
  intros Hit. split; [reflexivity|].
  rewrite create_vermicular_closed, create_standard_grover_closed.
  unfold Circuit.depth, Spec.augmented, Spec.baseline.
  destruct (Z.to_nat iterations) as [|n] eqn:Hn; [lia|].
  rewrite !length_app, length_interleave, length_concat_repeat.
  change (length Spec.pulses) with 4%nat.
  lia.
Qed.

Lemma augmented_depth_overhead_witness :
  1 <= 3
  /\ Circuit.depth (create_vermicular "00" 3)
     = Circuit.depth (create_standard_grover "00" 3) + 4 * (3 + 1).
Proof.
  split; [lia|].
  apply (augmented_depth_overhead "00" 3). lia.
Defined.

(** * The specification's claims about the stage sequencer *)

(** C1. In a pass, stage [k] (in catalog order) builds the circuit for
    the [k]-th target and submits it to the backend: for the Baseline
    strategy with 1 iteration when the summed operation count of the
    circuits of the earlier stages of this pass is below 2 and with 2
    iterations otherwise, for the Augmented strategy always with 1
    iteration.  Only the circuits of this pass count: the accumulated
    depth is 0 at its first stage, whatever was run before.  The first
    stage always submits its circuit, every stage whose call returned
    samples is followed by the next stage, and a pass that returns has
    run one stage per target. *)
Theorem stage_iteration_policy (self : QuantumDatabaseDemo)
        (algorithm_type : string) (w : World) :
  exists pass : list Call,
    calls (snd (run_multi_stage_search self algorithm_type w))
    = calls w ++ pass
    /\ accumulated_depth (firstn 0 pass) = 0
    /\ (forall (k : nat) (circuit : Circuit.t) (shots : Z),
           nth_error pass k = Some (circuit, shots) ->
           exists name target,
             nth_error (targets self) k = Some (name, target)
             /\ circuit
                = if String.eqb algorithm_type "standard"
                  then create_standard_grover target
                         (if accumulated_depth (firstn k pass) <? 2
                          then 1 else 2)
                  else create_vermicular target 1)
    /\ (forall r,
           fst (run_multi_stage_search self algorithm_type w) = inr r ->
           length pass = length (targets self))
    /\ (targets self <> [] -> pass <> [])
    /\ (forall (k : nat) (circuit : Circuit.t) (shots : Z),
           nth_error pass k = Some (circuit, shots) ->
           returns_samples
             (device self (calls w ++ firstn k pass) circuit shots) ->
           (S k < length (targets self))%nat ->
           nth_error pass (S k) <> None).
Proof.
  destruct (for_each_search_stage self algorithm_type (targets self)
              ([], 0) w) as (pass & Hcalls & _ & Hpass).
  destruct (for_each_search_stage_progress self algorithm_type
              (targets self) ([], 0) w pass Hcalls)
    as (Hfirst & Hnext & _).
  pose proof (for_each_search_stage_length self algorithm_type
                (targets self) ([], 0) w) as Hlen.
  assert (Hrun :
            calls (snd (run_multi_stage_search self algorithm_type w))
            = calls (snd (for_each (targets self)
                            (search_stage self algorithm_type) ([], 0) w))
            /\ forall r,
                fst (run_multi_stage_search self algorithm_type w) = inr r ->
                exists final,
                  fst (for_each (targets self)
                         (search_stage self algorithm_type) ([], 0) w)
                  = inr final).
  { unfold run_multi_stage_search, bind, store_results.
    destruct (for_each (targets self) (search_stage self algorithm_type)
                ([], 0) w) as [[e|[stage_results depth]] w1]; cbn.
    - split; [reflexivity | discriminate].
    - split; [reflexivity|]. intros _ _. now eexists. }
  destruct Hrun as [Hsame Hreturn].
  exists pass.
  split; [now rewrite Hsame|]. split; [reflexivity|].
  split; [|split; [|split; [exact Hfirst | exact Hnext]]].
  - intros k circuit shots Hk.
    destruct (Hpass k circuit shots Hk) as (name & target & Hnth & _ & Hc).
    exists name, target. split; [exact Hnth|].
    rewrite Hc. unfold Spec.stage_circuit. cbn [snd].
    reflexivity.
  - intros r Hr. destruct (Hreturn r Hr) as [final Hfinal].
    destruct (Hlen final Hfinal) as [Hlength _].
    rewrite Hcalls, length_app in Hlength. lia.
Qed.

(** C6 fails on the code: a stage with a three-bit pattern reaches the
    backend and succeeds, and a stage with zero shots reaches the backend
    too: it fails only there, with the exception the backend raises. *)
Lemma bad_configuration_reaches_backend :
  search_stage demo_long_pattern "standard" ([], 0) ("Alpha", "000")
    initial_world
  = (inr ([PyFloat.one], Circuit.depth (create_standard_grover "000" 1)),
     {| calls := [(create_standard_grover "000" 1, 1000)];
        results := initial_results |})
  /\ ~ rejects_bad_configuration demo_long_pattern "standard" ([], 0)
         ("Alpha", "000") initial_world
  /\ search_stage demo_zero_shots "standard" ([], 0) ("Alpha", "00")
       initial_world
     = (inl (BackendError "ValueError"),
        {| calls := [(create_standard_grover "00" 1, 0)];
           results := initial_results |})
  /\ ~ rejects_bad_configuration demo_zero_shots "standard" ([], 0)
         ("Alpha", "00") initial_world.
Proof.
  split; [reflexivity|]. split; [|split; [reflexivity|]].
  - intros Hclaim.
    destruct Hclaim as [e He]; [left; cbn; lia|].
    vm_compute in He. discriminate He.
  - intros Hclaim.
    destruct Hclaim as [e He]; [right; cbn; lia|].
    vm_compute in He. discriminate He.
Qed.

(** C6, amended. The code checks neither the pattern length nor the shot
    count: every stage, whatever its pattern and shot count, builds its
    circuit and submits it to the backend exactly once, with the
    configured shot count, and changes nothing else; so no stage fails
    before its backend call.  What the stage does then is decided by the
    answer alone: an exception raised by the backend ends the stage, an
    answer without samples ends it with a division by zero, and any
    other answer lets it succeed.  No second call is made. *)
Theorem stage_calls_backend_once (self : QuantumDatabaseDemo)
        (algorithm_type : string) (carried : list PyFloat.t * Z)
        (name target : string) (w : World) :
  exists (circuit : Circuit.t) (outcome : Exception + list PyFloat.t * Z),
    search_stage self algorithm_type carried (name, target) w
    = (outcome,
       {| calls := calls w ++ [(circuit, shots_per_test self)];
          results := results w |})
    /\ circuit
       = (if String.eqb algorithm_type "standard"
          then create_standard_grover target
                 (if snd carried <? 2 then 1 else 2)
          else create_vermicular target 1)
    /\ ~ fails_untouched
           (search_stage self algorithm_type carried (name, target)) w
    /\ (forall class_name : string,
           device self (calls w) circuit (shots_per_test self)
           = inl class_name ->
           outcome = inl (BackendError class_name))
    /\ (device self (calls w) circuit (shots_per_test self) = inr [] ->
        outcome = inl ZeroDivisionError)
    /\ (returns_samples
          (device self (calls w) circuit (shots_per_test self)) ->
        exists success_rate,
          outcome = inr (fst carried ++ [success_rate],
                         snd carried + Circuit.depth circuit)).
Proof.
  rewrite search_stage_run. cbv zeta.
  eexists. eexists. split; [reflexivity|]. split; [reflexivity|].
  fold (Spec.stage_circuit algorithm_type target (snd carried)).
  split.
  - intros [e He]. rewrite search_stage_run in He.
    apply (f_equal (fun r => length (calls (snd r)))) in He.
    cbn [snd calls] in He. rewrite length_app in He. cbn [length] in He.
    lia.
  - destruct (device self (calls w) _ (shots_per_test self))
      as [class_name|[|m ms]]; cbn [answer_rate].
    + split; [now intros ? [= <-]|]. split; [discriminate|].
      intros (m & ms & Hanswer). discriminate Hanswer.
    + split; [discriminate|]. split; [reflexivity|].
      intros (m & ms & Hanswer). discriminate Hanswer.
    + split; [discriminate|]. split; [discriminate|].
      intros _. eexists. reflexivity.
Qed.

(** * The specification's claims about rates, totals and ratios *)

Example tenth_is_one_over_ten :
  PyFloat.div (PyFloat.raw_int 1) (PyFloat.raw_int 10) = tenth.
Proof. reflexivity. Qed.

Example six_tenths_is_six_over_ten :
  PyFloat.div (PyFloat.raw_int 6) (PyFloat.raw_int 10) = six_tenths.
Proof. reflexivity. Qed.

Example one_is_float_of_one : PyFloat.of_int 1 = PyFloat.one.
Proof. reflexivity. Qed.

(** On counts this small, dividing the counts and dividing their float
    conversions agree. *)
Example truediv_of_converted_counts :
  PyFloat.div (PyFloat.of_int 1) (PyFloat.of_int 3)
  = PyFloat.div (PyFloat.raw_int 1) (PyFloat.raw_int 3).
Proof. reflexivity. Qed.

(** C4 fails on the code: with every stage finding its target once in ten
    shots, the three rates are the float [0.1] and the total the run
    returns is not their exact product. *)
Lemma total_success_not_exact :
  exists total_success : PyFloat.t,
    fst (run_multi_stage_search demo_one_in_ten "standard" initial_world)
    = inr ([tenth; tenth; tenth], total_success)
    /\ Forall (fun r => PyFloat.is_rate r = true) [tenth; tenth; tenth]
    /\ ~ total_is_exact_product [tenth; tenth; tenth] total_success.
Proof.
  eexists. split; [vm_compute; reflexivity|]. split.
  - repeat constructor.
  - unfold total_is_exact_product. intros Hexact.
    apply Qeq_bool_iff in Hexact. vm_compute in Hexact.
    discriminate Hexact.
Qed.

(** C4, amended. For every sequence of stage rates, each a float in
    [0, 1], [total_success] is their binary64 product, multiplied left to
    right from 1.0 with every multiplication rounded to nearest; it is
    again a float in [0, 1], and appending a further stage with rate in
    [0, 1] never increases it.  The total a pass returns is this product
    of the rates it measured. *)
Theorem total_success_product (rates : list PyFloat.t) (r : PyFloat.t) :
  Forall (fun a => PyFloat.is_rate a = true) rates ->
  PyFloat.is_rate r = true ->
  np_prod rates = fold_left PyFloat.mul rates PyFloat.one
  /\ PyFloat.is_rate (np_prod rates) = true
  /\ np_prod (rates ++ [r]) = PyFloat.mul (np_prod rates) r
  /\ PyFloat.leb (np_prod (rates ++ [r])) (np_prod rates) = true
  /\ (forall (self : QuantumDatabaseDemo) (algorithm_type : string)
             (w : World) (stage_results : list PyFloat.t)
             (total_success : PyFloat.t),
         fst (run_multi_stage_search self algorithm_type w)
         = inr (stage_results, total_success) ->
         total_success = np_prod stage_results
         /\ Forall (fun a => PyFloat.is_rate a = true) stage_results).
Proof.
  intros Hrates Hr.
  assert (Htotal : PyFloat.is_rate (np_prod rates) = true)
    by now apply np_prod_rate.
  assert (Happ : np_prod (rates ++ [r]) = PyFloat.mul (np_prod rates) r)
    by (unfold np_prod; now rewrite fold_left_app).
  split; [reflexivity|]. split; [exact Htotal|]. split; [exact Happ|].
  split.
  - rewrite Happ. now apply mul_rate.
  - intros self algorithm_type w stage_results total_success Hrun.
    destruct (run_multi_stage_search_returns self algorithm_type w
                stage_results total_success Hrun) as (Ht & Hf & _).
    split; assumption.
Qed.

Lemma total_success_product_witness :
  Forall (fun a => PyFloat.is_rate a = true) [tenth; six_tenths]
  /\ PyFloat.is_rate tenth = true
  /\ PyFloat.leb (np_prod ([tenth; six_tenths] ++ [tenth]))
       (np_prod [tenth; six_tenths])
     = true.
Proof.
  assert (H1 : Forall (fun a => PyFloat.is_rate a = true)
                 [tenth; six_tenths])
    by (repeat constructor).
  assert (H2 : PyFloat.is_rate tenth = true) by reflexivity.
  split; [exact H1|]. split; [exact H2|].
  apply (total_success_product [tenth; six_tenths] tenth H1 H2).
Defined.

(** C5 fails on the code: of three samples one equals the target, and the
    rate returned is the float nearest to one third, not one third. *)
Lemma measured_rate_not_exact :
  device demo_three_samples (calls initial_world)
    (create_standard_grover "00" 1) (shots_per_test demo_three_samples)
  = inr [[false; false]; [true; true]; [true; false]]
  /\ ~ returns_exact_fraction demo_three_samples
         (create_standard_grover "00" 1) "00" initial_world.
Proof.
  split; [reflexivity|].
  intros (measurements & rate & Hdevice & Hrate & Hexact).
  cbn in Hdevice. injection Hdevice as <-.
  vm_compute in Hrate. injection Hrate as <-.
  apply Qeq_bool_iff in Hexact. vm_compute in Hexact.
  discriminate Hexact.
Qed.

(** C5, amended. For every non-empty list of samples the backend returns
    and every target pattern, the estimator returns the float quotient of
    the number of samples whose bit-string equals the pattern by the
    number of samples: the two counts divided as Python floats are, with
    the quotient rounded to binary64.  The result is a float in [0, 1];
    it is exactly 1.0 when every sample matches and exactly 0.0 when none
    does, and in between it need not equal the fraction. *)
Theorem success_rate_estimate (self : QuantumDatabaseDemo)
        (circuit : Circuit.t) (target : string) (w : World)
        (measurements : list Measurement) :
  device self (calls w) circuit (shots_per_test self) = inr measurements ->
  measurements <> [] ->
  (forall m : Measurement,
      In m (matching measurements target)
      <-> In m measurements /\ measured_string m = target)
  /\ fst (measure_success_rate self circuit target w)
     = inr (PyFloat.div
              (PyFloat.raw_int
                 (Z.of_nat (length (matching measurements target))))
              (PyFloat.raw_int (Z.of_nat (length measurements))))
  /\ (forall rate : PyFloat.t,
         fst (measure_success_rate self circuit target w) = inr rate ->
         PyFloat.is_rate rate = true)
  /\ (length (matching measurements target) = length measurements ->
      fst (measure_success_rate self circuit target w) = inr PyFloat.one)
  /\ (matching measurements target = [] ->
      fst (measure_success_rate self circuit target w) = inr PyFloat.zero).
Proof.
  intros Hdevice Hne.
  rewrite measure_success_rate_run, Hdevice. cbn [fst].
  destruct measurements as [|m ms]; [congruence|]. cbn [answer_rate].
  split; [|split; [|split; [|split]]].
  - intros m0. unfold matching. rewrite filter_In, String.eqb_eq.
    reflexivity.
  - reflexivity.
  - intros rate [= <-]. apply sample_rate_is_rate. discriminate.
  - intros Hall. unfold sample_rate. rewrite Hall.
    now rewrite div_self by (cbn [length]; lia).
  - intros Hnone. unfold sample_rate. rewrite Hnone.
    now rewrite div_zero by (cbn [length]; lia).
Qed.

Lemma success_rate_estimate_witness :
  device demo_three_samples (calls initial_world)
    (create_vermicular "11" 1) (shots_per_test demo_three_samples)
  = inr [[false; false]; [true; true]; [true; false]]
  /\ [[false; false]; [true; true]; [true; false]] <> []
  /\ fst (measure_success_rate demo_three_samples
            (create_vermicular "11" 1) "11" initial_world)
     = inr (PyFloat.div (PyFloat.raw_int 1) (PyFloat.raw_int 3)).
Proof.
  assert (Hne : [[false; false]; [true; true]; [true; false]]
                <> @nil Measurement)
    by discriminate.
  split; [reflexivity|]. split; [exact Hne|].
  apply (success_rate_estimate demo_three_samples
           (create_vermicular "11" 1) "11" initial_world
           [[false; false]; [true; true]; [true; false]] eq_refl Hne).
Defined.

(** C7. For two completed runs over the same catalog, the comparison
    returns without a division fault; the advantage of every stage is the
    float quotient Augmented rate / Baseline rate when the Baseline rate
    is above zero and the sentinel [float('inf')] when it is zero, and
    the overall improvement is formed from the two totals by the same
    rule. *)
Theorem comparison_ratios (self : QuantumDatabaseDemo) (w : World)
        (standard vermicular : RunResult) :
  dict_get (results w) "standard" = Some standard ->
  dict_get (results w) "vermicular" = Some vermicular ->
  length (stages standard) = length (targets self) ->
  length (stages vermicular) = length (targets self) ->
  exists (advantages : list PyFloat.t) (improvement : PyFloat.t),
    display_final_comparison self w = (inr (advantages, improvement), w)
    /\ length advantages = length (targets self)
    /\ (forall (i : nat) (std_rate ver_rate : PyFloat.t),
           nth_error (stages standard) i = Some std_rate ->
           nth_error (stages vermicular) i = Some ver_rate ->
           nth_error advantages i
           = Some (if PyFloat.ltb PyFloat.zero std_rate
                   then PyFloat.div ver_rate std_rate
                   else PyFloat.inf))
    /\ (forall (i : nat) (s : bool) (ver_rate : PyFloat.t),
           nth_error (stages standard) i = Some (S754_zero s) ->
           nth_error (stages vermicular) i = Some ver_rate ->
           nth_error advantages i = Some PyFloat.inf)
    /\ improvement
       = (if PyFloat.ltb PyFloat.zero (total standard)
          then PyFloat.div (total vermicular) (total standard)
          else PyFloat.inf)
    /\ (forall s : bool,
           total standard = S754_zero s -> improvement = PyFloat.inf).
Proof.
  intros Hstd Hver Hls Hlv.
  destruct (comparison_loop standard vermicular (targets self) 0 [] w)
    as (advantages & Hloop & Hlen & Hnth); [lia | lia |].
  exists advantages, (reported_ratio (total vermicular) (total standard)).
  assert (Hat : forall (i : nat) (std_rate ver_rate : PyFloat.t),
             nth_error (stages standard) i = Some std_rate ->
             nth_error (stages vermicular) i = Some ver_rate ->
             nth_error advantages i
             = Some (reported_ratio ver_rate std_rate)).
  { intros i std_rate ver_rate Hi Hj. apply Hnth; [exact Hi | exact Hj |].
    assert (Hlt : (i < length (stages standard))%nat)
      by (apply nth_error_Some; congruence).
    lia. }
  split; [|split; [exact Hlen|split; [exact Hat|split; [|split]]]].
  - unfold display_final_comparison, get_results, enumerate.
    unfold bind at 1. rewrite Hstd.
    unfold bind at 1. rewrite Hver.
    unfold bind at 1. rewrite Hloop. cbn [app].
    unfold bind at 1. rewrite ratio_run. reflexivity.
  - intros i s ver_rate Hi Hj. rewrite (Hat i _ _ Hi Hj). reflexivity.
  - reflexivity.
  - intros s Hs. rewrite Hs. reflexivity.
Qed.

Lemma comparison_ratios_witness :
  dict_get (results world_after_both_passes) "standard"
  = Some {| stages := [PyFloat.zero; PyFloat.one; PyFloat.one];
            total := PyFloat.zero |}
  /\ dict_get (results world_after_both_passes) "vermicular"
     = Some {| stages := [six_tenths; PyFloat.one; PyFloat.one];
               total := six_tenths |}
  /\ exists (advantages : list PyFloat.t) (improvement : PyFloat.t),
      display_final_comparison demo_three_samples world_after_both_passes
      = (inr (advantages, improvement), world_after_both_passes)
      /\ improvement = PyFloat.inf.
Proof.
  split; [reflexivity|]. split; [reflexivity|].
  destruct (comparison_ratios demo_three_samples world_after_both_passes
              {| stages := [PyFloat.zero; PyFloat.one; PyFloat.one];
                 total := PyFloat.zero |}
              {| stages := [six_tenths; PyFloat.one; PyFloat.one];
                 total := six_tenths |}
              eq_refl eq_refl eq_refl eq_refl)
    as (advantages & improvement & Hrun & _ & _ & _ & _ & Hzero).
  exists advantages, improvement. split; [exact Hrun|].
  apply (Hzero false). reflexivity.
Defined.

(** * Grover search on two qubits, for every pattern *)

Section TwoQubitSearch.
Import Ideal.
Local Open Scope R_scope.

Lemma two_bit_patterns (target : string) :
  String.length target = 2%nat ->
  is_bit_string target = true ->
  target = "00" \/ target = "01" \/ target = "10" \/ target = "11".
Proof.
  destruct target as [|c0 [|c1 [|c2 rest]]]; try discriminate.
  intros _. unfold is_bit_string. cbn [list_ascii_of_string forallb].
  rewrite !andb_true_iff, !orb_true_iff, !Ascii.eqb_eq.
  intros ([-> | ->] & [-> | ->] & _); auto.
Qed.

Ltac table_step :=
  first [ eapply run_gates; [apply hh_table|]
        | eapply run_gate;
          [first [apply cz_table | apply x0_table | apply x1_table]|] ].

Ltac table_run :=
  eapply run_from; [apply ket0_table|];
  repeat table_step.

Ltac amplitudes :=
  unfold Chalf, Cscale, Cadd, Copp, Cone, Czero; cbn [fst snd].

Lemma grover_01_state :
  state_eq (run (create_standard_grover "01" 1) ket0)
    (table Czero Czero (Copp Cone) Czero).
Proof.
  change (create_standard_grover "01" 1) with
    [Hgate 0; Hgate 1;
     Xgate 0; CZgate 0 1; Xgate 0;
     Hgate 0; Hgate 1; Xgate 0; Xgate 1; CZgate 0 1; Xgate 0; Xgate 1;
     Hgate 0; Hgate 1].
  table_run. apply table_ext; amplitudes; f_equal; field.
Qed.

Lemma one_iteration_finds (target : string) :
  String.length target = 2%nat ->
  is_bit_string target = true ->
  success_probability (create_standard_grover target 1) target = 1.
Proof.
  intros Hlen Hbits.
  destruct (two_bit_patterns target Hlen Hbits) as [-> | [-> | [-> | ->]]];
    unfold success_probability, outcome_probability, probability;
    cbn [list_ascii_of_string basis_from Ascii.eqb Bool.eqb];
    [rewrite grover_00_state | rewrite grover_01_state
     | rewrite grover_10_state | rewrite grover_11_state];
    unfold table, Cnorm2, Copp, Cone; cbn; ring.
Qed.

Ltac second_iteration first_state :=
  do 4 eexists; split;
  [ rewrite run_app; eapply run_from; [apply first_state|];
    repeat table_step; apply state_eq_refl
  | repeat split; unfold Cnorm2; amplitudes; field ].

(** Two iterations overshoot: every outcome is then equally likely. *)
Lemma two_iterations_uniform (target : string) :
  String.length target = 2%nat ->
  is_bit_string target = true ->
  exists a0 a1 a2 a3 : C,
    state_eq (run (create_standard_grover target 2) ket0)
      (table a0 a1 a2 a3)
    /\ Cnorm2 a0 = / 4 /\ Cnorm2 a1 = / 4
    /\ Cnorm2 a2 = / 4 /\ Cnorm2 a3 = / 4.
Proof.
  intros Hlen Hbits.
  destruct (two_bit_patterns target Hlen Hbits) as [-> | [-> | [-> | ->]]].
  - change (create_standard_grover "00" 2) with
      (create_standard_grover "00" 1
         ++ [Xgate 0; Xgate 1; CZgate 0 1; Xgate 0; Xgate 1;
             Hgate 0; Hgate 1; Xgate 0; Xgate 1; CZgate 0 1;
             Xgate 0; Xgate 1; Hgate 0; Hgate 1]).
    second_iteration grover_00_state.
  - change (create_standard_grover "01" 2) with
      (create_standard_grover "01" 1
         ++ [Xgate 0; CZgate 0 1; Xgate 0;
             Hgate 0; Hgate 1; Xgate 0; Xgate 1; CZgate 0 1;
             Xgate 0; Xgate 1; Hgate 0; Hgate 1]).
    second_iteration grover_01_state.
  - change (create_standard_grover "10" 2) with
      (create_standard_grover "10" 1
         ++ [Xgate 1; CZgate 0 1; Xgate 1;
             Hgate 0; Hgate 1; Xgate 0; Xgate 1; CZgate 0 1;
             Xgate 0; Xgate 1; Hgate 0; Hgate 1]).
    second_iteration grover_10_state.
  - change (create_standard_grover "11" 2) with
      (create_standard_grover "11" 1
         ++ [CZgate 0 1;
             Hgate 0; Hgate 1; Xgate 0; Xgate 1; CZgate 0 1;
             Xgate 0; Xgate 1; Hgate 0; Hgate 1]).
    second_iteration grover_11_state.
Qed.

Lemma two_iterations_quarter (target : string) (b : N) :
  String.length target = 2%nat ->
  is_bit_string target = true ->
  (b < 4)%N ->
  outcome_probability (create_standard_grover target 2) b = / 4.
Proof.
  intros Hlen Hbits Hb.
  destruct (two_iterations_uniform target Hlen Hbits)
    as (a0 & a1 & a2 & a3 & Hstate & H0 & H1 & H2 & H3).
  unfold outcome_probability, probability. rewrite Hstate.
  destruct b as [|[[p|p|]|[p|p|]|]]; cbn [table]; try assumption; lia.
Qed.

End TwoQubitSearch.

(** * Depth and pulses of the Baseline circuit *)

Section DepthFacts.

Lemma standard_depth (target : string) (iterations : Z) :
  Circuit.depth (create_standard_grover target iterations)
  = 2 + Z.max 0 iterations
        * (10 + 2 * Z.of_nat (length (Spec.zero_positions target))).
Proof.
  rewrite create_standard_grover_closed.
  unfold Circuit.depth, Spec.baseline.
  rewrite length_app, length_concat_repeat.
  unfold Spec.iteration, Spec.oracle, Spec.bit_flips.
  rewrite !length_app, !length_map. cbn [length Spec.superposition
    Spec.diffusion Spec.units map app].
  lia.
Qed.

Lemma standard_depth_pos (target : string) (iterations : Z) :
  1 <= iterations ->
  12 <= Circuit.depth (create_standard_grover target iterations).
Proof. intros H. rewrite standard_depth. nia. Qed.

Lemma accumulated_depth_nonneg (pass : list Call) :
  0 <= accumulated_depth pass.
Proof.
  induction pass as [|c pass IH]; [cbn; lia|].
  change (0 <= Circuit.depth (fst c) + accumulated_depth pass).
  unfold Circuit.depth. lia.
Qed.

Lemma strip_pulses_baseline (target : string) (n : nat) :
  Spec.strip_pulses (Spec.baseline target n) = Spec.baseline target n.
Proof.
  unfold Spec.baseline, Spec.superposition, Spec.units.
  cbn [map app Spec.strip_pulses]. do 2 f_equal.
  induction n as [|n IH]; [reflexivity|].
  cbn [repeat concat]. rewrite strip_pulses_iteration, IH. reflexivity.
Qed.

End DepthFacts.

(** * The platform table *)

(** [0.00035] is the float nearest to 35 / 100000. *)
Example hardware_cost_literal :
  PyFloat.div (PyFloat.raw_int 35) (PyFloat.raw_int 100000)
  = hardware_cost_per_shot.
Proof. reflexivity. Qed.

(** * Rounding in the bars *)

Section MoreFloatFacts.

Lemma Zdigits2_mul_pow2 (m k : Z) :
  0 < m -> 0 <= k -> Zdigits2 (m * 2 ^ k) = Zdigits2 m + k.
Proof.
  intros Hm Hk.
  destruct (Zdigits2_bounds m Hm) as [Hlo Hhi].
  assert (Hpk : 0 < 2 ^ k) by (apply Z.pow_pos_nonneg; lia).
  pose proof (Zdigits2_nonneg m) as Hd.
  assert (Hd1 : 1 <= Zdigits2 m) by (destruct m; cbn in *; lia).
  apply Z.le_antisymm.
  - apply Zdigits2_le; [lia|]. split; [nia|].
    rewrite Z.pow_add_r by lia. nia.
  - pose proof (Zdigits2_ge (m * 2 ^ k) (Zdigits2 m - 1 + k) ltac:(lia))
      as Hge.
    rewrite Z.pow_add_r in Hge by lia.
    specialize (Hge ltac:(nia)). lia.
Qed.

Lemma loc_of_shr_record_exact (mrs : shr_record) :
  inexact mrs = false -> loc_of_shr_record mrs = loc_Exact.
Proof. destruct mrs as [m [|] [|]]; cbn; congruence. Qed.

(** Rounding a value that is representable returns it. *)
Lemma binary_round_aux_exact (s : bool) (m : positive) (e k : Z) :
  SpecFloat.bounded PyFloat.prec PyFloat.emax m e = true ->
  0 <= k ->
  binary_round_aux PyFloat.prec PyFloat.emax s (Zpos m * 2 ^ k) (e - k)
    loc_Exact
  = S754_finite s m e.
Proof.
  intros Hb Hk.
  destruct (bounded_spec m e Hb) as [Hcanon Hemax].
  assert (Hpk : 0 < 2 ^ k) by (apply Z.pow_pos_nonneg; lia).
  unfold binary_round_aux.
  assert (Hfirst :
            shr_fexp PyFloat.prec PyFloat.emax (Zpos m * 2 ^ k) (e - k)
              loc_Exact
            = (fst (shr (shr_record_of_loc (Zpos m * 2 ^ k) loc_Exact)
                      (e - k) k), e)).
  { unfold shr_fexp.
    rewrite Zdigits2_mul_pow2 by lia.
    replace (Zdigits2 (Zpos m) + k + (e - k)) with (Zdigits2 (Zpos m) + e)
      by lia.
    rewrite Hcanon. replace (e - (e - k)) with k by lia.
    destruct (shr_spec (shr_record_of_loc (Zpos m * 2 ^ k) loc_Exact)
                (e - k) k) as (He & _); [cbn [shr_record_of_loc shr_m]; nia | lia |].
    rewrite (surjective_pairing (shr _ _ _)). rewrite He.
    f_equal. lia. }
  rewrite Hfirst.
  destruct (shr_spec (shr_record_of_loc (Zpos m * 2 ^ k) loc_Exact)
              (e - k) k) as (_ & Hm1 & Hi1); [cbn [shr_record_of_loc shr_m]; nia | lia |].
  change (shr_m (shr_record_of_loc (Zpos m * 2 ^ k) loc_Exact))
    with (Zpos m * 2 ^ k) in Hm1.
  rewrite Z.div_mul in Hm1 by lia.
  assert (Hexact :
            inexact (fst (shr (shr_record_of_loc (Zpos m * 2 ^ k) loc_Exact)
                            (e - k) k)) = false).
  { apply Hi1. split; [reflexivity|].
    change (shr_m (shr_record_of_loc (Zpos m * 2 ^ k) loc_Exact))
      with (Zpos m * 2 ^ k).
    apply Z.mod_mul. lia. }
  rewrite (loc_of_shr_record_exact _ Hexact), Hm1.
  cbn [round_nearest_even].
  unfold shr_fexp. rewrite Hcanon, Z.sub_diag.
  cbn [shr shr_record_of_loc shr_m].
  replace (e <=? PyFloat.emax - PyFloat.prec) with true
    by (symmetry; apply Z.leb_le; unfold PyFloat.emax, PyFloat.prec; lia).
  reflexivity.
Qed.

(** [1.0 * a] is [a]. *)
Lemma mul_one_l (a : PyFloat.t) :
  PyFloat.valid a = true -> PyFloat.mul PyFloat.one a = a.
Proof.
  intros Hvalid.
  destruct a as [s|s| |s m e]; try reflexivity.
  unfold PyFloat.mul, PyFloat.one, SFmul. cbn [xorb].
  change (SpecFloat.bounded PyFloat.prec PyFloat.emax m e = true) in Hvalid.
  rewrite Pos2Z.inj_mul, Z.mul_comm.
  change (Zpos 4503599627370496) with (2 ^ 52).
  replace (-52 + e) with (e - 52) by lia.
  apply binary_round_aux_exact; [exact Hvalid | lia].
Qed.

(** Multiplying a positive float by a rate does not increase it. *)
Lemma mul_rate_below (ma : positive) (ea : Z) (b : PyFloat.t) :
  SpecFloat.bounded PyFloat.prec PyFloat.emax ma ea = true ->
  PyFloat.is_rate b = true ->
  PyFloat.valid (PyFloat.mul (S754_finite false ma ea) b) = true
  /\ PyFloat.leb PyFloat.zero (PyFloat.mul (S754_finite false ma ea) b)
     = true
  /\ PyFloat.leb (PyFloat.mul (S754_finite false ma ea) b)
       (S754_finite false ma ea)
     = true.
Proof.
  intros Hba Hb.
  destruct (is_rate_cases b Hb) as [[sb ->]|(mb & eb & -> & Hbb & Heb & Hmb)].
  - destruct sb; repeat split.
  - unfold PyFloat.mul, SFmul. cbn [xorb].
    destruct (bounded_spec ma ea Hba) as [Hca _].
    assert (Hpb : 0 < 2 ^ (- eb)) by (apply Z.pow_pos_nonneg; lia).
    apply binary_round_aux_below; [lia | | exact Hba | lia |].
    + pose proof (Zdigits2_mono (Zpos ma) (Zpos (ma * mb)) ltac:(nia)).
      rewrite !fexp64_eq in *. lia.
    + cbn [loc_inexact]. replace (ea - (ea + eb)) with (- eb) by lia.
      rewrite Pos2Z.inj_mul. nia.
Qed.

(** Truncating a float between [0.0] and a float that holds the integer
    [n] gives an integer between 0 and [n]. *)
Lemma float_to_int_below (a : PyFloat.t) (mn : positive) (k n : Z) :
  0 <= k -> 0 <= n ->
  Zpos mn = n * 2 ^ k ->
  52 <= Zdigits2 (Zpos mn) - 1 ->
  PyFloat.valid a = true ->
  PyFloat.leb PyFloat.zero a = true ->
  PyFloat.leb a (S754_finite false mn (- k)) = true ->
  exists i : Z, float_to_int a = inr i /\ 0 <= i <= n.
Proof.
  intros Hk Hn Hmn Hdig Hvalid Hzero Hle.
  destruct a as [s|s| |s m e]; try discriminate.
  - exists 0. split; [reflexivity | lia].
  - destruct s; discriminate.
  - destruct s; [discriminate|].
    change (SpecFloat.bounded PyFloat.prec PyFloat.emax m e = true) in Hvalid.
    destruct (bounded_spec m e Hvalid) as [Hcanon _].
    destruct (Zdigits2_bounds (Zpos m) ltac:(lia)) as [_ Hhi].
    destruct (Zdigits2_bounds (Zpos mn) ltac:(lia)) as [Hnlo _].
    assert (Hd : Zdigits2 (Zpos m) <= 53)
      by (rewrite fexp64_eq in Hcanon; lia).
    assert (Hm53 : Zpos m < 2 ^ 53).
    { assert (2 ^ Zdigits2 (Zpos m) <= 2 ^ 53)
        by (apply Z.pow_le_mono_r; lia).
      lia. }
    assert (Hn52 : 2 ^ 52 <= Zpos mn).
    { assert (2 ^ 52 <= 2 ^ (Zdigits2 (Zpos mn) - 1))
        by (apply Z.pow_le_mono_r; lia).
      lia. }
    assert (Hpk : 0 < 2 ^ k) by (apply Z.pow_pos_nonneg; lia).
    apply leb_finite_inv in Hle.
    assert (He : e <= - k) by lia.
    assert (Hbound : Zpos m <= n * 2 ^ (- e)).
    { destruct Hle as [Hlt|[-> Hm]].
      - replace (- e) with (k + (- e - k)) by lia.
        rewrite Z.pow_add_r by lia.
        assert (2 <= 2 ^ (- e - k)).
        { change 2 with (2 ^ 1) at 1. apply Z.pow_le_mono_r; lia. }
        change (2 ^ 53) with (2 * 2 ^ 52) in Hm53. nia.
      - rewrite Z.opp_involutive. lia. }
    cbn [float_to_int].
    destruct (Z.leb_spec 0 e) as [He0|He0].
    + assert (e = 0) by lia. subst e.
      assert (k = 0) by lia. subst k.
      eexists. split; [reflexivity|]. cbn in Hbound |- *. lia.
    + eexists. split; [reflexivity|].
      assert (Hpe : 0 < 2 ^ (- e)) by (apply Z.pow_pos_nonneg; lia).
      split; [apply Z.div_pos; lia|].
      apply Z.div_le_upper_bound; [lia|]. lia.
Qed.

Lemma length_str_repeat (c : N) (n : Z) :
  Z.of_nat (length (str_repeat c n)) = Z.max 0 n.
Proof. unfold str_repeat. rewrite repeat_length. lia. Qed.

(** A bar drawn for a rate has [bar_length] cells when [bar_length] is a
    float, as 40 and 50 are. *)
Lemma visual_bar_cells (bar_length k : Z) (mn : positive)
      (rate : PyFloat.t) :
  PyFloat.of_int bar_length = S754_finite false mn (- k) ->
  SpecFloat.bounded PyFloat.prec PyFloat.emax mn (- k) = true ->
  0 <= k -> 0 <= bar_length ->
  Zpos mn = bar_length * 2 ^ k ->
  52 <= Zdigits2 (Zpos mn) - 1 ->
  PyFloat.is_rate rate = true ->
  exists filled : Z,
    float_to_int (PyFloat.mul (PyFloat.of_int bar_length) rate)
    = inr filled
    /\ 0 <= filled <= bar_length
    /\ visual_bar bar_length rate
       = inr (str_repeat full_block filled
                ++ str_repeat light_shade (bar_length - filled))
    /\ Z.of_nat (length (str_repeat full_block filled
                           ++ str_repeat light_shade
                                (bar_length - filled)))
       = bar_length.
Proof.
  intros Hfloat Hb Hk Hn Hmn Hdig Hrate.
  destruct (mul_rate_below mn (- k) rate Hb Hrate) as (Hv & Hz & Hle).
  destruct (float_to_int_below _ mn k bar_length Hk Hn Hmn Hdig Hv Hz Hle)
    as (filled & Hint & Hrange).
  exists filled. unfold visual_bar. rewrite Hfloat, Hint.
  repeat split; try lia.
  rewrite length_app, Nat2Z.inj_add, !length_str_repeat. lia.
Qed.

End MoreFloatFacts.

(** * Properties of [self.results] *)

Section DictFacts.
Context {V : Type}.

Lemma dict_get_set_same (d : list (string * V)) (key : string) (v : V) :
  dict_get (dict_set d key v) key = Some v.
Proof.
  induction d as [|[k v'] d IH]; cbn [dict_set dict_get].
  - now rewrite String.eqb_refl.
  - destruct (String.eqb k key) eqn:Hk; cbn [dict_get]; rewrite Hk;
      [reflexivity | exact IH].
Qed.

Lemma dict_get_set_other (d : list (string * V)) (key key' : string)
      (v : V) :
  key' <> key -> dict_get (dict_set d key v) key' = dict_get d key'.
Proof.
  intros Hne.
  induction d as [|[k v'] d IH]; cbn [dict_set dict_get].
  - destruct (String.eqb_spec key key'); [congruence | reflexivity].
  - destruct (String.eqb_spec k key) as [->|Hk]; cbn [dict_get].
    + destruct (String.eqb_spec key key'); [congruence | reflexivity].
    + destruct (String.eqb k key'); [reflexivity | exact IH].
Qed.

End DictFacts.

(** * More properties of a pass *)

Section PassOutcome.
Variable self : QuantumDatabaseDemo.
Variable algorithm_type : string.

(** On a backend that always returns a sample the loop runs to its end. *)
Lemma for_each_search_stage_total (catalog : list (string * string)) :
  (forall history circuit,
      returns_samples
        (device self history circuit (shots_per_test self))) ->
  forall (carried : list PyFloat.t * Z) (w : World),
  exists final,
    fst (for_each catalog (search_stage self algorithm_type) carried w)
    = inr final.
Proof.
  intros Hdevice.
  induction catalog as [|[name target] catalog IH]; intros carried w.
  - now exists carried.
  - rewrite for_each_cons, search_stage_run. cbv zeta.
    destruct (Hdevice (calls w)
                (Spec.stage_circuit algorithm_type target (snd carried)))
      as (m & ms & ->).
    apply IH.
Qed.

Lemma run_multi_stage_search_unfold (w : World) :
  run_multi_stage_search self algorithm_type w
  = match for_each (targets self) (search_stage self algorithm_type)
            ([], 0) w with
    | (inr (stage_results, _), w1) =>
        (inr (stage_results, np_prod stage_results),
         {| calls := calls w1;
            results :=
              dict_set (results w1) algorithm_type
                {| stages := stage_results;
                   total := np_prod stage_results |} |})
    | (inl e, w1) => (inl e, w1)
    end.
Proof.
  unfold run_multi_stage_search, bind, store_results.
  destruct (for_each (targets self) (search_stage self algorithm_type)
              ([], 0) w) as [[e|[stage_results depth]] w1]; reflexivity.
Qed.

Lemma run_multi_stage_search_world (w : World)
      (stage_results : list PyFloat.t) (total_success : PyFloat.t) :
  fst (run_multi_stage_search self algorithm_type w)
  = inr (stage_results, total_success) ->
  results (snd (run_multi_stage_search self algorithm_type w))
  = dict_set (results w) algorithm_type
      {| stages := stage_results; total := total_success |}
  /\ length (calls (snd (run_multi_stage_search self algorithm_type w)))
     = (length (calls w) + length (targets self))%nat.
Proof.
  rewrite run_multi_stage_search_unfold.
  destruct (for_each_search_stage self algorithm_type (targets self)
              ([], 0) w) as (pass & _ & Hresults & _).
  pose proof (for_each_search_stage_length self algorithm_type
                (targets self) ([], 0) w) as Hlen.
  destruct (for_each (targets self) (search_stage self algorithm_type)
              ([], 0) w) as [[e'|[results0 depth]] w1];
    cbn [fst snd] in *; [discriminate|].
  intros [= <- <-]. cbn [results calls]. rewrite Hresults.
  split; [reflexivity|].
  now destruct (Hlen _ eq_refl).
Qed.

Lemma run_multi_stage_search_total (w : World) :
  (forall history circuit,
      returns_samples
        (device self history circuit (shots_per_test self))) ->
  exists stage_results total_success,
    fst (run_multi_stage_search self algorithm_type w)
    = inr (stage_results, total_success).
Proof.
  intros Hdevice. rewrite run_multi_stage_search_unfold.
  destruct (for_each_search_stage_total (targets self) Hdevice ([], 0) w)
    as [[stage_results depth] Hfinal].
  destruct (for_each (targets self) (search_stage self algorithm_type)
              ([], 0) w) as [[e'|[results0 depth0]] w1];
    cbn [fst] in *; [discriminate|].
  now eexists; eexists.
Qed.

End PassOutcome.

(** * Properties of the measured strings *)

Section MeasurementFacts.

Lemma bits_of_measured_string (m : Measurement) :
  bits_of_string (measured_string m) = Some m.
Proof.
  unfold measured_string.
  induction m as [|bit m IH]; [reflexivity|].
  cbn [map string_of_list_ascii bits_of_string]. rewrite IH.
  destruct bit; reflexivity.
Qed.

Lemma measured_string_of_bits (s : string) (m : Measurement) :
  bits_of_string s = Some m -> measured_string m = s.
Proof.
  unfold measured_string. revert m.
  induction s as [|c s IH]; intros m; cbn [bits_of_string].
  - now intros [= <-].
  - destruct (bits_of_string s) as [bits|]; [|discriminate].
    destruct (Ascii.eqb_spec c "1") as [->|_].
    + intros [= <-]. cbn. now rewrite (IH bits).
    + destruct (Ascii.eqb_spec c "0") as [->|_]; [|discriminate].
      intros [= <-]. cbn. now rewrite (IH bits).
Qed.

Lemma measured_string_matches (s : string) (m : Measurement) :
  measured_string m = s <-> bits_of_string s = Some m.
Proof.
  split.
  - intros <-. apply bits_of_measured_string.
  - apply measured_string_of_bits.
Qed.

Lemma length_measured_string (m : Measurement) :
  String.length (measured_string m) = length m.
Proof.
  unfold measured_string.
  induction m as [|bit m IH]; [reflexivity|].
  cbn. now rewrite IH.
Qed.

Lemma matching_Permutation (ms ms' : list Measurement) (target : string) :
  Permutation ms ms' ->
  Permutation (matching ms target) (matching ms' target).
Proof.
  unfold matching.
  induction 1 as [|m l l' _ IH|m m' l|l l' l'' _ IH1 _ IH2].
  - constructor.
  - cbn [filter]. destruct (String.eqb _ target); [now constructor | exact IH].
  - cbn [filter].
    destruct (String.eqb (measured_string m) target),
             (String.eqb (measured_string m') target);
      try apply Permutation_refl.
    apply perm_swap.
  - eapply perm_trans; [exact IH1 | exact IH2].
Qed.

Lemma matching_nil_of_not_bits (ms : list Measurement) (target : string) :
  bits_of_string target = None -> matching ms target = [].
Proof.
  intros Hnone. unfold matching.
  induction ms as [|m ms IH]; [reflexivity|].
  cbn [filter]. rewrite IH.
  destruct (String.eqb_spec (measured_string m) target) as [Heq|_];
    [|reflexivity].
  apply measured_string_matches in Heq. congruence.
Qed.

End MeasurementFacts.

(** * Properties of the cumulative series *)

Section CurveFacts.

Lemma skipn_nth_error {A : Type} (l : list A) (i : nat) (a : A) :
  nth_error l i = Some a -> skipn i l = a :: skipn (S i) l.
Proof.
  revert i. induction l as [|b l IH]; intros [|i]; cbn; try discriminate.
  - now intros [= ->].
  - intros H. now rewrite (IH i H).
Qed.

Lemma list_last_run {A : Type} (l : list A) (a d : A) (w : World) :
  list_last (l ++ [a]) w = (inr a, w).
Proof.
  unfold list_last. apply list_get_run.
  rewrite length_app. cbn [length].
  replace (length l + 1 - 1)%nat with (length l) by lia.
  rewrite nth_error_app2, Nat.sub_diag by lia. reflexivity.
Qed.

Lemma cumulative_loop (std_stages ver_stages : list PyFloat.t) :
  forall (len start : nat) (sc vc : list PyFloat.t) (s v : PyFloat.t)
         (w : World),
    (start + len)%nat = length std_stages ->
    (length std_stages <= length ver_stages)%nat ->
    for_each (seq start len)
      (fun '(std_cumulative, ver_cumulative) i =>
         std_last <- list_last std_cumulative ;;
         std_rate <- list_get std_stages i ;;
         let std_cumulative :=
           std_cumulative ++ [PyFloat.mul std_last std_rate] in
         ver_last <- list_last ver_cumulative ;;
         ver_rate <- list_get ver_stages i ;;
         let ver_cumulative :=
           ver_cumulative ++ [PyFloat.mul ver_last ver_rate] in
         ret (std_cumulative, ver_cumulative))
      (sc ++ [s], vc ++ [v]) w
    = (inr (sc ++ [s]
              ++ running_products s (firstn len (skipn start std_stages)),
            vc ++ [v]
              ++ running_products v (firstn len (skipn start ver_stages))),
       w).
Proof.
  induction len as [|len IH]; intros start sc vc s v w Hlen Hle.
  - reflexivity.
  - cbn [seq]. rewrite for_each_cons.
    destruct (nth_error std_stages start) as [std_rate|] eqn:Hs;
      [|apply nth_error_None in Hs; lia].
    destruct (nth_error ver_stages start) as [ver_rate|] eqn:Hv;
      [|apply nth_error_None in Hv; lia].
    unfold bind at 1. rewrite (list_last_run sc s s).
    unfold bind at 1. rewrite (list_get_run _ _ _ _ Hs).
    cbv zeta.
    unfold bind at 1. rewrite (list_last_run vc v v).
    unfold bind at 1. rewrite (list_get_run _ _ _ _ Hv).
    unfold ret at 1.
    rewrite (IH (S start) (sc ++ [s]) (vc ++ [v])) by lia.
    rewrite (skipn_nth_error _ _ _ Hs), (skipn_nth_error _ _ _ Hv).
    cbn [firstn running_products]. rewrite <- !app_assoc. reflexivity.
Qed.

Lemma cumulative_success_run (s v : PyFloat.t)
      (std_rest ver_rest : list PyFloat.t) (w : World) :
  (length std_rest <= length ver_rest)%nat ->
  cumulative_success (s :: std_rest) (v :: ver_rest) w
  = (inr (s :: running_products s std_rest,
          v :: running_products v (firstn (length std_rest) ver_rest)),
     w).
Proof.
  intros Hle. unfold cumulative_success.
  unfold bind at 1. rewrite (list_get_run _ _ s) by reflexivity.
  unfold bind at 1. rewrite (list_get_run _ _ v) by reflexivity.
  replace (length (s :: std_rest) - 1)%nat with (length std_rest)
    by (cbn [length]; lia).
  pose proof (cumulative_loop (s :: std_rest) (v :: ver_rest)
                (length std_rest) 1 [] [] s v w) as Hloop.
  cbn [app skipn] in Hloop. cbv zeta.
  rewrite Hloop by (cbn [length]; lia).
  rewrite firstn_all. reflexivity.
Qed.

Lemma length_running_products (x : PyFloat.t) (l : list PyFloat.t) :
  length (running_products x l) = length l.
Proof.
  revert x. induction l as [|r l IH]; intros x; [reflexivity|].
  cbn. now rewrite IH.
Qed.

(** Entry [i] of the series is the product of the first [i + 1] rates. *)
Lemma nth_running_products (l : list PyFloat.t) :
  forall (x : PyFloat.t) (i : nat),
    (i <= length l)%nat ->
    nth_error (x :: running_products x l) i
    = Some (fold_left PyFloat.mul (firstn i l) x).
Proof.
  induction l as [|r l IH]; intros x [|i] Hi; try reflexivity.
  - cbn in Hi. lia.
  - cbn [length] in Hi. cbn [running_products nth_error firstn fold_left].
    apply (IH (PyFloat.mul x r) i). lia.
Qed.

Lemma is_rate_valid (a : PyFloat.t) :
  PyFloat.is_rate a = true -> PyFloat.valid a = true.
Proof. unfold PyFloat.is_rate. now intros [H _]%andb_true_iff. Qed.

Lemma np_prod_cons (x : PyFloat.t) (l : list PyFloat.t) :
  PyFloat.valid x = true ->
  np_prod (x :: l) = fold_left PyFloat.mul l x.
Proof. intros Hx. unfold np_prod. cbn [fold_left]. now rewrite mul_one_l. Qed.

Lemma firstn_snoc {A : Type} (l : list A) :
  forall (i : nat) (a : A),
    nth_error l i = Some a -> firstn (S i) l = firstn i l ++ [a].
Proof.
  induction l as [|b l IH]; intros [|i] a Hi; cbn in Hi; try discriminate.
  - now injection Hi as ->.
  - change (firstn (S (S i)) (b :: l)) with (b :: firstn (S i) l).
    now rewrite (IH i a Hi).
Qed.

Lemma Forall_firstn {A : Type} (P : A -> Prop) (n : nat) (l : list A) :
  Forall P l -> Forall P (firstn n l).
Proof.
  revert n. induction l as [|a l IH]; intros [|n] H; cbn; try constructor.
  - now inversion H.
  - apply IH. now inversion H.
Qed.

(** The series of the rates of a run: its length, its entries, its
    descent and its last entry. *)
Lemma cumulative_series (x : PyFloat.t) (l : list PyFloat.t) :
  Forall (fun r => PyFloat.is_rate r = true) (x :: l) ->
  length (x :: running_products x l) = length (x :: l)
  /\ (forall i : nat,
         (i < length (x :: l))%nat ->
         nth_error (x :: running_products x l) i
         = Some (np_prod (firstn (S i) (x :: l))))
  /\ (forall (i : nat) (a b : PyFloat.t),
         nth_error (x :: running_products x l) i = Some a ->
         nth_error (x :: running_products x l) (S i) = Some b ->
         PyFloat.leb b a = true)
  /\ nth_error (x :: running_products x l) (length l)
     = Some (np_prod (x :: l)).
Proof.
  intros Hrates.
  assert (Hx : PyFloat.is_rate x = true) by now inversion Hrates.
  assert (Hl : Forall (fun r => PyFloat.is_rate r = true) l)
    by now inversion Hrates.
  assert (Hentry : forall i : nat,
             (i < length (x :: l))%nat ->
             nth_error (x :: running_products x l) i
             = Some (np_prod (firstn (S i) (x :: l)))).
  { intros i Hi. cbn [length] in Hi. cbn [firstn].
    rewrite np_prod_cons by now apply is_rate_valid.
    apply nth_running_products. lia. }
  split; [cbn [length]; now rewrite length_running_products|].
  split; [exact Hentry|]. split.
  - intros i a b Ha Hb.
    assert (Hi : (S i < length (x :: l))%nat).
    { assert (Hlt : (S i < length (x :: running_products x l))%nat)
        by (apply nth_error_Some; congruence).
      cbn [length] in Hlt |- *.
      now rewrite length_running_products in Hlt. }
    rewrite Hentry in Ha, Hb by lia.
    injection Ha as <-. injection Hb as <-.
    cbn [length] in Hi.
    destruct (nth_error l i) as [r|] eqn:Hr;
      [|apply nth_error_None in Hr; lia].
    assert (Hsplit : firstn (S (S i)) (x :: l)
                     = firstn (S i) (x :: l) ++ [r]).
    { change (firstn (S (S i)) (x :: l)) with (x :: firstn (S i) l).
      change (firstn (S i) (x :: l)) with (x :: firstn i l).
      now rewrite (firstn_snoc l i r Hr). }
    change (PyFloat.leb (np_prod (firstn (S (S i)) (x :: l)))
              (np_prod (firstn (S i) (x :: l))) = true).
    rewrite Hsplit. unfold np_prod at 1. rewrite fold_left_app.
    cbn [fold_left]. fold (np_prod (firstn (S i) (x :: l))).
    apply mul_rate.
    + apply np_prod_rate. now apply Forall_firstn.
    + rewrite Forall_forall in Hl. apply Hl. eapply nth_error_In, Hr.
  - rewrite Hentry by (cbn [length]; lia).
    change (S (length l)) with (length (x :: l)). now rewrite firstn_all.
Qed.

End CurveFacts.

(** * Properties of the report functions *)

Section ReportFacts.

Lemma get_results_run (key : string) (r : RunResult) (w : World) :
  dict_get (results w) key = Some r -> get_results key w = (inr r, w).
Proof. unfold get_results. now intros ->. Qed.

Lemma display_final_comparison_run (self : QuantumDatabaseDemo) (w : World)
      (standard vermicular : RunResult) :
  dict_get (results w) "standard" = Some standard ->
  dict_get (results w) "vermicular" = Some vermicular ->
  length (stages standard) = length (targets self) ->
  length (stages vermicular) = length (targets self) ->
  exists advantages : list PyFloat.t,
    display_final_comparison self w
    = (inr (advantages,
            reported_ratio (total vermicular) (total standard)), w)
    /\ length advantages = length (targets self)
    /\ forall (i : nat) (std_rate ver_rate : PyFloat.t),
        nth_error (stages standard) i = Some std_rate ->
        nth_error (stages vermicular) i = Some ver_rate ->
        nth_error advantages i = Some (reported_ratio ver_rate std_rate).
Proof.
  intros Hstd Hver Hls Hlv.
  destruct (comparison_loop standard vermicular (targets self) 0 [] w)
    as (advantages & Hloop & Hlen & Hnth); [lia | lia |].
  exists advantages. split; [|split; [exact Hlen|]].
  - unfold display_final_comparison, enumerate.
    unfold bind at 1. rewrite (get_results_run _ _ _ Hstd).
    unfold bind at 1. rewrite (get_results_run _ _ _ Hver).
    unfold bind at 1. rewrite Hloop. cbn [app].
    unfold bind at 1. rewrite ratio_run. reflexivity.
  - intros i std_rate ver_rate Hi Hj. apply Hnth; [exact Hi | exact Hj |].
    assert (Hlt : (i < length (stages standard))%nat)
      by (apply nth_error_Some; congruence).
    lia.
Qed.

Lemma save_results_run (w : World) (standard vermicular : RunResult) :
  dict_get (results w) "standard" = Some standard ->
  dict_get (results w) "vermicular" = Some vermicular ->
  save_results w
  = (inr (if PyFloat.ltb PyFloat.zero (total standard)
          then Some (PyFloat.div (total vermicular) (total standard))
          else None), w).
Proof.
  intros Hstd Hver. unfold save_results.
  unfold bind at 1. rewrite (get_results_run _ _ _ Hstd).
  destruct (PyFloat.ltb PyFloat.zero (total standard)) eqn:Hpos;
    [|reflexivity].
  unfold bind at 1. rewrite (get_results_run _ _ _ Hver).
  unfold bind at 1. rewrite (get_results_run _ _ _ Hstd).
  unfold bind, float_truediv. now rewrite positive_is_nonzero.
Qed.

Lemma create_comparison_plot_run (w : World) (standard vermicular : RunResult)
      (s v : PyFloat.t) (std_rest ver_rest : list PyFloat.t) :
  dict_get (results w) "standard" = Some standard ->
  dict_get (results w) "vermicular" = Some vermicular ->
  stages standard = s :: std_rest ->
  stages vermicular = v :: ver_rest ->
  (length std_rest <= length ver_rest)%nat ->
  create_comparison_plot w
  = (inr (s :: running_products s std_rest,
          v :: running_products v (firstn (length std_rest) ver_rest)), w).
Proof.
  intros Hstd Hver Hs Hv Hle. unfold create_comparison_plot.
  unfold bind at 1. rewrite (get_results_run _ _ _ Hstd).
  unfold bind at 1. rewrite (get_results_run _ _ _ Hver).
  rewrite Hs, Hv. now apply cumulative_success_run.
Qed.

End ReportFacts.

(** * Properties of the confirmation and of the platform menu *)

Section MenuFacts.

Lemma ascii_lower_y (c : ascii) :
  Ascii.eqb (ascii_lower c) "y" = Ascii.eqb c "y" || Ascii.eqb c "Y".
Proof. destruct c as [[|] [|] [|] [|] [|] [|] [|] [|]]; reflexivity. Qed.

Lemma ascii_lower_e (c : ascii) :
  Ascii.eqb (ascii_lower c) "e" = Ascii.eqb c "e" || Ascii.eqb c "E".
Proof. destruct c as [[|] [|] [|] [|] [|] [|] [|] [|]]; reflexivity. Qed.

Lemma ascii_lower_s (c : ascii) :
  Ascii.eqb (ascii_lower c) "s" = Ascii.eqb c "s" || Ascii.eqb c "S".
Proof. destruct c as [[|] [|] [|] [|] [|] [|] [|] [|]]; reflexivity. Qed.

Lemma lower_yes (confirm : string) :
  lower confirm = "yes" <-> In confirm yes_spellings.
Proof.
  split.
  - destruct confirm as [|c1 [|c2 [|c3 [|c4 rest]]]]; cbn [lower];
      try discriminate.
    intros [= H1 H2 H3].
    apply Ascii.eqb_eq in H1, H2, H3.
    rewrite ascii_lower_y in H1. rewrite ascii_lower_e in H2.
    rewrite ascii_lower_s in H3.
    apply orb_true_iff in H1, H2, H3.
    rewrite !Ascii.eqb_eq in H1, H2, H3.
    destruct H1 as [-> | ->], H2 as [-> | ->], H3 as [-> | ->];
      cbn; tauto.
  - cbn. intros [<-|[<-|[<-|[<-|[<-|[<-|[<-|[<-|[]]]]]]]]]; reflexivity.
Qed.

Lemma run_complete_demo_cancelled (self : QuantumDatabaseDemo)
      (platform confirm : string) (w : World) :
  platform <> "simulator" ->
  ~ In confirm yes_spellings ->
  run_complete_demo self platform confirm w = (inr (inr None), w).
Proof.
  intros Hp Hc. unfold run_complete_demo.
  destruct (String.eqb_spec platform "simulator"); [congruence|].
  destruct (String.eqb_spec (lower confirm) "yes") as [Hyes|_];
    [now apply lower_yes in Hyes|].
  reflexivity.
Qed.

Lemma run_complete_demo_proceeds (self : QuantumDatabaseDemo)
      (platform confirm : string) :
  platform = "simulator" \/ In confirm yes_spellings ->
  run_complete_demo self platform confirm
  = (_ <- run_multi_stage_search self "standard" ;;
     _ <- run_multi_stage_search self "vermicular" ;;
     comparison <- display_final_comparison self ;;
     summary <- visual_summary ;;
     match summary with
     | inl e => ret (inl e)
     | inr bars =>
         curves <- create_comparison_plot ;;
         factor <- save_results ;;
         ret (inr (Some {| comparison := comparison;
                           bars := bars;
                           curves := curves;
                           improvement_factor := factor |}))
     end).
Proof.
  intros Hgo. unfold run_complete_demo.
  destruct Hgo as [-> | Hyes]; [reflexivity|].
  apply lower_yes in Hyes. rewrite Hyes.
  rewrite String.eqb_refl, andb_false_r. reflexivity.
Qed.

Lemma choose_platform_cases (choice : string) :
  (choice = "2" /\ choose_platform choice = "iqm")
  \/ (choice = "3" /\ choose_platform choice = "rigetti")
  \/ (choice <> "2" /\ choice <> "3"
      /\ choose_platform choice = "simulator").
Proof.
  unfold choose_platform. cbn [dict_get].
  destruct (String.eqb_spec "1" choice) as [<-|H1].
  - right. right. repeat split; discriminate.
  - destruct (String.eqb_spec "2" choice) as [<-|H2]; [now left|].
    destruct (String.eqb_spec "3" choice) as [<-|H3]; [right; now left|].
    right. right. repeat split; congruence.
Qed.

End MenuFacts.

(** * Properties of the complete demo *)

Section DemoFacts.

Lemma bind_run {A B : Type} (m : M A) (k : A -> M B) (w : World) (a : A) :
  fst (m w) = inr a -> bind m k w = k a (snd (m w)).
Proof. unfold bind. destruct (m w) as [[e|a'] w']; cbn; congruence. Qed.

Lemma visual_bar_rate (bar_length k : Z) (mn : positive)
      (rate : PyFloat.t) :
  PyFloat.of_int bar_length = S754_finite false mn (- k) ->
  SpecFloat.bounded PyFloat.prec PyFloat.emax mn (- k) = true ->
  0 <= k -> 0 <= bar_length ->
  Zpos mn = bar_length * 2 ^ k ->
  52 <= Zdigits2 (Zpos mn) - 1 ->
  PyFloat.is_rate rate = true ->
  exists bar : UnicodeString,
    visual_bar bar_length rate = inr bar
    /\ is_bar bar_length bar
    /\ Z.of_nat (length bar) = bar_length.
Proof.
  intros Hfloat Hb Hk Hn Hmn Hdig Hrate.
  destruct (visual_bar_cells bar_length k mn rate Hfloat Hb Hk Hn Hmn Hdig
              Hrate) as (filled & _ & Hrange & Hbar & Hlen).
  eexists. split; [exact Hbar|]. split; [|exact Hlen].
  now exists filled.
Qed.

Lemma visual_bar_forty (rate : PyFloat.t) :
  PyFloat.is_rate rate = true ->
  exists bar : UnicodeString,
    visual_bar 40 rate = inr bar
    /\ is_bar 40 bar
    /\ Z.of_nat (length bar) = 40.
Proof.
  apply (visual_bar_rate 40 47 5629499534213120);
    try reflexivity; try lia.
Qed.

Lemma visual_bar_fifty (rate : PyFloat.t) :
  PyFloat.is_rate rate = true ->
  exists bar : UnicodeString,
    visual_bar 50 rate = inr bar
    /\ is_bar 50 bar
    /\ Z.of_nat (length bar) = 50.
Proof.
  apply (visual_bar_rate 50 47 7036874417766400);
    try reflexivity; try lia.
Qed.

Lemma print_visual_bars_run (standard vermicular : PyFloat.t) :
  PyFloat.is_rate standard = true ->
  PyFloat.is_rate vermicular = true ->
  exists std_bar ver_bar : UnicodeString,
    _print_visual_bars standard vermicular = inr (std_bar, ver_bar)
    /\ is_bar 40 std_bar /\ Z.of_nat (length std_bar) = 40
    /\ is_bar 40 ver_bar /\ Z.of_nat (length ver_bar) = 40.
Proof.
  intros Hs Hv.
  destruct (visual_bar_forty standard Hs) as (std_bar & Hstd & Hsb & Hsl).
  destruct (visual_bar_forty vermicular Hv) as (ver_bar & Hver & Hvb & Hvl).
  exists std_bar, ver_bar. unfold _print_visual_bars. cbv zeta.
  rewrite Hstd, Hver. now repeat split.
Qed.

Lemma visual_summary_run (w : World) (standard vermicular : RunResult) :
  dict_get (results w) "standard" = Some standard ->
  dict_get (results w) "vermicular" = Some vermicular ->
  visual_summary w
  = (inr (_print_visual_bars (total standard) (total vermicular)), w).
Proof.
  intros Hstd Hver. unfold visual_summary.
  unfold bind at 1. rewrite (get_results_run _ _ _ Hstd).
  unfold bind at 1. rewrite (get_results_run _ _ _ Hver).
  reflexivity.
Qed.

(** The curves of two runs of equal length over rates. *)
Lemma cumulative_success_series (std_stages ver_stages : list PyFloat.t)
      (w : World) :
  std_stages <> [] ->
  length std_stages = length ver_stages ->
  exists s v std_rest ver_rest,
    std_stages = s :: std_rest
    /\ ver_stages = v :: ver_rest
    /\ cumulative_success std_stages ver_stages w
       = (inr (s :: running_products s std_rest,
               v :: running_products v ver_rest), w).
Proof.
  intros Hne Hlen.
  destruct std_stages as [|s std_rest]; [congruence|].
  destruct ver_stages as [|v ver_rest]; [discriminate|].
  cbn [length] in Hlen.
  exists s, v, std_rest, ver_rest. split; [reflexivity|].
  split; [reflexivity|].
  rewrite cumulative_success_run by lia.
  replace (length std_rest) with (length ver_rest) by lia.
  now rewrite firstn_all.
Qed.

End DemoFacts.

(** * The circuits of a pass *)

Section ScheduleFacts.

Lemma two_iterations_success (target : string) :
  String.length target = 2%nat ->
  is_bit_string target = true ->
  Ideal.success_probability (create_standard_grover target 2) target
  = (/ 4)%R.
Proof.
  intros Hlen Hbits. unfold Ideal.success_probability.
  destruct (two_bit_patterns target Hlen Hbits) as [-> | [-> | [-> | ->]]];
    cbn [list_ascii_of_string Ideal.basis_from Ascii.eqb Bool.eqb];
    apply two_iterations_quarter; reflexivity.
Qed.

Lemma vermicular_one_iteration_finds (target : string) :
  String.length target = 2%nat ->
  is_bit_string target = true ->
  Ideal.success_probability (create_vermicular target 1) target = 1%R.
Proof.
  intros Hlen Hbits.
  rewrite <- (one_iteration_finds target Hlen Hbits).
  unfold Ideal.success_probability.
  destruct (Ideal.basis_from 0 (list_ascii_of_string target));
    [apply vermicular_same_outcome | reflexivity].
Qed.

(** The circuits a pass submits, stage by stage: what the log holds is
    scheduled, the first stage is always in it, and so is the stage after
    every call that returned samples. *)
Lemma pass_circuits (self : QuantumDatabaseDemo) (algorithm_type : string)
      (w : World) :
  exists pass : list Call,
    calls (snd (run_multi_stage_search self algorithm_type w))
    = calls w ++ pass
    /\ (forall (k : nat) (circuit : Circuit.t) (shots : Z),
           nth_error pass k = Some (circuit, shots) ->
           exists name target,
             nth_error (targets self) k = Some (name, target)
             /\ shots = shots_per_test self
             /\ circuit = scheduled_circuit algorithm_type k target)
    /\ (forall name target : string,
           nth_error (targets self) 0 = Some (name, target) ->
           nth_error pass 0
           = Some (scheduled_circuit algorithm_type 0 target,
                   shots_per_test self))
    /\ (forall (k : nat) (circuit : Circuit.t) (shots : Z)
               (name target : string),
           nth_error pass k = Some (circuit, shots) ->
           returns_samples
             (device self (calls w ++ firstn k pass) circuit shots) ->
           nth_error (targets self) (S k) = Some (name, target) ->
           nth_error pass (S k)
           = Some (scheduled_circuit algorithm_type (S k) target,
                   shots_per_test self))
    /\ (forall r,
           fst (run_multi_stage_search self algorithm_type w) = inr r ->
           length pass = length (targets self)).
Proof.
  destruct (for_each_search_stage self algorithm_type (targets self)
              ([], 0) w) as (pass & Hcalls & _ & Hpass).
  destruct (for_each_search_stage_progress self algorithm_type
              (targets self) ([], 0) w pass Hcalls)
    as (Hfirst & Hnext & _).
  pose proof (for_each_search_stage_length self algorithm_type
                (targets self) ([], 0) w) as Hlen.
  assert (Hscheduled :
            forall (k : nat) (circuit : Circuit.t) (shots : Z),
              nth_error pass k = Some (circuit, shots) ->
              exists name target,
                nth_error (targets self) k = Some (name, target)
                /\ shots = shots_per_test self
                /\ circuit = scheduled_circuit algorithm_type k target).
  { intros k circuit shots Hk.
    destruct (Hpass k circuit shots Hk) as (name & target & Hnth & Hs & Hc).
    exists name, target. split; [exact Hnth|]. split; [exact Hs|].
    rewrite Hc. unfold Spec.stage_circuit, scheduled_circuit. cbn [snd].
    destruct (String.eqb algorithm_type "standard") eqn:Halg;
      [|reflexivity].
    destruct k as [|k]; [reflexivity|].
    destruct pass as [|[first shots0] rest]; [discriminate|].
    destruct (Hpass 0%nat first shots0 eq_refl)
      as (name0 & target0 & _ & _ & Hc0).
    unfold Spec.stage_circuit in Hc0. rewrite Halg in Hc0.
    cbn [snd firstn accumulated_depth fold_right Z.add Z.ltb Z.compare]
      in Hc0.
    change (firstn (S k) ((first, shots0) :: rest))
      with ((first, shots0) :: firstn k rest).
    change (accumulated_depth ((first, shots0) :: firstn k rest))
      with (Circuit.depth first + accumulated_depth (firstn k rest)).
    pose proof (standard_depth_pos target0 1 ltac:(lia)) as Hdepth.
    rewrite <- Hc0 in Hdepth.
    pose proof (accumulated_depth_nonneg (firstn k rest)) as Hrest.
    destruct (Z.ltb_spec (0 + (Circuit.depth first
                               + accumulated_depth (firstn k rest))) 2);
      [lia | reflexivity]. }
  assert (Hentry :
            forall (k : nat) (name target : string),
              nth_error (targets self) k = Some (name, target) ->
              nth_error pass k <> None ->
              nth_error pass k
              = Some (scheduled_circuit algorithm_type k target,
                      shots_per_test self)).
  { intros k name target Hnth Hk.
    destruct (nth_error pass k) as [[circuit shots]|] eqn:Hcall;
      [|congruence].
    destruct (Hscheduled k circuit shots Hcall)
      as (name0 & target0 & Hnth0 & -> & ->).
    rewrite Hnth in Hnth0. now injection Hnth0 as <- <-. }
  exists pass. split; [|split; [exact Hscheduled|split; [|split]]].
  - rewrite run_multi_stage_search_unfold.
    destruct (for_each (targets self) (search_stage self algorithm_type)
                ([], 0) w) as [[e|[stage_results depth]] w1];
      exact Hcalls.
  - intros name target Hnth. apply (Hentry 0%nat name target Hnth).
    destruct pass as [|call rest]; [|discriminate].
    exfalso. apply Hfirst; [|reflexivity].
    intros Htargets. now rewrite Htargets in Hnth.
  - intros k circuit shots name target Hk Hreturns Hnth.
    apply (Hentry (S k) name target Hnth).
    apply (Hnext k circuit shots Hk Hreturns).
    apply nth_error_Some. congruence.
  - intros r Hr. rewrite run_multi_stage_search_unfold in Hr.
    remember (for_each (targets self) (search_stage self algorithm_type)
                ([], 0) w) as loop eqn:Hloop.
    destruct loop as [[e|final] w1]; [discriminate|].
    destruct (Hlen final eq_refl) as [Hlength _].
    cbn [snd] in Hcalls, Hlength.
    rewrite Hcalls, length_app in Hlength. lia.
Qed.

End ScheduleFacts.

(** * Further properties of the circuit builders *)

(** X1. On the ideal backend, one Grover iteration finds every two-bit
    pattern with certainty, with the Baseline and with the Augmented
    circuit. *)
Theorem one_iteration_finds_every_pattern (target : string) :
  String.length target = 2%nat ->
  is_bit_string target = true ->
  Ideal.success_probability (create_standard_grover target 1) target = 1%R
  /\ Ideal.success_probability (create_vermicular target 1) target = 1%R.
Proof.
  intros Hlen Hbits. split.
  - now apply one_iteration_finds.
  - now apply vermicular_one_iteration_finds.
Qed.

Lemma one_iteration_finds_every_pattern_witness :
  String.length "01" = 2%nat
  /\ is_bit_string "01" = true
  /\ Ideal.success_probability (create_vermicular "01" 1) "01" = 1%R.
Proof.
  split; [reflexivity|]. split; [reflexivity|].
  apply (one_iteration_finds_every_pattern "01"); reflexivity.
Defined.

(** X2. On the ideal backend, two Grover iterations overshoot: for every
    two-bit pattern each of the four outcomes, the target included, then
    has probability 1/4, with either circuit.  This is the circuit the
    Baseline strategy builds once the depth threshold is reached. *)
Theorem two_iterations_overshoot (target : string) (b : N) :
  String.length target = 2%nat ->
  is_bit_string target = true ->
  (b < 4)%N ->
  Ideal.outcome_probability (create_standard_grover target 2) b = (/ 4)%R
  /\ Ideal.outcome_probability (create_vermicular target 2) b = (/ 4)%R
  /\ Ideal.success_probability (create_standard_grover target 2) target
     = (/ 4)%R.
Proof.
  intros Hlen Hbits Hb.
  pose proof (two_iterations_quarter target b Hlen Hbits Hb) as Hq.
  split; [exact Hq|]. split; [now rewrite vermicular_same_outcome|].
  now apply two_iterations_success.
Qed.

Lemma two_iterations_overshoot_witness :
  String.length "11" = 2%nat
  /\ is_bit_string "11" = true
  /\ (3 < 4)%N
  /\ Ideal.outcome_probability (create_standard_grover "11" 2) 3%N
     = (/ 4)%R.
Proof.
  split; [reflexivity|]. split; [reflexivity|]. split; [reflexivity|].
  apply (two_iterations_overshoot "11" 3%N); reflexivity.
Defined.

(** X3. For a two-bit pattern the oracle negates the amplitude of the
    basis state that spells the pattern and leaves the other three
    amplitudes of the two-qubit register unchanged. *)
Theorem oracle_marks_exactly_target (target : string) (psi : Ideal.State)
        (b : N) :
  String.length target = 2%nat ->
  is_bit_string target = true ->
  (b < 4)%N ->
  exists t : N,
    Ideal.basis_from 0 (list_ascii_of_string target) = Some t
    /\ (t < 4)%N
    /\ Ideal.run (_apply_oracle Circuit.empty target) psi b
       = if N.eqb b t then Ideal.Copp (psi b) else psi b.
Proof.
  intros Hlen Hbits Hb.
  rewrite apply_oracle_app. cbn [Circuit.empty app].
  rewrite oracle_action. cbv zeta.
  destruct (two_bit_patterns target Hlen Hbits) as [-> | [-> | [-> | ->]]];
    eexists; (split; [reflexivity|]); (split; [reflexivity|]);
    destruct b as [|[[p|p|]|[p|p|]|]]; try lia; reflexivity.
Qed.

Lemma oracle_marks_exactly_target_witness :
  String.length "10" = 2%nat
  /\ is_bit_string "10" = true
  /\ (1 < 4)%N
  /\ exists t : N,
      Ideal.basis_from 0 (list_ascii_of_string "10") = Some t
      /\ (t < 4)%N
      /\ Ideal.run (_apply_oracle Circuit.empty "10") Ideal.ket0 1%N
         = if N.eqb 1 t then Ideal.Copp (Ideal.ket0 1%N)
           else Ideal.ket0 1%N.
Proof.
  split; [reflexivity|]. split; [reflexivity|]. split; [reflexivity|].
  apply (oracle_marks_exactly_target "10" Ideal.ket0 1%N); reflexivity.
Defined.

(** X4. The depth of both circuits as a function of the pattern and of the
    iteration count: 2 operations of superposition, and per iteration 10
    plus two bit-flips for every ['0'] of the pattern; the Augmented
    circuit adds 8 bit-flips around the iterations and 4 between any two
    of them.  A non-positive iteration count builds no iteration. *)
Theorem circuit_depth_formula (target : string) (iterations : Z) :
  Circuit.depth (create_standard_grover target iterations)
  = 2 + Z.max 0 iterations
        * (10 + 2 * Z.of_nat (length (Spec.zero_positions target)))
  /\ Circuit.depth (create_vermicular target iterations)
     = 10 + Z.max 0 iterations
            * (10 + 2 * Z.of_nat (length (Spec.zero_positions target)))
       + 4 * Z.max 0 (iterations - 1).
Proof.
  split; [apply standard_depth|].
  pose proof (standard_depth target iterations) as Hstd.
  rewrite create_standard_grover_closed in Hstd.
  rewrite create_vermicular_closed.
  unfold Circuit.depth, Spec.augmented, Spec.baseline in *.
  rewrite !length_app in *. rewrite length_concat_repeat in Hstd.
  change (length Spec.pulses) with 4%nat.
  destruct (Z.to_nat iterations) as [|n] eqn:Hn.
  - cbn [repeat Spec.interleave length]. cbn [Nat.mul] in Hstd. lia.
  - rewrite length_interleave. change (length Spec.pulses) with 4%nat.
    lia.
Qed.

(** X5. The Baseline circuit holds no decoupling pulse: deleting the pulse
    pairs leaves it as it is, and deleting them from the Augmented
    circuit a second time changes nothing more. *)
Theorem baseline_has_no_pulses (target : string) (iterations : Z) :
  Spec.strip_pulses (create_standard_grover target iterations)
  = create_standard_grover target iterations
  /\ Spec.strip_pulses
       (Spec.strip_pulses (create_vermicular target iterations))
     = Spec.strip_pulses (create_vermicular target iterations).
Proof.
  rewrite create_standard_grover_closed, create_vermicular_closed.
  rewrite strip_pulses_augmented, strip_pulses_baseline. split; reflexivity.
Qed.

(** * Further properties of a pass *)

(** X6. The Baseline pass runs one Grover iteration at its first stage and
    two at every later stage, whatever the catalog: the first circuit
    alone already brings the accumulated depth to 2 or more.  The first
    stage always submits its one-iteration circuit, and after every stage
    whose call returned samples the next stage submits its two-iteration
    circuit; a pass that returns has done so for every catalog entry. *)
Theorem baseline_schedule (self : QuantumDatabaseDemo) (w : World) :
  exists pass : list Call,
    calls (snd (run_multi_stage_search self "standard" w)) = calls w ++ pass
    /\ (forall (k : nat) (circuit : Circuit.t) (shots : Z),
           nth_error pass k = Some (circuit, shots) ->
           exists name target,
             nth_error (targets self) k = Some (name, target)
             /\ circuit
                = create_standard_grover target
                    (match k with O => 1 | S _ => 2 end))
    /\ (forall name target : string,
           nth_error (targets self) 0 = Some (name, target) ->
           nth_error pass 0
           = Some (create_standard_grover target 1, shots_per_test self))
    /\ (forall (k : nat) (circuit : Circuit.t) (shots : Z)
               (name target : string),
           nth_error pass k = Some (circuit, shots) ->
           returns_samples
             (device self (calls w ++ firstn k pass) circuit shots) ->
           nth_error (targets self) (S k) = Some (name, target) ->
           nth_error pass (S k)
           = Some (create_standard_grover target 2, shots_per_test self))
    /\ (forall r,
           fst (run_multi_stage_search self "standard" w) = inr r ->
           length pass = length (targets self)).
Proof.
  destruct (pass_circuits self "standard" w)
    as (pass & Hcalls & Hscheduled & Hfirst & Hnext & Hlength).
  exists pass. split; [exact Hcalls|].
  split; [|split; [exact Hfirst | split; [exact Hnext | exact Hlength]]].
  intros k circuit shots Hk.
  destruct (Hscheduled k circuit shots Hk)
    as (name & target & Hnth & _ & Hcircuit).
  now exists name, target.
Qed.

(** X7. What the schedule means on the ideal backend, for a catalog of
    two-bit patterns: every stage of the Augmented pass, and the first
    stage of the Baseline pass, submits a circuit that finds its target
    with probability 1, and every later stage of the Baseline pass one
    that finds it with probability 1/4.  The first stage always submits
    its circuit, the stage after every call that returned samples submits
    one too, and a pass that returns has submitted one per catalog
    entry. *)
Theorem ideal_stage_probabilities (self : QuantumDatabaseDemo)
        (algorithm_type : string) (w : World) :
  Forall (fun entry =>
            String.length (snd entry) = 2%nat
            /\ is_bit_string (snd entry) = true)
    (targets self) ->
  exists pass : list Call,
    calls (snd (run_multi_stage_search self algorithm_type w))
    = calls w ++ pass
    /\ (forall (k : nat) (circuit : Circuit.t) (shots : Z),
           nth_error pass k = Some (circuit, shots) ->
           exists name target,
             nth_error (targets self) k = Some (name, target)
             /\ Ideal.success_probability circuit target
                = (if String.eqb algorithm_type "standard"
                   then match k with O => 1 | S _ => / 4 end
                   else 1)%R)
    /\ (targets self <> [] -> nth_error pass 0 <> None)
    /\ (forall (k : nat) (circuit : Circuit.t) (shots : Z),
           nth_error pass k = Some (circuit, shots) ->
           returns_samples
             (device self (calls w ++ firstn k pass) circuit shots) ->
           (S k < length (targets self))%nat ->
           nth_error pass (S k) <> None)
    /\ (forall r,
           fst (run_multi_stage_search self algorithm_type w) = inr r ->
           length pass = length (targets self)).
Proof.
  intros Hcatalog.
  destruct (pass_circuits self algorithm_type w)
    as (pass & Hcalls & Hscheduled & Hfirst & Hnext & Hlength).
  exists pass. split; [exact Hcalls|].
  split; [|split; [|split; [|exact Hlength]]].
  - intros k circuit shots Hk.
    destruct (Hscheduled k circuit shots Hk)
      as (name & target & Hnth & _ & ->).
    exists name, target. split; [exact Hnth|].
    rewrite Forall_forall in Hcatalog.
    destruct (Hcatalog (name, target) (nth_error_In _ _ Hnth))
      as [Hlen Hbits]. cbn [snd] in Hlen, Hbits.
    unfold scheduled_circuit.
    destruct (String.eqb algorithm_type "standard").
    + destruct k as [|k].
      * now apply one_iteration_finds.
      * now apply two_iterations_success.
    + now apply vermicular_one_iteration_finds.
  - intros Hne.
    destruct (targets self) as [|[name target] rest] eqn:Htargets;
      [congruence|].
    now rewrite (Hfirst name target eq_refl).
  - intros k circuit shots Hk Hreturns Hlt.
    destruct (nth_error (targets self) (S k)) as [[name target]|] eqn:Hnth;
      [|apply nth_error_None in Hnth; lia].
    now rewrite (Hnext k circuit shots name target Hk Hreturns Hnth).
Qed.

Lemma ideal_stage_probabilities_witness :
  exists pass : list Call,
    calls (snd (run_multi_stage_search demo_three_samples "standard"
                  initial_world))
    = calls initial_world ++ pass
    /\ (forall (k : nat) (circuit : Circuit.t) (shots : Z),
           nth_error pass k = Some (circuit, shots) ->
           exists name target,
             nth_error (targets demo_three_samples) k = Some (name, target)
             /\ Ideal.success_probability circuit target
                = (if String.eqb "standard" "standard"
                   then match k with O => 1 | S _ => / 4 end
                   else 1)%R)
    /\ (targets demo_three_samples <> [] -> nth_error pass 0 <> None).
Proof.
  destruct (ideal_stage_probabilities demo_three_samples "standard"
              initial_world)
    as (pass & Hcalls & Hpass & Hfirst & _).
  - repeat constructor.
  - exists pass. split; [exact Hcalls|]. split; [exact Hpass | exact Hfirst].
Defined.

(** X8. A pass fails only at a backend call: with the exception the
    backend raised, or with a division by zero when the call returned no
    sample.  The failing call is the last one of the pass, no later stage
    runs, and a failed pass stores nothing: [self.results] is as it was
    before the pass. *)
Theorem failed_pass_stores_nothing (self : QuantumDatabaseDemo)
        (algorithm_type : string) (w : World) (e : Exception) :
  fst (run_multi_stage_search self algorithm_type w) = inl e ->
  results (snd (run_multi_stage_search self algorithm_type w)) = results w
  /\ exists (pass : list Call) (k : nat) (circuit : Circuit.t)
            (name target : string),
      calls (snd (run_multi_stage_search self algorithm_type w))
      = calls w ++ pass
      /\ length pass = S k
      /\ nth_error pass k = Some (circuit, shots_per_test self)
      /\ nth_error (targets self) k = Some (name, target)
      /\ ((exists class_name : string,
              device self (calls w ++ firstn k pass) circuit
                (shots_per_test self) = inl class_name
              /\ e = BackendError class_name)
          \/ (device self (calls w ++ firstn k pass) circuit
                (shots_per_test self) = inr []
              /\ e = ZeroDivisionError)).
Proof.
  rewrite run_multi_stage_search_unfold.
  destruct (for_each_search_stage self algorithm_type (targets self)
              ([], 0) w) as (pass & Hcalls & Hresults & _).
  destruct (for_each_search_stage_progress self algorithm_type
              (targets self) ([], 0) w pass Hcalls)
    as (_ & _ & Hfail & _).
  remember (for_each (targets self) (search_stage self algorithm_type)
              ([], 0) w) as loop eqn:Hloop.
  destruct loop as [[e'|[stage_results depth]] w1];
    cbn [fst snd] in *; [|discriminate].
  intros [= <-]. split; [exact Hresults|].
  destruct (Hfail e' eq_refl)
    as (k & circuit & name & target & Hk & Hlength & Hnth & Hanswer).
  exists pass, k, circuit, name, target.
  split; [exact Hcalls|]. split; [exact Hlength|].
  split; [exact Hk|]. split; [exact Hnth|].
  destruct (device self (calls w ++ firstn k pass) circuit
              (shots_per_test self)) as [class_name|[|m ms]];
    cbn [answer_rate] in Hanswer.
  - left. exists class_name. split; [reflexivity | congruence].
  - right. split; [reflexivity | congruence].
  - discriminate Hanswer.
Qed.

Lemma failed_pass_stores_nothing_witness :
  fst (run_multi_stage_search demo_zero_shots "vermicular" initial_world)
  = inl (BackendError "ValueError")
  /\ results (snd (run_multi_stage_search demo_zero_shots "vermicular"
                     initial_world))
     = results initial_world.
Proof.
  split; [reflexivity|].
  apply (failed_pass_stores_nothing demo_zero_shots "vermicular"
           initial_world (BackendError "ValueError")).
  reflexivity.
Defined.

(** X9. A pass that returns has called the backend once per catalog entry
    and has stored its stage rates and its total under its own key of
    [self.results]; the entry of every other key is as it was. *)
Theorem pass_stores_under_its_key (self : QuantumDatabaseDemo)
        (algorithm_type : string) (w : World)
        (stage_results : list PyFloat.t) (total_success : PyFloat.t) :
  fst (run_multi_stage_search self algorithm_type w)
  = inr (stage_results, total_success) ->
  let w' := snd (run_multi_stage_search self algorithm_type w) in
  length (calls w') = (length (calls w) + length (targets self))%nat
  /\ dict_get (results w') algorithm_type
     = Some {| stages := stage_results; total := total_success |}
  /\ forall key : string,
      key <> algorithm_type ->
      dict_get (results w') key = dict_get (results w) key.
Proof.
  intros Hrun. cbv zeta.
  destruct (run_multi_stage_search_world self algorithm_type w _ _ Hrun)
    as [Hresults Hcalls].
  split; [exact Hcalls|]. rewrite Hresults. split.
  - apply dict_get_set_same.
  - intros key Hkey. now apply dict_get_set_other.
Qed.

Lemma pass_stores_under_its_key_witness :
  exists stage_results total_success,
    fst (run_multi_stage_search demo_three_samples "vermicular"
           initial_world)
    = inr (stage_results, total_success)
    /\ dict_get
         (results (snd (run_multi_stage_search demo_three_samples
                          "vermicular" initial_world)))
         "standard"
       = dict_get (results initial_world) "standard".
Proof.
  eexists. eexists. split; [vm_compute; reflexivity|].
  eapply (pass_stores_under_its_key demo_three_samples "vermicular"
            initial_world).
  - vm_compute. reflexivity.
  - discriminate.
Defined.

(** X10. On a backend that returns at least one sample for every call, a
    pass never fails: it returns one rate per catalog entry, and their
    product as total. *)
Theorem pass_returns_on_live_backend (self : QuantumDatabaseDemo)
        (algorithm_type : string) (w : World) :
  (forall history circuit,
      returns_samples
        (device self history circuit (shots_per_test self))) ->
  exists stage_results : list PyFloat.t,
    fst (run_multi_stage_search self algorithm_type w)
    = inr (stage_results, np_prod stage_results)
    /\ length stage_results = length (targets self).
Proof.
  intros Hdevice.
  destruct (run_multi_stage_search_total self algorithm_type w Hdevice)
    as (stage_results & total_success & Hrun).
  destruct (run_multi_stage_search_returns self algorithm_type w _ _ Hrun)
    as (Htotal & _ & Hlen & _).
  exists stage_results. now rewrite <- Htotal.
Qed.

Lemma pass_returns_on_live_backend_witness :
  (forall history circuit,
      returns_samples
        (device demo_three_samples history circuit
           (shots_per_test demo_three_samples)))
  /\ exists stage_results : list PyFloat.t,
      fst (run_multi_stage_search demo_three_samples "standard"
             initial_world)
      = inr (stage_results, np_prod stage_results)
      /\ length stage_results = length (targets demo_three_samples).
Proof.
  assert (Hdevice : forall history circuit,
             returns_samples
               (device demo_three_samples history circuit
                  (shots_per_test demo_three_samples)))
    by (intros; eexists; eexists; reflexivity).
  split; [exact Hdevice|].
  apply (pass_returns_on_live_backend demo_three_samples "standard"
           initial_world Hdevice).
Defined.

(** X11. The measured rate depends on the samples only up to their order:
    two backends whose sample lists are permutations of each other give
    the same result. *)
Theorem rate_ignores_sample_order (self self' : QuantumDatabaseDemo)
        (circuit : Circuit.t) (target : string) (w w' : World)
        (measurements measurements' : list Measurement) :
  device self (calls w) circuit (shots_per_test self) = inr measurements ->
  device self' (calls w') circuit (shots_per_test self')
  = inr measurements' ->
  Permutation measurements measurements' ->
  fst (measure_success_rate self circuit target w)
  = fst (measure_success_rate self' circuit target w').
Proof.
  intros Hdevice Hdevice' Hperm.
  rewrite !measure_success_rate_run, Hdevice, Hdevice'. cbn [fst].
  pose proof (Permutation_length Hperm) as Hlen.
  pose proof (Permutation_length (matching_Permutation _ _ target Hperm))
    as Hmatch.
  unfold answer_rate, sample_rate.
  destruct measurements as [|m ms], measurements' as [|m' ms'];
    try discriminate; [reflexivity|].
  now rewrite Hlen, Hmatch.
Qed.

Lemma rate_ignores_sample_order_witness :
  Permutation [[false; false]; [true; true]; [true; false]]
    [[true; true]; [false; false]; [true; false]]
  /\ fst (measure_success_rate demo_three_samples
            (create_vermicular "11" 1) "11" initial_world)
     = fst (measure_success_rate
              {| device := fun _ _ _ =>
                   inr [[true; true]; [false; false]; [true; false]];
                 shots_per_test := 3;
                 targets := targets demo_three_samples |}
              (create_vermicular "11" 1) "11" initial_world).
Proof.
  assert (Hperm :
            Permutation [[false; false]; [true; true]; [true; false]]
              [[true; true]; [false; false]; [true; false]])
    by apply perm_swap.
  split; [exact Hperm|].
  exact (rate_ignores_sample_order demo_three_samples
           {| device := fun _ _ _ =>
                inr [[true; true]; [false; false]; [true; false]];
              shots_per_test := 3;
              targets := targets demo_three_samples |}
           (create_vermicular "11" 1) "11" initial_world initial_world
           [[false; false]; [true; true]; [true; false]]
           [[true; true]; [false; false]; [true; false]]
           eq_refl eq_refl Hperm).
Defined.

(** X12. Samples are compared with the pattern as strings of ['0'] and
    ['1']: a sample matches exactly when the pattern spells its bits.  So
    a pattern holding any other character, or a pattern whose length
    differs from the width of every sample, is reported with rate 0.0. *)
Theorem unmatched_pattern_scores_zero (self : QuantumDatabaseDemo)
        (circuit : Circuit.t) (target : string) (w : World)
        (measurements : list Measurement) :
  device self (calls w) circuit (shots_per_test self) = inr measurements ->
  measurements <> [] ->
  (forall m : Measurement,
      In m (matching measurements target)
      <-> In m measurements /\ bits_of_string target = Some m)
  /\ (bits_of_string target = None
      \/ Forall (fun m => length m <> String.length target) measurements ->
      fst (measure_success_rate self circuit target w)
      = inr PyFloat.zero).
Proof.
  intros Hdevice Hne. split.
  - intros m. unfold matching. rewrite filter_In, String.eqb_eq.
    now rewrite measured_string_matches.
  - intros Hbad. rewrite measure_success_rate_run, Hdevice. cbn [fst].
    assert (Hnone : matching measurements target = []).
    { destruct Hbad as [Hbits | Hwidth];
        [now apply matching_nil_of_not_bits|].
      unfold matching. clear Hne Hdevice.
      induction Hwidth as [|m ms Hm _ IH]; [reflexivity|].
      cbn [filter].
      destruct (String.eqb_spec (measured_string m) target) as [Heq|_];
        [|exact IH].
      exfalso. apply Hm. now rewrite <- Heq, length_measured_string. }
    destruct measurements as [|m ms]; [congruence|].
    cbn [answer_rate]. unfold sample_rate. rewrite Hnone.
    apply f_equal, div_zero. cbn [length]. lia.
Qed.

Lemma unmatched_pattern_scores_zero_witness :
  device demo_three_samples (calls initial_world)
    (create_vermicular "000" 1) (shots_per_test demo_three_samples)
  = inr [[false; false]; [true; true]; [true; false]]
  /\ fst (measure_success_rate demo_three_samples
            (create_vermicular "000" 1) "000" initial_world)
     = inr PyFloat.zero.
Proof.
  split; [reflexivity|].
  apply (unmatched_pattern_scores_zero demo_three_samples
           (create_vermicular "000" 1) "000" initial_world
           [[false; false]; [true; true]; [true; false]] eq_refl).
  - discriminate.
  - right. repeat constructor; discriminate.
Defined.

(** X13. Asked for the final comparison before any pass has run, the demo
    of a non-empty catalog fails with an index error at its first stage:
    the initial [self.results] holds empty stage lists. *)
Theorem comparison_before_any_pass_fails (self : QuantumDatabaseDemo)
        (w : World) :
  targets self <> [] ->
  results w = initial_results ->
  display_final_comparison self w = (inl IndexError, w).
Proof.
  intros Hne Hresults. unfold display_final_comparison.
  unfold bind at 1.
  rewrite (get_results_run "standard"
             {| stages := []; total := PyFloat.zero |})
    by now rewrite Hresults.
  unfold bind at 1.
  rewrite (get_results_run "vermicular"
             {| stages := []; total := PyFloat.zero |})
    by now rewrite Hresults.
  destruct (targets self) as [|[name target] rest]; [congruence|].
  reflexivity.
Qed.

Lemma comparison_before_any_pass_fails_witness :
  targets demo_three_samples <> []
  /\ display_final_comparison demo_three_samples initial_world
     = (inl IndexError, initial_world).
Proof.
  assert (Hne : targets demo_three_samples <> []) by discriminate.
  split; [exact Hne|].
  apply (comparison_before_any_pass_fails demo_three_samples initial_world
           Hne).
  reflexivity.
Defined.

(** * Further properties of the report and of the complete demo *)

(** X14. For rates in [0, 1] the bars never fail and never overflow: each
    of the two summary bars has exactly 40 cells, full blocks first, and
    the progress bar of a stage, drawn the same way, has exactly 50. *)
Theorem visual_bars_fill_their_length (standard vermicular : PyFloat.t) :
  PyFloat.is_rate standard = true ->
  PyFloat.is_rate vermicular = true ->
  (exists std_bar ver_bar : UnicodeString,
      _print_visual_bars standard vermicular = inr (std_bar, ver_bar)
      /\ is_bar 40 std_bar /\ Z.of_nat (length std_bar) = 40
      /\ is_bar 40 ver_bar /\ Z.of_nat (length ver_bar) = 40)
  /\ (exists bar : UnicodeString,
         visual_bar 50 standard = inr bar
         /\ is_bar 50 bar /\ Z.of_nat (length bar) = 50).
Proof.
  intros Hs Hv. split.
  - now apply print_visual_bars_run.
  - now apply visual_bar_fifty.
Qed.

Lemma visual_bars_fill_their_length_witness :
  PyFloat.is_rate six_tenths = true
  /\ PyFloat.is_rate PyFloat.one = true
  /\ exists bar : UnicodeString,
      visual_bar 50 six_tenths = inr bar
      /\ is_bar 50 bar /\ Z.of_nat (length bar) = 50.
Proof.
  split; [reflexivity|]. split; [reflexivity|].
  apply (visual_bars_fill_their_length six_tenths PyFloat.one);
    reflexivity.
Defined.

(** X15. The two cumulative curves of the plot, for two runs of equal,
    non-zero length over rates in [0, 1]: each curve has one point per
    stage, point [i] is the product of the first [i + 1] stage rates, a
    curve never rises, and its last point is the total of the run. *)
Theorem cumulative_curves (std_stages ver_stages : list PyFloat.t)
        (w : World) :
  std_stages <> [] ->
  length std_stages = length ver_stages ->
  Forall (fun r => PyFloat.is_rate r = true) std_stages ->
  Forall (fun r => PyFloat.is_rate r = true) ver_stages ->
  exists std_cumulative ver_cumulative : list PyFloat.t,
    cumulative_success std_stages ver_stages w
    = (inr (std_cumulative, ver_cumulative), w)
    /\ length std_cumulative = length std_stages
    /\ length ver_cumulative = length ver_stages
    /\ (forall i : nat,
           (i < length std_stages)%nat ->
           nth_error std_cumulative i
           = Some (np_prod (firstn (S i) std_stages))
           /\ nth_error ver_cumulative i
              = Some (np_prod (firstn (S i) ver_stages)))
    /\ (forall (i : nat) (a b : PyFloat.t),
           (nth_error std_cumulative i = Some a
            /\ nth_error std_cumulative (S i) = Some b)
           \/ (nth_error ver_cumulative i = Some a
               /\ nth_error ver_cumulative (S i) = Some b) ->
           PyFloat.leb b a = true)
    /\ nth_error std_cumulative (length std_stages - 1)
       = Some (np_prod std_stages)
    /\ nth_error ver_cumulative (length ver_stages - 1)
       = Some (np_prod ver_stages).
Proof.
  intros Hne Hlen Hstd Hver.
  destruct (cumulative_success_series std_stages ver_stages w Hne Hlen)
    as (s & v & std_rest & ver_rest & -> & -> & Hrun).
  destruct (cumulative_series s std_rest Hstd) as (Hl1 & He1 & Hd1 & Ht1).
  destruct (cumulative_series v ver_rest Hver) as (Hl2 & He2 & Hd2 & Ht2).
  eexists. eexists. split; [exact Hrun|].
  split; [exact Hl1|]. split; [exact Hl2|]. split; [|split; [|split]].
  - intros i Hi. split; [now apply He1 | apply He2; lia].
  - intros i a b [[Ha Hb] | [Ha Hb]]; [eapply Hd1 | eapply Hd2]; eassumption.
  - replace (length (s :: std_rest) - 1)%nat with (length std_rest)
      by (cbn [length]; lia).
    exact Ht1.
  - replace (length (v :: ver_rest) - 1)%nat with (length ver_rest)
      by (cbn [length]; lia).
    exact Ht2.
Qed.

Lemma cumulative_curves_witness :
  exists std_cumulative ver_cumulative : list PyFloat.t,
    cumulative_success [PyFloat.zero; PyFloat.one; PyFloat.one]
      [six_tenths; PyFloat.one; PyFloat.one] initial_world
    = (inr (std_cumulative, ver_cumulative), initial_world)
    /\ length std_cumulative = 3%nat
    /\ length ver_cumulative = 3%nat.
Proof.
  destruct (cumulative_curves [PyFloat.zero; PyFloat.one; PyFloat.one]
              [six_tenths; PyFloat.one; PyFloat.one] initial_world)
    as (std_cumulative & ver_cumulative & Hrun & Hl1 & Hl2 & _).
  - discriminate.
  - reflexivity.
  - repeat constructor.
  - repeat constructor.
  - exists std_cumulative, ver_cumulative. now repeat split.
Defined.

(** X16. The improvement factor that is saved agrees with the improvement
    that is displayed whenever the Baseline total is above zero; when it
    is not, the display shows [float('inf')] while the saved factor is
    [None].  Neither computation divides by zero. *)
Theorem saved_factor_matches_display (self : QuantumDatabaseDemo)
        (w : World) (standard vermicular : RunResult) :
  dict_get (results w) "standard" = Some standard ->
  dict_get (results w) "vermicular" = Some vermicular ->
  length (stages standard) = length (targets self) ->
  length (stages vermicular) = length (targets self) ->
  exists (advantages : list PyFloat.t) (improvement : PyFloat.t)
         (factor : option PyFloat.t),
    display_final_comparison self w = (inr (advantages, improvement), w)
    /\ save_results w = (inr factor, w)
    /\ (PyFloat.ltb PyFloat.zero (total standard) = true ->
        factor = Some improvement)
    /\ (PyFloat.ltb PyFloat.zero (total standard) = false ->
        factor = None /\ improvement = PyFloat.inf).
Proof.
  intros Hstd Hver Hls Hlv.
  destruct (display_final_comparison_run self w _ _ Hstd Hver Hls Hlv)
    as (advantages & Hdisplay & _).
  eexists. eexists. eexists. split; [exact Hdisplay|].
  split; [exact (save_results_run w _ _ Hstd Hver)|].
  unfold reported_ratio.
  split; intros ->; [reflexivity | split; reflexivity].
Qed.

Lemma saved_factor_matches_display_witness :
  exists (advantages : list PyFloat.t) (improvement : PyFloat.t),
    display_final_comparison demo_three_samples world_after_both_passes
    = (inr (advantages, improvement), world_after_both_passes)
    /\ save_results world_after_both_passes
       = (inr None, world_after_both_passes)
    /\ improvement = PyFloat.inf.
Proof.
  destruct (saved_factor_matches_display demo_three_samples
              world_after_both_passes
              {| stages := [PyFloat.zero; PyFloat.one; PyFloat.one];
                 total := PyFloat.zero |}
              {| stages := [six_tenths; PyFloat.one; PyFloat.one];
                 total := six_tenths |}
              eq_refl eq_refl eq_refl eq_refl)
    as (advantages & improvement & factor & Hd & Hs & _ & Hzero).
  destruct (Hzero eq_refl) as [Hfactor Himprovement].
  exists advantages, improvement. rewrite <- Hfactor. now repeat split.
Defined.

(** X17. On a hardware platform the demo runs only after an answer that
    is ["yes"] up to letter case.  After any other answer it returns at
    once: the backend is not called and nothing is stored.  After such an
    answer it does exactly what it does on the simulator. *)
Theorem hardware_run_needs_yes (self : QuantumDatabaseDemo)
        (platform confirm : string) (w : World) :
  platform <> "simulator" ->
  (lower confirm = "yes" <-> In confirm yes_spellings)
  /\ (~ In confirm yes_spellings ->
      run_complete_demo self platform confirm w = (inr (inr None), w))
  /\ (In confirm yes_spellings ->
      run_complete_demo self platform confirm w
      = run_complete_demo self "simulator" confirm w).
Proof.
  intros Hp. split; [apply lower_yes|]. split.
  - now apply run_complete_demo_cancelled.
  - intros Hyes.
    rewrite !run_complete_demo_proceeds by (now right) || (now left).
    reflexivity.
Qed.

Lemma hardware_run_needs_yes_witness :
  "iqm" <> "simulator"
  /\ run_complete_demo demo_three_samples "iqm" "y" initial_world
     = (inr (inr None), initial_world).
Proof.
  assert (Hp : "iqm" <> "simulator") by discriminate.
  split; [exact Hp|].
  apply (hardware_run_needs_yes demo_three_samples "iqm" "y" initial_world
           Hp).
  cbn. intuition discriminate.
Defined.

(** X18. On a backend that returns at least one sample for every call, a
    demo with a non-empty catalog that is not cancelled completes all its
    computations: the two passes, the comparison, the summary bars, the
    cumulative curves and the saved factor, with no division, index, key
    or conversion error.  It calls the backend twice per catalog entry,
    and every list it reports has one entry per catalog entry. *)
Theorem complete_demo_on_live_backend (self : QuantumDatabaseDemo)
        (platform confirm : string) (w : World) :
  platform = "simulator" \/ In confirm yes_spellings ->
  targets self <> [] ->
  (forall history circuit,
      returns_samples
        (device self history circuit (shots_per_test self))) ->
  exists (report : DemoReport) (w' : World),
    run_complete_demo self platform confirm w = (inr (inr (Some report)), w')
    /\ length (calls w')
       = (length (calls w) + 2 * length (targets self))%nat
    /\ length (fst (comparison report)) = length (targets self)
    /\ length (fst (curves report)) = length (targets self)
    /\ length (snd (curves report)) = length (targets self)
    /\ is_bar 40 (fst (bars report))
    /\ is_bar 40 (snd (bars report))
    /\ (improvement_factor report = Some (snd (comparison report))
        \/ (improvement_factor report = None
            /\ snd (comparison report) = PyFloat.inf)).
Proof.
  intros Hgo Hne Hdevice.
  rewrite run_complete_demo_proceeds by exact Hgo.
  (* the Baseline pass *)
  destruct (run_multi_stage_search_total self "standard" w Hdevice)
    as (std_stages & std_total & Hrun1).
  destruct (run_multi_stage_search_returns self "standard" w _ _ Hrun1)
    as (Htotal1 & Hrates1 & Hlen1 & Hget1).
  destruct (run_multi_stage_search_world self "standard" w _ _ Hrun1)
    as (_ & Hcalls1).
  rewrite (bind_run _ _ _ _ Hrun1).
  set (w1 := snd (run_multi_stage_search self "standard" w)) in *.
  (* the Augmented pass *)
  destruct (run_multi_stage_search_total self "vermicular" w1 Hdevice)
    as (ver_stages & ver_total & Hrun2).
  destruct (run_multi_stage_search_returns self "vermicular" w1 _ _ Hrun2)
    as (Htotal2 & Hrates2 & Hlen2 & Hget2).
  destruct (run_multi_stage_search_world self "vermicular" w1 _ _ Hrun2)
    as (Hresults2 & Hcalls2).
  rewrite (bind_run _ _ _ _ Hrun2).
  set (w2 := snd (run_multi_stage_search self "vermicular" w1)) in *.
  assert (Hstd : dict_get (results w2) "standard"
                 = Some {| stages := std_stages; total := std_total |}).
  { rewrite Hresults2, dict_get_set_other by discriminate. exact Hget1. }
  (* the comparison and its bars *)
  destruct (display_final_comparison_run self w2 _ _ Hstd Hget2 Hlen1 Hlen2)
    as (advantages & Hdisplay & Hadvantages & _).
  unfold bind at 1. rewrite Hdisplay.
  unfold bind at 1. rewrite (visual_summary_run w2 _ _ Hstd Hget2).
  cbn [total].
  destruct (print_visual_bars_run std_total ver_total)
    as (std_bar & ver_bar & Hbars & Hbar1 & _ & Hbar2 & _).
  { rewrite Htotal1. now apply np_prod_rate. }
  { rewrite Htotal2. now apply np_prod_rate. }
  rewrite Hbars.
  (* the curves *)
  assert (Hnonempty : std_stages <> []).
  { intros ->. cbn [length] in Hlen1.
    destruct (targets self); [congruence | discriminate]. }
  destruct (cumulative_success_series std_stages ver_stages w2 Hnonempty)
    as (s & v & std_rest & ver_rest & Hs & Hv & _); [congruence|].
  assert (Hrest : length std_rest = length ver_rest).
  { rewrite Hs in Hlen1. rewrite Hv in Hlen2. cbn [length] in *. lia. }
  unfold bind at 1.
  rewrite (create_comparison_plot_run w2 _ _ s v std_rest ver_rest
             Hstd Hget2 Hs Hv) by lia.
  (* the saved factor *)
  unfold bind at 1. rewrite (save_results_run w2 _ _ Hstd Hget2).
  unfold ret. eexists. eexists. split; [reflexivity|].
  cbn [comparison curves bars improvement_factor fst snd total].
  split; [lia|]. split; [exact Hadvantages|].
  split; [cbn [length]; rewrite length_running_products;
          rewrite Hs in Hlen1; exact Hlen1|].
  split; [cbn [length]; rewrite length_running_products, length_firstn;
          rewrite Hv in Hlen2; cbn [length] in Hlen2; lia|].
  split; [exact Hbar1|]. split; [exact Hbar2|].
  unfold reported_ratio.
  destruct (PyFloat.ltb PyFloat.zero std_total); [now left | now right].
Qed.

Lemma complete_demo_on_live_backend_witness :
  exists (report : DemoReport) (w' : World),
    run_complete_demo demo_three_samples "simulator" "" initial_world
    = (inr (inr (Some report)), w')
    /\ length (calls w') = 6%nat.
Proof.
  destruct (complete_demo_on_live_backend demo_three_samples "simulator" ""
              initial_world)
    as (report & w' & Hrun & Hcalls & _).
  - now left.
  - discriminate.
  - intros; eexists; eexists; reflexivity.
  - exists report, w'. split; [exact Hrun | exact Hcalls].
Defined.

(** X19. Whatever is typed at the platform menu, the demo object that is
    created is configured: the answer selects one of the three known
    platforms, ["2"] and ["3"] the two hardware devices with 200 shots
    per stage, anything else the free local simulator with 1000; the
    catalog always holds the three two-bit patterns. *)
Theorem menu_always_configures (choice : string)
        (backend : list Call -> Circuit.t -> Z -> Answer) :
  exists (setup : DeviceSetup) (self : QuantumDatabaseDemo),
    setup_device (choose_platform choice) = Some setup
    /\ __init__ (choose_platform choice) backend = Some self
    /\ shots_per_test self = platform_shots setup
    /\ 0 < shots_per_test self
    /\ Forall (fun entry =>
                 String.length (snd entry) = 2%nat
                 /\ is_bit_string (snd entry) = true)
         (targets self)
    /\ (choice = "2" \/ choice = "3" ->
        platform_shots setup = 200
        /\ cost_per_shot setup = PyFloatNumber hardware_cost_per_shot
        /\ device_arn setup <> None)
    /\ (choice <> "2" -> choice <> "3" ->
        choose_platform choice = "simulator"
        /\ platform_shots setup = 1000
        /\ cost_per_shot setup = PyInt 0
        /\ device_arn setup = None).
Proof.
  destruct (choose_platform_cases choice)
    as [[-> Hp] | [[-> Hp] | (H2 & H3 & Hp)]];
    unfold __init__; rewrite Hp; cbn [setup_device String.eqb Ascii.eqb Bool.eqb];
    eexists; eexists; (split; [reflexivity|]); (split; [reflexivity|]);
    cbn [shots_per_test platform_shots cost_per_shot device_arn targets];
    (split; [reflexivity|]); (split; [lia|]);
    (split; [repeat constructor|]).
  - split; [intros _; repeat split; discriminate | congruence].
  - split; [intros _; repeat split; discriminate | congruence].
  - split; [intros [?|?]; congruence | intros _ _; now repeat split].
Qed.
